(** * A verified model of the 24LC256 I2C EEPROM driver (src/24LC256.h)

    The driver is a single C++ struct [E24LC256] whose member functions talk
    to the Arduino [Wire] object and read the [micros()] clock.  Both are
    external collaborators: they are modelled here as a scripted transport
    (the status code of every ended transmission and every clock reading are
    taken from two scripts, so that any behaviour of the bus and of the
    clock can be played) in front of a byte-addressable store with the
    paged-write behaviour of the part.  The member functions are written in
    an error-and-state monad and follow the source statement by statement;
    the loops that the source does not bound take fuel.

    The file has the model first, then the vocabulary of the statements,
    then the facts: the runs of [ackPolling], of the block transfers, of
    the loop of [put] (as the relation [PutRun]) and of the loop of [get],
    and the statements about the driver proved from them. *)

From Stdlib Require Import ZArith Lia Bool.
From stdpp Require Import base list.

Local Open Scope Z_scope.

(** ** Fixed-width integers *)

(** [uint8_t], [uint16_t] and [uint32_t] values are integers reduced modulo
    their width after every operation. *)
Definition wrap8 (z : Z) : Z := z mod 256.
Definition wrap16 (z : Z) : Z := z mod 65536.
Definition wrap32 (z : Z) : Z := z mod 4294967296.

(** ** Build configuration: the [#ifdef ESP8266] branches *)

Inductive Board := AVR | ESP8266.

(** [pageSize] in [put]. *)
Definition pageSize (b : Board) : Z :=
  match b with ESP8266 => 64 | AVR => 32 end.

(** [bufferSize] in [get]; it is the I2C buffer size of the board's Wire
    library, as the comments on both constants say. *)
Definition bufferSize (b : Board) : Z :=
  match b with ESP8266 => 128 | AVR => 32 end.

(** [putSize = pageSize - 2]. *)
Definition putSize (b : Board) : Z := wrap16 (pageSize b - 2).

(** [pageSize * (address / pageSize + 1) - address], every operation on
    [uint16_t]. *)
Definition remainingPageSizeAt (b : Board) (address : Z) : Z :=
  wrap16 (wrap16 (pageSize b * wrap16 (address / pageSize b + 1)) - address).

(** The three-way minimum of the loop body of [put]:
    [nbytes = putSize; if (remainingPageSize < nbytes) ...;
     if (remainingDataSize < nbytes) ...]. *)
Definition nbytesAt (b : Board) (address remainingDataSize : Z) : Z :=
  let remainingPageSize := remainingPageSizeAt b address in
  let nbytes := putSize b in
  let nbytes := if remainingPageSize <? nbytes then remainingPageSize else nbytes in
  let nbytes := if remainingDataSize <? nbytes then remainingDataSize else nbytes in
  nbytes.

(** ** The transport and the device behind it *)

(** What the transport saw: a transmission ended by [endTransmission], with
    the bytes that were queued for it and the status code it returned, or a
    [requestFrom] of some number of bytes. *)
Inductive Event :=
| Tx (target : Z) (bytes : list Z) (status : Z)
| Rx (target : Z) (quantity : Z).

(** [enum Status]. *)
Inductive Status := UNKNOWN | EEPROM_NOT_FOUND | EEPROM_FOUND.

(** The data members of [struct E24LC256]. *)
Record E24LC256 := mkE24LC256 {
  EEPROMStatus : Status;
  I2CAddress : Z;
  readBuffer : list Z
}.

(** The constructor [E24LC256(uint8_t a = 0x50)]; [readBuffer] has 64
    cells. *)
Definition E24LC256_new (a : Z) : E24LC256 :=
  mkE24LC256 UNKNOWN (wrap8 a) (repeat 0 64).

(** The whole system: the driver object, the Wire buffers, the positions in
    the two scripts, the storage cells and address counter of the part, and
    what has been observed so far ([journal]: the bus traffic; [polled]: the
    outcome of every call of [ackPolling], oldest first). *)
Record State := mkState {
  this : E24LC256;
  txAddress : Z;
  txBuffer : list Z;
  rxBuffer : list Z;
  ended : nat;
  ticks : nat;
  cells : Z -> Z;
  pointer : Z;
  journal : list Event;
  polled : list bool
}.

(** Errors of the model: a loop that did not finish within the fuel given, an
    access outside the object or buffer a pointer points into, and the
    missing [return] of [read] when the poll fails. *)
Inductive Err := OutOfFuel | OutOfBounds | NoReturnValue.

Inductive Res (A : Type) :=
| Ok (a : A) (s : State)
| Bad (e : Err).
Arguments Ok {A} a s.
Arguments Bad {A} e.

Definition M (A : Type) : Type := State -> Res A.

Definition ret {A} (a : A) : M A := fun s => Ok a s.
Definition bind {A B} (m : M A) (k : A -> M B) : M B :=
  fun s => match m s with Ok a s' => k a s' | Bad e => Bad e end.
Definition fail {A} (e : Err) : M A := fun _ => Bad e.

Declare Scope drv_scope.
Delimit Scope drv_scope with drv.
Bind Scope drv_scope with M.
Notation "x <- m ;; k" := (bind m (fun x => k))
  (at level 100, m at next level, k at level 200, right associativity) : drv_scope.
Notation "m ;; k" := (bind m (fun _ => k))
  (at level 100, k at level 200, right associativity) : drv_scope.
Local Open Scope drv_scope.

(** The part writes within one 64-byte page: the low six bits of its address
    counter roll over, the page number stays. *)
Definition devicePage : Z := 64.

Definition nextInPage (a : Z) : Z :=
  a / devicePage * devicePage + (a + 1) mod devicePage.

Fixpoint pageWrite (c : Z -> Z) (a : Z) (data : list Z) : (Z -> Z) * Z :=
  match data with
  | [] => (c, a)
  | d :: data' => pageWrite (fun x => if x =? a then d else c x) (nextInPage a) data'
  end.

(** An acknowledged transmission: two address bytes, high byte first, set the
    address counter; the bytes after them are stored.  Shorter
    transmissions change nothing. *)
Definition deliver (c : Z -> Z) (p : Z) (bytes : list Z) : (Z -> Z) * Z :=
  match bytes with
  | hi :: lo :: data => pageWrite c (hi * 256 + lo) data
  | _ => (c, p)
  end.

(** A sequential read: [n] cells from the address counter on, which runs
    over the whole 16-bit space. *)
Definition fetch (c : Z -> Z) (p : Z) (n : nat) : list Z :=
  map (fun i => c (wrap16 (p + Z.of_nat i))) (seq 0 n).

Section Driver.

(** The board the code is built for, the status code the [n]-th
    [endTransmission] returns and the time at the [n]-th call of
    [micros()]. *)
Variable board : Board.
Variable ack : nat -> Z.
Variable now : nat -> Z.

(** *** Wire *)

Definition Wire_beginTransmission (address : Z) : M unit := fun s =>
  Ok tt (mkState (this s) address [] (rxBuffer s) (ended s) (ticks s)
           (cells s) (pointer s) (journal s) (polled s)).

(** A byte beyond the buffer's capacity is dropped. *)
Definition Wire_write (data : Z) : M unit := fun s =>
  if Z.of_nat (length (txBuffer s)) <? bufferSize board then
    Ok tt (mkState (this s) (txAddress s) (txBuffer s ++ [data]) (rxBuffer s)
             (ended s) (ticks s) (cells s) (pointer s) (journal s) (polled s))
  else Ok tt s.

Definition Wire_endTransmission : M Z := fun s =>
  let status := wrap8 (ack (ended s)) in
  let cp := if status =? 0 then deliver (cells s) (pointer s) (txBuffer s)
            else (cells s, pointer s) in
  Ok status (mkState (this s) (txAddress s) [] (rxBuffer s) (S (ended s)) (ticks s)
               (fst cp) (snd cp)
               (journal s ++ [Tx (txAddress s) (txBuffer s) status]) (polled s)).

(** At most a buffer's worth of bytes is received. *)
Definition Wire_requestFrom (address quantity : Z) : M unit := fun s =>
  let n := Z.to_nat (Z.min quantity (bufferSize board)) in
  Ok tt (mkState (this s) (txAddress s) (txBuffer s) (fetch (cells s) (pointer s) n)
           (ended s) (ticks s) (cells s) (wrap16 (pointer s + Z.of_nat n))
           (journal s ++ [Rx address quantity]) (polled s)).

(** [Wire.read()] is -1 when nothing is left to read. *)
Definition Wire_read : M Z := fun s =>
  match rxBuffer s with
  | [] => Ok (-1) s
  | v :: rest =>
      Ok v (mkState (this s) (txAddress s) (txBuffer s) rest (ended s) (ticks s)
              (cells s) (pointer s) (journal s) (polled s))
  end.

(** [micros()] is a [uint32_t]. *)
Definition micros : M Z := fun s =>
  Ok (wrap32 (now (ticks s)))
     (mkState (this s) (txAddress s) (txBuffer s) (rxBuffer s) (ended s) (S (ticks s))
        (cells s) (pointer s) (journal s) (polled s)).

(** *** Access to the driver object and to memory *)

Definition getThis : M E24LC256 := fun s => Ok (this s) s.

Definition setThis (e : E24LC256) : M unit := fun s =>
  Ok tt (mkState e (txAddress s) (txBuffer s) (rxBuffer s) (ended s) (ticks s)
           (cells s) (pointer s) (journal s) (polled s)).

(** Not in the source: the outcome of a poll is noted for the statements
    below, nothing reads it. *)
Definition note (b : bool) : M unit := fun s =>
  Ok tt (mkState (this s) (txAddress s) (txBuffer s) (rxBuffer s) (ended s) (ticks s)
           (cells s) (pointer s) (journal s) (polled s ++ [b])).

(** [*ptr] and [*ptr = v] for a pointer [i] cells into [buf]. *)
Definition load (buf : list Z) (i : nat) : M Z := fun s =>
  match buf !! i with Some v => Ok v s | None => Bad OutOfBounds end.

Definition store (buf : list Z) (i : nat) (v : Z) : M (list Z) := fun s =>
  if decide (i < length buf)%nat then Ok (<[i:=v]> buf) s else Bad OutOfBounds.

(** *** The member functions *)

(** The loop of [ackPolling]: [while (code != 0 && micros() - startPolling < 6000)]. *)
Fixpoint ackPolling_while (fuel : nat) (startPolling code : Z) : M Z :=
  if code =? 0 then ret code else
  match fuel with
  | O => fail OutOfFuel
  | S fuel' =>
      t <- micros ;;
      if wrap32 (t - startPolling) <? 6000 then
        e <- getThis ;;
        Wire_beginTransmission (I2CAddress e) ;;
        Wire_write (wrap8 0) ;;
        c <- Wire_endTransmission ;;
        ackPolling_while fuel' startPolling (wrap8 c)
      else ret code
  end.

Definition ackPolling (fuel : nat) : M bool :=
  startPolling <- micros ;;
  code <- ackPolling_while fuel startPolling 1 ;;
  note (code =? 0) ;;
  ret (code =? 0).

(** [Wire.begin()] does nothing that the transport modelled here shows. *)
Definition init (fuel : nat) : M unit :=
  ready <- ackPolling fuel ;;
  e <- getThis ;;
  setThis (mkE24LC256 (if ready then EEPROM_FOUND else EEPROM_NOT_FOUND)
             (I2CAddress e) (readBuffer e)).

Definition getStatus : M Status := fun s => Ok (EEPROMStatus (this s)) s.

(** [read] has no [return] on the path where the poll fails. *)
Definition read (fuel : nat) (address : Z) : M Z :=
  ready <- ackPolling fuel ;;
  if ready then
    e <- getThis ;;
    Wire_beginTransmission (I2CAddress e) ;;
    Wire_write (wrap8 (Z.shiftr address 8)) ;;
    Wire_write (wrap8 (Z.land address 255)) ;;
    _ <- Wire_endTransmission ;;
    Wire_requestFrom (I2CAddress e) (wrap8 1) ;;
    v <- Wire_read ;;
    ret (wrap8 v)
  else fail NoReturnValue.

Definition write (fuel : nat) (address data : Z) : M unit :=
  ready <- ackPolling fuel ;;
  if ready then
    e <- getThis ;;
    Wire_beginTransmission (I2CAddress e) ;;
    Wire_write (wrap8 (Z.shiftr address 8)) ;;
    Wire_write (wrap8 (Z.land address 255)) ;;
    Wire_write (wrap8 data) ;;
    _ <- Wire_endTransmission ;;
    ret tt
  else ret tt.

Definition update (fuel : nat) (address data : Z) : M unit :=
  a <- read fuel address ;;
  if negb (a =? data) then write fuel address data else ret tt.

(** [writeBytes]: the [for] loop sends [*ptr] and advances [ptr]. *)
Fixpoint writeBytes_for (n : nat) (obj : list Z) (ptr : nat) : M unit :=
  match n with
  | O => ret tt
  | S n' =>
      v <- load obj ptr ;;
      Wire_write (wrap8 v) ;;
      writeBytes_for n' obj (S ptr)
  end.

Definition writeBytes (address : Z) (obj : list Z) (ptr : nat) (nBytes : Z) : M unit :=
  e <- getThis ;;
  Wire_beginTransmission (I2CAddress e) ;;
  Wire_write (wrap8 (Z.shiftr address 8)) ;;
  Wire_write (wrap8 (Z.land address 255)) ;;
  writeBytes_for (Z.to_nat nBytes) obj ptr ;;
  _ <- Wire_endTransmission ;;
  ret tt.

(** [readBytes]: the [for] loop stores what [Wire.read()] gives at [*ptr]
    and advances [ptr]; the result is the memory [ptr] points into. *)
Fixpoint readBytes_for (n : nat) (buf : list Z) (ptr : nat) : M (list Z) :=
  match n with
  | O => ret buf
  | S n' =>
      v <- Wire_read ;;
      buf' <- store buf ptr (wrap8 v) ;;
      readBytes_for n' buf' (S ptr)
  end.

Definition readBytes (address : Z) (buf : list Z) (ptr : nat) (nBytes : Z) : M (list Z) :=
  e <- getThis ;;
  Wire_beginTransmission (I2CAddress e) ;;
  Wire_write (wrap8 (Z.shiftr address 8)) ;;
  Wire_write (wrap8 (Z.land address 255)) ;;
  _ <- Wire_endTransmission ;;
  Wire_requestFrom (I2CAddress e) nBytes ;;
  readBytes_for (Z.to_nat nBytes) buf ptr.

(** [compareBytes]: the count [n] is a [uint8_t] parameter, so that what
    is passed is reduced modulo 256; the [for] loop compares [*a] with [*b]
    and advances both. *)
Fixpoint compareBytes_for (n : nat) (a : list Z) (pa : nat) (b : list Z) (pb : nat) : M bool :=
  match n with
  | O => ret true
  | S n' =>
      x <- load a pa ;;
      y <- load b pb ;;
      if negb (x =? y) then ret false
      else compareBytes_for n' a (S pa) b (S pb)
  end.

Definition compareBytes (a : list Z) (pa : nat) (b : list Z) (pb : nat) (n : Z) : M bool :=
  compareBytes_for (Z.to_nat (wrap8 n)) a pa b pb.

(** [sizeof(T)] stored in a [uint16_t]. *)
Definition sizeof (t : list Z) : Z := wrap16 (Z.of_nat (length t)).

(** The loop of [put].  [t] is the object as bytes and [ptr] the position of
    the pointer in it; [n] bounds the iterations and [fuel] the attempts of
    each poll. *)
Fixpoint put_while (fuel n : nat) (address : Z) (t : list Z) (ptr : nat)
    (remainingDataSize : Z) : M (list Z) :=
  if remainingDataSize >? 0 then
    match n with
    | O => fail OutOfFuel
    | S n' =>
        let nbytes := nbytesAt board address remainingDataSize in
        ready <- ackPolling fuel ;;
        if negb ready then ret t
        else
          e <- getThis ;;
          buf <- readBytes address (readBuffer e) 0 (wrap8 nbytes) ;;
          setThis (mkE24LC256 (EEPROMStatus e) (I2CAddress e) buf) ;;
          same <- compareBytes buf 0 t ptr (wrap8 nbytes) ;;
          (if eqb same false then
             writeBytes address t ptr (wrap8 nbytes) ;;
             _ <- ackPolling fuel ;;
             ret tt
           else ret tt) ;;
          put_while fuel n' (wrap16 (address + nbytes)) t (ptr + Z.to_nat nbytes)
            (wrap16 (remainingDataSize - nbytes))
    end
  else ret t.

Definition put (fuel : nat) (address : Z) (t : list Z) : M (list Z) :=
  put_while fuel fuel address t 0 (sizeof t).

(** The loop of [get]: [for (uint16_t i = 0; i < size; i += bufferSize)],
    with [n] bounding the iterations.
    [size - i] is positive where it is evaluated, so it is the same number
    in [unsigned] and in [int] arithmetic. *)
Fixpoint get_for (n : nat) (address size i : Z) (t : list Z) (ptr : nat) : M (list Z) :=
  if i <? size then
    match n with
    | O => fail OutOfFuel
    | S n' =>
        let block := wrap8 (bufferSize board) in
        let block := if size - i <? bufferSize board then wrap8 (size - i) else block in
        t' <- readBytes (wrap16 (address + i)) t ptr block ;;
        get_for n' address size (wrap16 (i + bufferSize board)) t' (ptr + Z.to_nat block)
    end
  else ret t.

Definition get (fuel : nat) (address : Z) (t : list Z) : M (list Z) :=
  let size := sizeof t in
  ready <- ackPolling fuel ;;
  if ready then get_for fuel address size 0 t 0 else ret t.

End Driver.

(** ** Vocabulary of the statements *)

Arguments wrap8 : simpl never.
Arguments wrap16 : simpl never.
Arguments wrap32 : simpl never.

(** The high and the low address byte as the code sends them; the part
    makes the address [hi * 256 + lo] of them. *)
Definition hiByte (address : Z) : Z := wrap8 (Z.shiftr address 8).
Definition loByte (address : Z) : Z := wrap8 (Z.land address 255).

(** Kinds of transmission: a poll carries one byte, an address-only
    transmission two, a write two address bytes and at least one more. *)
Definition isPoll (e : Event) : bool :=
  match e with Tx _ [_] _ => true | _ => false end.

Definition isWrite (e : Event) : bool :=
  match e with Tx _ (_ :: _ :: _ :: _) _ => true | _ => false end.

Definition isRequest (e : Event) : bool :=
  match e with Rx _ _ => true | _ => false end.

(** Address and payload of a write transmission. *)
Definition txAddressOf (e : Event) : Z :=
  match e with Tx _ (hi :: lo :: _) _ => hi * 256 + lo | _ => 0 end.

Definition payloadOf (e : Event) : list Z :=
  match e with Tx _ (_ :: _ :: data) _ => data | _ => [] end.

Definition txBytesOf (e : Event) : list Z :=
  match e with Tx _ bytes _ => bytes | Rx _ _ => [] end.

(** A transmission that carries an address (a read set-up or a write) and
    was not acknowledged.  The driver sends these after a successful poll
    only and does not look at their status; a part that accepts the commands
    that follow an acknowledged poll, as the 24LC256 does, refuses none. *)
Definition refused (e : Event) : bool :=
  match e with
  | Tx _ (_ :: _ :: _) status => negb (status =? 0)
  | _ => false
  end.

(** The [k] poll attempts the driver at bus address [a] makes from the
    [from]-th transmission on. *)
Definition pollEvents (ack : nat -> Z) (a : Z) (from k : nat) : list Event :=
  map (fun i => Tx a [0] (wrap8 (ack (from + i)%nat))) (seq 0 k).

(** What the journal and the poll record gained between two states. *)
Definition newEvents (s s' : State) : list Event :=
  drop (length (journal s)) (journal s').

Definition newPolls (s s' : State) : list bool :=
  drop (length (polled s)) (polled s').

(** After any reading of the clock, one of the next [N] readings is at least
    6000 microseconds later (as the driver computes the difference): a poll
    that is never acknowledged gives up within [N] attempts. *)
Definition clock_expires (now : nat -> Z) (N : nat) : Prop :=
  forall j : nat, exists i : nat,
    (j < i <= j + N)%nat /\ 6000 <= wrap32 (now i - now j).

(** An object is a sequence of bytes. *)
Definition bytes (t : list Z) : Prop := Forall (fun v => 0 <= v < 256) t.

(** The chunks in the words of the spec, section 4.4, step 2, for a cursor
    and a number of remaining bytes: [chunk = min(page_size - 2,
    bytes_to_page_boundary, remaining)] with [bytes_to_page_boundary =
    page_size - (cursor mod page_size)], then the cursor advances by the
    chunk. *)
Fixpoint schedule (b : Board) (n : nat) (cursor remaining : Z) : list (Z * Z) :=
  match n with
  | O => []
  | S n' =>
      if 0 <? remaining then
        let bytes_to_page_boundary := pageSize b - cursor mod pageSize b in
        let chunk := Z.min (pageSize b - 2) (Z.min bytes_to_page_boundary remaining) in
        (cursor, chunk) :: schedule b n' ((cursor + chunk) mod 65536) (remaining - chunk)
      else []
  end.

(** The read transactions of [get], as the spec counts them: chunk [k] is at
    [address + k * read_capacity] and asks for
    [min(read_capacity, remaining)] bytes. *)
Definition readChunk (b : Board) (address size : Z) (k : nat) : Z * Z :=
  ((address + Z.of_nat k * bufferSize b) mod 65536,
   Z.min (bufferSize b) (size - Z.of_nat k * bufferSize b)).

(** [ceil(size / read_capacity)]. *)
Definition readCount (b : Board) (size : Z) : nat :=
  Z.to_nat ((size + bufferSize b - 1) / bufferSize b).

(** What one run of the loop of [ackPolling] does, entered with [code] in
    state [s] and left with [r] in state [s'] after [k] attempts: only the
    Wire buffers, the script positions and the journal change; every attempt
    but the last was refused and began while less than 6000 microseconds
    had passed since [startPolling]. *)
Record PollLoop (ack now : nat -> Z) (startPolling code : Z) (s s' : State)
    (r : Z) (k : nat) : Prop := {
  pl_this : this s' = this s;
  pl_cells : cells s' = cells s;
  pl_pointer : pointer s' = pointer s;
  pl_rx : rxBuffer s' = rxBuffer s;
  pl_polled : polled s' = polled s;
  pl_ended : ended s' = (ended s + k)%nat;
  pl_journal :
    journal s' = journal s ++ pollEvents ack (I2CAddress (this s)) (ended s) k;
  pl_entered : (0 < k)%nat -> code <> 0;
  pl_early : forall i, (S i < k)%nat -> wrap8 (ack (ended s + i)%nat) <> 0;
  pl_within : forall i, (i < k)%nat ->
    wrap32 (wrap32 (now (ticks s + i)%nat) - startPolling) < 6000;
  pl_result : r = match k with O => code | S k' => wrap8 (ack (ended s + k')%nat) end;
  pl_ticks : ticks s' = if r =? 0 then (ticks s + k)%nat else S (ticks s + k);
  pl_timeout : r <> 0 ->
    6000 <= wrap32 (wrap32 (now (ticks s + k)%nat) - startPolling)
}.

(** What one call of [ackPolling] does, with result [b] after [k]
    attempts. *)
Record Polled (ack now : nat -> Z) (s s' : State) (b : bool) (k : nat) : Prop := {
  po_this : this s' = this s;
  po_cells : cells s' = cells s;
  po_pointer : pointer s' = pointer s;
  po_rx : rxBuffer s' = rxBuffer s;
  po_polled : polled s' = polled s ++ [b];
  po_ended : ended s' = (ended s + k)%nat;
  po_journal :
    journal s' = journal s ++ pollEvents ack (I2CAddress (this s)) (ended s) k;
  po_early : forall i, (S i < k)%nat -> wrap8 (ack (ended s + i)%nat) <> 0;
  po_within : forall i, (i < k)%nat ->
    wrap32 (now (ticks s + S i)%nat - now (ticks s)) < 6000;
  po_result :
    b = match k with O => false | S k' => wrap8 (ack (ended s + k')%nat) =? 0 end;
  po_ticks : ticks s' = if b then (ticks s + S k)%nat else (ticks s + S (S k))%nat;
  po_timeout : b = false ->
    6000 <= wrap32 (now (ticks s + S k)%nat - now (ticks s))
}.

(** The state a block read leaves behind, the bytes it delivers and the
    events it adds: the set-up transmission carries the two address bytes;
    if it is acknowledged the part reads from that address, otherwise from
    wherever its address counter stands. *)
Definition readPointer (ack : nat -> Z) (s : State) (address : Z) : Z :=
  if wrap8 (ack (ended s)) =? 0 then hiByte address * 256 + loByte address
  else pointer s.

Definition received (ack : nat -> Z) (s : State) (address : Z) (n : nat) : list Z :=
  map wrap8 (fetch (cells s) (readPointer ack s address) n).

Definition readEvents (ack : nat -> Z) (s : State) (address nBytes : Z) : list Event :=
  [Tx (I2CAddress (this s)) [hiByte address; loByte address] (wrap8 (ack (ended s)));
   Rx (I2CAddress (this s)) nBytes].

Definition afterRead (ack : nat -> Z) (s : State) (address nBytes : Z) : State :=
  mkState (this s) (I2CAddress (this s)) [] [] (S (ended s)) (ticks s) (cells s)
    (wrap16 (readPointer ack s address + Z.of_nat (Z.to_nat nBytes)))
    (journal s ++ readEvents ack s address nBytes) (polled s).

(** The same for a block write with payload [data]. *)
Definition writeEvent (ack : nat -> Z) (s : State) (address : Z) (data : list Z) : Event :=
  Tx (I2CAddress (this s)) (hiByte address :: loByte address :: data)
     (wrap8 (ack (ended s))).

Definition afterWrite (ack : nat -> Z) (s : State) (address : Z) (data : list Z) : State :=
  let cp := if wrap8 (ack (ended s)) =? 0
            then pageWrite (cells s) (hiByte address * 256 + loByte address) data
            else (cells s, pointer s) in
  mkState (this s) (I2CAddress (this s)) [] (rxBuffer s) (S (ended s)) (ticks s)
    (fst cp) (snd cp) (journal s ++ [writeEvent ack s address data]) (polled s).

(** [readBuffer] replaced. *)
Definition withBuffer (buf : list Z) (s : State) : State :=
  mkState (mkE24LC256 (EEPROMStatus (this s)) (I2CAddress (this s)) buf)
    (txAddress s) (txBuffer s) (rxBuffer s) (ended s) (ticks s) (cells s) (pointer s)
    (journal s) (polled s).

(** [n] bytes of the object from position [ptr] on. *)
Definition chunkAt (t : list Z) (ptr : nat) (n : Z) : list Z :=
  take (Z.to_nat n) (drop ptr t).

(** The state of [put] after the read of an iteration. *)
Definition putRead (b : Board) (ack : nat -> Z) (s : State) (address remaining : Z) : State :=
  let nbytes := nbytesAt b address remaining in
  withBuffer (received ack s address (Z.to_nat nbytes)
                ++ drop (Z.to_nat nbytes) (readBuffer (this s)))
    (afterRead ack s address nbytes).

(** The runs of the loop of [put] from an iteration on, with the poll
    outcomes and the events they add.  An iteration ends the run when its
    poll fails; otherwise it reads, and either finds the chunk in place or
    writes it and polls again. *)
Inductive PutRun (b : Board) (ack now : nat -> Z) (fuel : nat) (t : list Z) :
    Z -> nat -> Z -> State -> list bool -> list Event -> State -> Prop :=
| PutDone address ptr remaining s :
    remaining <= 0 ->
    PutRun b ack now fuel t address ptr remaining s [] [] s
| PutTimeout address ptr remaining s s1 k :
    0 < remaining ->
    ackPolling b ack now fuel s = Ok false s1 ->
    Polled ack now s s1 false k ->
    PutRun b ack now fuel t address ptr remaining s
      [false] (pollEvents ack (I2CAddress (this s)) (ended s) k) s1
| PutSame address ptr remaining s s1 k ps evs s' :
    0 < remaining ->
    ackPolling b ack now fuel s = Ok true s1 ->
    Polled ack now s s1 true k ->
    received ack s1 address (Z.to_nat (nbytesAt b address remaining))
      = chunkAt t ptr (nbytesAt b address remaining) ->
    PutRun b ack now fuel t
      (wrap16 (address + nbytesAt b address remaining))
      (ptr + Z.to_nat (nbytesAt b address remaining))
      (wrap16 (remaining - nbytesAt b address remaining))
      (putRead b ack s1 address remaining) ps evs s' ->
    PutRun b ack now fuel t address ptr remaining s
      (true :: ps)
      (pollEvents ack (I2CAddress (this s)) (ended s) k
         ++ readEvents ack s1 address (nbytesAt b address remaining) ++ evs) s'
| PutDiffer address ptr remaining s s1 k s4 b4 k4 ps evs s' :
    0 < remaining ->
    ackPolling b ack now fuel s = Ok true s1 ->
    Polled ack now s s1 true k ->
    received ack s1 address (Z.to_nat (nbytesAt b address remaining))
      <> chunkAt t ptr (nbytesAt b address remaining) ->
    ackPolling b ack now fuel
      (afterWrite ack (putRead b ack s1 address remaining) address
         (map wrap8 (chunkAt t ptr (nbytesAt b address remaining)))) = Ok b4 s4 ->
    Polled ack now
      (afterWrite ack (putRead b ack s1 address remaining) address
         (map wrap8 (chunkAt t ptr (nbytesAt b address remaining)))) s4 b4 k4 ->
    PutRun b ack now fuel t
      (wrap16 (address + nbytesAt b address remaining))
      (ptr + Z.to_nat (nbytesAt b address remaining))
      (wrap16 (remaining - nbytesAt b address remaining))
      s4 ps evs s' ->
    PutRun b ack now fuel t address ptr remaining s
      (true :: b4 :: ps)
      (pollEvents ack (I2CAddress (this s)) (ended s) k
         ++ readEvents ack s1 address (nbytesAt b address remaining)
         ++ writeEvent ack (putRead b ack s1 address remaining) address
              (map wrap8 (chunkAt t ptr (nbytesAt b address remaining)))
         :: pollEvents ack (I2CAddress (this s1)) (S (S (ended s1))) k4 ++ evs) s'.

(** Address and payload length of a write transmission. *)
Definition writeSize (e : Event) : Z * Z :=
  (txAddressOf e, Z.of_nat (length (payloadOf e))).

(** The payload of a write stays within one page of [pageSize] bytes and
    within what fits the buffer after the two address bytes. *)
Definition fitsPage (b : Board) (e : Event) : Prop :=
  1 <= Z.of_nat (length (payloadOf e)) <= pageSize b - 2 /\
  txAddressOf e / pageSize b
    = (txAddressOf e + Z.of_nat (length (payloadOf e)) - 1) / pageSize b.

(** What a read of [n] bytes at [address] delivers from cells [c]. *)
Definition storedAt (c : Z -> Z) (address : Z) (n : nat) : list Z :=
  map wrap8 (fetch c address n).

(** The number of bytes a [requestFrom] asks for. *)
Definition quantityOf (e : Event) : Z :=
  match e with Rx _ quantity => quantity | Tx _ _ _ => 0 end.

(** The two events of read transaction [k] of [get], [e0] transmissions
    having ended before the first of them. *)
Definition chunkEvents (b : Board) (ack : nat -> Z) (a address size : Z) (e0 k : nat)
    : list Event :=
  [Tx a [hiByte (fst (readChunk b address size k)); loByte (fst (readChunk b address size k))]
      (wrap8 (ack (e0 + k)%nat));
   Rx a (snd (readChunk b address size k))].

(** What [read] returns after a successful poll in state [s]: the cell the
    part's address counter stands at after the set-up transmission. *)
Definition byteRead (ack : nat -> Z) (s : State) (address : Z) : Z :=
  wrap8 (cells s (wrap16 (readPointer ack s address))).

(** The bus address an event is directed to. *)
Definition targetOf (e : Event) : Z :=
  match e with Tx target _ _ => target | Rx target _ => target end.

(** The number of bytes asked for in a sequence of events. *)
Definition requested (evs : list Event) : Z :=
  fold_right Z.add 0 (map quantityOf evs).

(** From [s] to [s'] the journal has only gained events directed to the
    bus address of the driver, and that address is what it was. *)
Definition directed (s s' : State) : Prop :=
  I2CAddress (this s') = I2CAddress (this s) /\
  exists evs, journal s' = journal s ++ evs /\
              Forall (fun e => targetOf e = I2CAddress (this s)) evs.

(** The read transactions in a sequence of events, each a set-up
    transmission followed by a request, as the address set up and the
    number of bytes asked for. *)
Fixpoint readsOf (evs : list Event) : list (Z * Z) :=
  match evs with
  | [] => []
  | e :: rest =>
      match e, rest with
      | Tx _ [hi; lo] _, Rx _ quantity :: _ => (hi * 256 + lo, quantity) :: readsOf rest
      | _, _ => readsOf rest
      end
  end.

(** Whether the chunk of [snd chunk] cells at device address [fst chunk]
    reads differently from the bytes of the object [t] that belong there,
    for an object whose first byte belongs at device address [base]. *)
Definition differs (c : Z -> Z) (t : list Z) (base : Z) (chunk : Z * Z) : bool :=
  negb (bool_decide (storedAt c (fst chunk) (Z.to_nat (snd chunk))
                     = chunkAt t (Z.to_nat (fst chunk - base)) (snd chunk))).

(** ** A bench for concrete runs *)

(** A driver at bus address 0x50 before [init], an erased part (every cell
    reads 0xFF), nothing on the bus yet. *)
Definition bench : State :=
  mkState (E24LC256_new 80) 0 [] [] 0 0 (fun _ => 255) 0 [] [].

(** The bench with the eight bytes 1..8 stored from cell 30 on. *)
Definition benchStored : State :=
  mkState (E24LC256_new 80) 0 [] [] 0 0
    (fun x => if (30 <=? x) && (x <? 38) then x - 29 else 255) 0 [] [].

(** The bench with the six bytes 3..8 stored from cell 32 on, and cells 30
    and 31 erased. *)
Definition benchHalf : State :=
  mkState (E24LC256_new 80) 0 [] [] 0 0
    (fun x => if (32 <=? x) && (x <? 38) then x - 29 else 255) 0 [] [].

(** A part that acknowledges every transmission, one that acknowledges
    none (status 2: address not acknowledged), and one that is busy for the
    first transmission and for the one after the first write. *)
Definition acking : nat -> Z := fun _ => 0.
Definition refusing : nat -> Z := fun _ => 2.
Definition busy : nat -> Z := fun n =>
  match n with 0%nat | 4%nat => 2 | _ => 0 end.

(** A clock read once a millisecond. *)
Definition ticking : nat -> Z := fun n => 1000 * Z.of_nat n.

(** An object of 65535 bytes. *)
Definition large : list Z := repeat 0 (Z.to_nat 65535).

(** A part that stops answering after the fourth transmission. *)
Definition fading : nat -> Z := fun n => if (n <? 4)%nat then 0 else 2.

(** A clock that is read once every seven milliseconds. *)
Definition slow : nat -> Z := fun n => 7000 * Z.of_nat n.


(** ** Arithmetic facts *)

Lemma pageSize_cases b : pageSize b = 32 \/ pageSize b = 64.
Proof. destruct b; auto. Qed.

Lemma putSize_eq b : putSize b = pageSize b - 2.
Proof. destruct b; reflexivity. Qed.

Lemma remainingPageSizeAt_eq b address :
  0 <= address < 65536 ->
  remainingPageSizeAt b address = pageSize b - address mod pageSize b.
Proof.
  intros Ha. unfold remainingPageSizeAt, wrap16.
  destruct (pageSize_cases b) as [-> | ->].
  - rewrite (Z.mod_small (address / 32 + 1)) by
      (pose proof (Z.div_pos address 32); assert (address / 32 < 2048) by
         (apply Z.div_lt_upper_bound; lia); lia).
    rewrite Zminus_mod_idemp_l.
    pose proof (Z.div_mod address 32 ltac:(lia)).
    pose proof (Z.mod_pos_bound address 32 ltac:(lia)).
    rewrite Z.mod_small; lia.
  - rewrite (Z.mod_small (address / 64 + 1)) by
      (pose proof (Z.div_pos address 64); assert (address / 64 < 1024) by
         (apply Z.div_lt_upper_bound; lia); lia).
    rewrite Zminus_mod_idemp_l.
    pose proof (Z.div_mod address 64 ltac:(lia)).
    pose proof (Z.mod_pos_bound address 64 ltac:(lia)).
    rewrite Z.mod_small; lia.
Qed.


Lemma wrap8_small z : 0 <= z < 256 -> wrap8 z = z.
Proof. intros. unfold wrap8. apply Z.mod_small; lia. Qed.

Lemma wrap16_small z : 0 <= z < 65536 -> wrap16 z = z.
Proof. intros. unfold wrap16. apply Z.mod_small; lia. Qed.

Lemma wrap8_idem z : wrap8 (wrap8 z) = wrap8 z.
Proof. unfold wrap8. apply Z.mod_mod. lia. Qed.

Lemma wrap8_range z : 0 <= wrap8 z < 256.
Proof. unfold wrap8. apply Z.mod_pos_bound. lia. Qed.

Lemma wrap16_range z : 0 <= wrap16 z < 65536.
Proof. unfold wrap16. apply Z.mod_pos_bound. lia. Qed.

Lemma wrap32_sub x y : wrap32 (wrap32 x - wrap32 y) = wrap32 (x - y).
Proof. unfold wrap32. symmetry. apply Zminus_mod. Qed.

Lemma address_bytes a : 0 <= a < 65536 -> hiByte a * 256 + loByte a = a.
Proof.
  intros Ha. unfold hiByte, loByte, wrap8.
  rewrite Z.shiftr_div_pow2 by lia.
  change 255 with (Z.ones 8). rewrite Z.land_ones by lia.
  change (2 ^ 8) with 256.
  rewrite Z.mod_mod by lia.
  assert (0 <= a / 256 < 256)
    by (split; [apply Z.div_pos; lia | apply Z.div_lt_upper_bound; lia]).
  rewrite (Z.mod_small (a / 256)) by lia.
  pose proof (Z.div_mod a 256 ltac:(lia)). lia.
Qed.

Lemma bufferSize_cases b :
  (pageSize b = 32 /\ bufferSize b = 32) \/ (pageSize b = 64 /\ bufferSize b = 128).
Proof. destruct b; auto. Qed.

Lemma pollEvents_S ack a from k :
  pollEvents ack a from (S k) =
  Tx a [0] (wrap8 (ack from)) :: pollEvents ack a (S from) k.
Proof.
  unfold pollEvents. simpl. rewrite Nat.add_0_r. f_equal.
  rewrite <- seq_shift, map_map. apply map_ext. intros i.
  now rewrite Nat.add_succ_r.
Qed.

Lemma pollEvents_isPoll ack a from k :
  Forall (fun e => isPoll e = true) (pollEvents ack a from k).
Proof.
  unfold pollEvents. apply List.Forall_forall. intros e He.
  apply in_map_iff in He. destruct He as (i & <- & _). reflexivity.
Qed.

Section Facts.

Variable board : Board.
Variable ack : nat -> Z.
Variable now : nat -> Z.

(** *** Wire *)

Lemma Wire_write_fits data s :
  Z.of_nat (length (txBuffer s)) < bufferSize board ->
  Wire_write board data s =
  Ok tt (mkState (this s) (txAddress s) (txBuffer s ++ [data]) (rxBuffer s)
           (ended s) (ticks s) (cells s) (pointer s) (journal s) (polled s)).
Proof.
  intros H. unfold Wire_write.
  destruct (Z.ltb_spec (Z.of_nat (length (txBuffer s))) (bufferSize board)); [reflexivity | lia].
Qed.

(** *** The readiness poll *)

Lemma poll_attempt {A} (k : Z -> M A) s :
  (e <- getThis ;;
   Wire_beginTransmission (I2CAddress e) ;;
   Wire_write board (wrap8 0) ;;
   c <- Wire_endTransmission ack ;;
   k c) s =
  k (wrap8 (ack (ended s)))
     (mkState (this s) (I2CAddress (this s)) [] (rxBuffer s) (S (ended s)) (ticks s)
        (cells s) (pointer s)
        (journal s ++ [Tx (I2CAddress (this s)) [0] (wrap8 (ack (ended s)))])
        (polled s)).
Proof.
  unfold bind at 1. unfold getThis at 1.
  unfold bind at 1. unfold Wire_beginTransmission at 1.
  unfold bind at 1. rewrite Wire_write_fits
    by (cbn [txBuffer length]; destruct board; cbn; lia).
  unfold bind at 1. unfold Wire_endTransmission at 1.
  cbn [txBuffer this txAddress rxBuffer ended ticks cells pointer journal polled app].
  change (wrap8 0) with 0.
  destruct (wrap8 (ack (ended s)) =? 0); reflexivity.
Qed.

Lemma ackPolling_while_run fuel startPolling :
  forall code s r s',
    ackPolling_while board ack now fuel startPolling code s = Ok r s' ->
    exists k, PollLoop ack now startPolling code s s' r k.
Proof.
  assert (Hstop : forall code s, code = 0 ->
            PollLoop ack now startPolling code s s code O).
  { intros code s ->. constructor; try reflexivity; try (intros; lia).
    - unfold pollEvents; simpl; now rewrite app_nil_r.
    - simpl. now rewrite Nat.add_0_r. }
  induction fuel as [|fuel IH]; intros code s r s' H.
  - simpl in H. destruct (code =? 0) eqn:Hc; [|discriminate].
    inversion H; subst. apply Z.eqb_eq in Hc. exists O. now apply Hstop.
  - simpl in H. destruct (code =? 0) eqn:Hc.
    + inversion H; subst. apply Z.eqb_eq in Hc. exists O. now apply Hstop.
    + apply Z.eqb_neq in Hc.
      unfold bind at 1 in H. unfold micros at 1 in H.
      destruct (wrap32 (wrap32 (now (ticks s)) - startPolling) <? 6000) eqn:Ht.
      * apply Z.ltb_lt in Ht.
        rewrite poll_attempt in H.
        apply IH in H. destruct H as [k H]. destruct H.
        cbn [this cells pointer rxBuffer polled ended journal ticks] in *.
        rewrite wrap8_idem in *.
        exists (S k). constructor; auto.
        -- rewrite pl_ended0. lia.
        -- rewrite pl_journal0, pollEvents_S, <- app_assoc. reflexivity.
        -- intros i Hi. destruct i as [|i].
           ++ rewrite Nat.add_0_r. apply pl_entered0. lia.
           ++ replace (ended s + S i)%nat with (S (ended s) + i)%nat by lia.
              apply pl_early0. lia.
        -- intros i Hi. destruct i as [|i].
           ++ now rewrite Nat.add_0_r.
           ++ replace (ticks s + S i)%nat with (S (ticks s) + i)%nat by lia.
              apply pl_within0. lia.
        -- rewrite pl_result0. destruct k as [|k].
           ++ now rewrite Nat.add_0_r.
           ++ f_equal. f_equal. lia.
        -- rewrite pl_ticks0. destruct (r =? 0); lia.
        -- intros Hr. replace (ticks s + S k)%nat with (S (ticks s) + k)%nat by lia.
           now apply pl_timeout0.
      * apply Z.ltb_ge in Ht.
        unfold ret in H. inversion H; subst. exists O.
        cbn [this cells pointer rxBuffer polled ended journal ticks].
        constructor; cbn [this cells pointer rxBuffer polled ended journal ticks];
          try reflexivity; try (intros; lia).
        -- unfold pollEvents; simpl; now rewrite app_nil_r.
        -- apply Z.eqb_neq in Hc. rewrite Hc. lia.
        -- intros _. now rewrite Nat.add_0_r.
Qed.

Lemma ackPolling_run fuel s b s' :
  ackPolling board ack now fuel s = Ok b s' -> exists k, Polled ack now s s' b k.
Proof.
  unfold ackPolling. unfold bind at 1. unfold micros at 1.
  unfold bind at 1.
  destruct (ackPolling_while _ _ _ _ _ _ _) as [r s1|e] eqn:Hw; [|discriminate].
  apply ackPolling_while_run in Hw. destruct Hw as [k Hw]. destruct Hw.
  cbn [this cells pointer rxBuffer polled ended journal ticks] in *.
  unfold bind, note, ret. intros H. inversion H; subst b s'; clear H.
  exists k. constructor; cbn [this cells pointer rxBuffer polled ended journal ticks]; auto.
  - now rewrite pl_polled0.
  - intros i Hi. rewrite <- wrap32_sub.
    replace (ticks s + S i)%nat with (S (ticks s) + i)%nat by lia.
    now apply pl_within0.
  - rewrite pl_result0. destruct k; reflexivity.
  - rewrite pl_ticks0. destruct (r =? 0); lia.
  - intros Hb. apply Z.eqb_neq in Hb. apply pl_timeout0 in Hb.
    replace (ticks s + S k)%nat with (S (ticks s) + k)%nat by lia.
    now rewrite wrap32_sub in Hb.
Qed.

Lemma ackPolling_while_returns fuel j0 :
  forall code s,
    (exists i, (ticks s <= i < ticks s + fuel)%nat /\ 6000 <= wrap32 (now i - now j0)) ->
    exists r s', ackPolling_while board ack now fuel (wrap32 (now j0)) code s = Ok r s'.
Proof.
  induction fuel as [|fuel IH]; intros code s (i & Hi & Hlate); [lia|].
  simpl. destruct (code =? 0); [unfold ret; eauto|].
  unfold bind at 1. unfold micros at 1.
  rewrite wrap32_sub.
  destruct (Z.ltb_spec (wrap32 (now (ticks s) - now j0)) 6000) as [Hlt|Hge].
  - rewrite poll_attempt. apply IH.
    cbn [ticks]. exists i. split; [|assumption].
    assert (i <> ticks s) by (intros ->; lia). lia.
  - unfold ret; eauto.
Qed.

Lemma ackPolling_returns N fuel s :
  clock_expires now N -> (N <= fuel)%nat ->
  exists b s' k, ackPolling board ack now fuel s = Ok b s' /\ Polled ack now s s' b k.
Proof.
  intros Hclock Hfuel.
  destruct (Hclock (ticks s)) as (i & Hi & Hlate).
  destruct (ackPolling_while_returns fuel (ticks s) 1
              (mkState (this s) (txAddress s) (txBuffer s) (rxBuffer s) (ended s)
                 (S (ticks s)) (cells s) (pointer s) (journal s) (polled s)))
    as (r & s1 & Hw).
  { exists i. cbn [ticks]. split; [lia | assumption]. }
  assert (Hrun : ackPolling board ack now fuel s =
                 Ok (r =? 0) (mkState (this s1) (txAddress s1) (txBuffer s1) (rxBuffer s1)
                                (ended s1) (ticks s1) (cells s1) (pointer s1) (journal s1)
                                (polled s1 ++ [r =? 0]))).
  { unfold ackPolling. unfold bind at 1. unfold micros at 1.
    unfold bind at 1. rewrite Hw. reflexivity. }
  destruct (ackPolling_run _ _ _ _ Hrun) as [k Hk]. eauto.
Qed.

Lemma ackPolling_error fuel s e :
  ackPolling board ack now fuel s = Bad e -> e = OutOfFuel.
Proof.
  assert (Hw : forall fuel start code s e,
             ackPolling_while board ack now fuel start code s = Bad e -> e = OutOfFuel).
  { clear. induction fuel as [|fuel IH]; intros start code s e; simpl.
    - destruct (code =? 0); unfold ret, fail; congruence.
    - destruct (code =? 0); [unfold ret; congruence|].
      unfold bind at 1. unfold micros at 1.
      destruct (_ <? 6000).
      + rewrite poll_attempt. apply IH.
      + unfold ret; congruence. }
  unfold ackPolling. unfold bind at 1. unfold micros at 1. unfold bind at 1.
  destruct (ackPolling_while _ _ _ _ _ _ _) eqn:H.
  - unfold bind, note, ret. discriminate.
  - intros Heq. inversion Heq; subst. eapply Hw; eauto.
Qed.

(** *** Block transfers *)

Lemma fetch_length c p n : length (fetch c p n) = n.
Proof. unfold fetch. now rewrite length_map, length_seq. Qed.

Lemma readBytes_for_run n :
  forall buf ptr e ta tb rx en ti c p j po,
    (ptr + n <= length buf)%nat -> (n <= length rx)%nat ->
    readBytes_for n buf ptr (mkState e ta tb rx en ti c p j po) =
    Ok (take ptr buf ++ map wrap8 (take n rx) ++ drop (ptr + n) buf)
       (mkState e ta tb (drop n rx) en ti c p j po).
Proof.
  induction n as [|n IH]; intros buf ptr e ta tb rx en ti c p j po Hb Hr.
  - simpl. unfold ret. rewrite Nat.add_0_r, take_drop. reflexivity.
  - destruct rx as [|v rx]; [simpl in Hr; lia|]. simpl in Hr.
    cbn [readBytes_for]. unfold bind at 1. unfold Wire_read at 1. cbn [rxBuffer].
    cbn [this txAddress txBuffer ended ticks cells pointer journal polled].
    unfold bind at 1. unfold store at 1.
    destruct (decide (ptr < length buf)%nat) as [Hlt|]; [|lia].
    rewrite IH by (rewrite ?length_insert; lia).
    cbn [take drop map]. f_equal.
    rewrite take_insert_lt by lia.
    rewrite drop_insert_lt by lia.
    rewrite (insert_take_drop (take (S ptr) buf)) by (rewrite length_take; lia).
    rewrite take_take, Nat.min_l by lia.
    rewrite (drop_ge (take (S ptr) buf)) by (rewrite length_take; lia).
    rewrite <- app_assoc. simpl.
    replace (S (ptr + n)) with (ptr + S n)%nat by lia. reflexivity.
Qed.

Lemma readBytes_run address buf ptr nBytes s :
  0 <= nBytes <= bufferSize board ->
  (ptr + Z.to_nat nBytes <= length buf)%nat ->
  readBytes board ack address buf ptr nBytes s =
  Ok (take ptr buf ++ received ack s address (Z.to_nat nBytes)
        ++ drop (ptr + Z.to_nat nBytes) buf)
     (afterRead ack s address nBytes).
Proof.
  intros Hn Hb. unfold readBytes.
  unfold bind at 1. unfold getThis at 1.
  unfold bind at 1. unfold Wire_beginTransmission at 1.
  unfold bind at 1. rewrite Wire_write_fits
    by (cbn [txBuffer length]; destruct board; cbn; lia).
  unfold bind at 1. rewrite Wire_write_fits
    by (cbn [txBuffer length app]; destruct board; cbn; lia).
  unfold bind at 1. unfold Wire_endTransmission at 1.
  cbn [txBuffer this txAddress rxBuffer ended ticks cells pointer journal polled app].
  unfold bind at 1. unfold Wire_requestFrom at 1.
  cbn [txBuffer this txAddress rxBuffer ended ticks cells pointer journal polled].
  rewrite Z.min_l by lia.
  rewrite readBytes_for_run by (rewrite ?fetch_length; lia).
  rewrite (take_ge (fetch _ _ _)), (drop_ge (fetch _ _ _))
    by (rewrite fetch_length; lia).
  unfold afterRead, received, readPointer, readEvents, hiByte, loByte.
  rewrite <- app_assoc. cbn [app].
  destruct (wrap8 (ack (ended s)) =? 0); reflexivity.
Qed.

Lemma readBytes_overrun address buf ptr nBytes s :
  0 < nBytes <= bufferSize board ->
  (length buf <= ptr)%nat ->
  readBytes board ack address buf ptr nBytes s = Bad OutOfBounds.
Proof.
  intros Hn Hb. unfold readBytes.
  unfold bind at 1. unfold getThis at 1.
  unfold bind at 1. unfold Wire_beginTransmission at 1.
  unfold bind at 1. rewrite Wire_write_fits
    by (cbn [txBuffer length]; destruct board; cbn; lia).
  unfold bind at 1. rewrite Wire_write_fits
    by (cbn [txBuffer length app]; destruct board; cbn; lia).
  unfold bind at 1. unfold Wire_endTransmission at 1.
  unfold bind at 1. unfold Wire_requestFrom at 1.
  destruct (Z.to_nat nBytes) as [|n] eqn:En; [lia|].
  cbn [readBytes_for]. unfold bind at 1.
  unfold Wire_read at 1.
  destruct (rxBuffer _); unfold bind at 1; unfold store;
    (destruct (decide (ptr < length buf)%nat); [lia | reflexivity]).
Qed.

Lemma writeBytes_for_run n :
  forall obj ptr e ta tb rx en ti c p j po,
    (ptr + n <= length obj)%nat ->
    Z.of_nat (length tb) + Z.of_nat n <= bufferSize board ->
    writeBytes_for board n obj ptr (mkState e ta tb rx en ti c p j po) =
    Ok tt (mkState e ta (tb ++ map wrap8 (take n (drop ptr obj))) rx en ti c p j po).
Proof.
  induction n as [|n IH]; intros obj ptr e ta tb rx en ti c p j po Hb Hc.
  - simpl. unfold ret. now rewrite app_nil_r.
  - cbn [writeBytes_for]. unfold bind at 1. unfold load at 1.
    destruct (lookup_lt_is_Some_2 obj ptr ltac:(lia)) as [v Hv]. rewrite Hv.
    unfold bind at 1. rewrite Wire_write_fits by (cbn [txBuffer]; lia).
    cbn [this txAddress txBuffer rxBuffer ended ticks cells pointer journal polled].
    rewrite IH by (rewrite ?length_app; simpl; lia).
    rewrite (drop_S _ _ _ Hv). cbn [take map]. now rewrite <- app_assoc.
Qed.

Lemma writeBytes_run address obj ptr nBytes s :
  0 <= nBytes -> nBytes + 2 <= bufferSize board ->
  (ptr + Z.to_nat nBytes <= length obj)%nat ->
  writeBytes board ack address obj ptr nBytes s =
  Ok tt (afterWrite ack s address (map wrap8 (chunkAt obj ptr nBytes))).
Proof.
  intros Hn Hc Hb. unfold writeBytes.
  unfold bind at 1. unfold getThis at 1.
  unfold bind at 1. unfold Wire_beginTransmission at 1.
  unfold bind at 1. rewrite Wire_write_fits
    by (cbn [txBuffer length]; destruct board; cbn; lia).
  unfold bind at 1. rewrite Wire_write_fits
    by (cbn [txBuffer length app]; destruct board; cbn; lia).
  cbn [txBuffer this txAddress rxBuffer ended ticks cells pointer journal polled app].
  unfold bind at 1. rewrite writeBytes_for_run by (simpl; lia).
  unfold bind at 1. unfold Wire_endTransmission at 1.
  cbn [txBuffer this txAddress rxBuffer ended ticks cells pointer journal polled app].
  unfold ret, afterWrite, writeEvent, chunkAt, hiByte, loByte.
  destruct (wrap8 (ack (ended s)) =? 0); reflexivity.
Qed.

Lemma compareBytes_for_run n :
  forall a pa b pb s,
    (pa + n <= length a)%nat -> (pb + n <= length b)%nat ->
    exists same,
      compareBytes_for n a pa b pb s = Ok same s /\
      (same = true <-> take n (drop pa a) = take n (drop pb b)).
Proof.
  induction n as [|n IH]; intros a pa b pb s Ha Hb.
  - exists true. simpl. unfold ret. tauto.
  - cbn [compareBytes_for].
    destruct (lookup_lt_is_Some_2 a pa ltac:(lia)) as [x Hx].
    destruct (lookup_lt_is_Some_2 b pb ltac:(lia)) as [y Hy].
    unfold bind at 1. unfold load at 1. rewrite Hx.
    unfold bind at 1. unfold load at 1. rewrite Hy.
    rewrite (drop_S _ _ _ Hx), (drop_S _ _ _ Hy). cbn [take].
    destruct (Z.eqb_spec x y) as [->|Hne]; cbn [negb].
    + destruct (IH a (S pa) b (S pb) s ltac:(lia) ltac:(lia)) as (same & Hs & Hiff).
      exists same. split; [assumption|].
      rewrite Hiff. split; [congruence | now inversion 1].
    + exists false. unfold ret. split; [reflexivity|].
      split; [discriminate | inversion 1; contradiction].
Qed.

(** *** The chunk of an iteration of [put] *)

Lemma nbytesAt_min address remaining :
  0 <= address < 65536 -> 0 < remaining ->
  nbytesAt board address remaining =
  Z.min (pageSize board - 2)
    (Z.min (pageSize board - address mod pageSize board) remaining).
Proof.
  intros Ha Hr. unfold nbytesAt.
  rewrite remainingPageSizeAt_eq, putSize_eq by assumption.
  pose proof (Z.mod_pos_bound address (pageSize board)
                ltac:(destruct board; reflexivity)).
  cbv zeta.
  destruct (Z.ltb_spec (pageSize board - address mod pageSize board) (pageSize board - 2));
    match goal with
    | |- context [?a <? ?b] => destruct (Z.ltb_spec a b)
    end; lia.
Qed.

Lemma nbytesAt_bounds address remaining :
  0 <= address < 65536 -> 0 < remaining ->
  1 <= nbytesAt board address remaining <= pageSize board - 2 /\
  nbytesAt board address remaining <= remaining /\
  nbytesAt board address remaining <= pageSize board - address mod pageSize board.
Proof.
  intros Ha Hr. rewrite nbytesAt_min by assumption.
  destruct (pageSize_cases board) as [-> | ->].
  - pose proof (Z.mod_pos_bound address 32 ltac:(lia)). lia.
  - pose proof (Z.mod_pos_bound address 64 ltac:(lia)). lia.
Qed.

Lemma received_length s address n : length (received ack s address n) = n.
Proof. unfold received. now rewrite length_map, fetch_length. Qed.

(** *** The loop of [put] *)

Lemma put_while_run N fuel t :
  clock_expires now N -> (N <= fuel)%nat ->
  forall n address ptr remaining s,
    0 <= address < 65536 -> 0 <= remaining < 65536 ->
    (Z.to_nat remaining <= n)%nat ->
    (ptr + Z.to_nat remaining <= length t)%nat ->
    length (readBuffer (this s)) = 64%nat ->
    exists ps evs s',
      put_while board ack now fuel n address t ptr remaining s = Ok t s' /\
      PutRun board ack now fuel t address ptr remaining s ps evs s' /\
      length (readBuffer (this s')) = 64%nat.
Proof.
  intros Hclock Hfuel.
  induction n as [|n IH]; intros address ptr remaining s Ha Hr Hn Hp Hbuf.
  - assert (remaining = 0) as -> by lia.
    exists [], [], s. simpl. unfold ret. repeat split; auto. constructor; lia.
  - destruct (Z.eq_dec remaining 0) as [->|Hpos].
    { exists [], [], s. simpl. unfold ret. repeat split; auto. constructor; lia. }
    assert (Hrem : 0 < remaining) by lia.
    destruct (nbytesAt_bounds address remaining Ha Hrem) as (Hnb1 & Hnb2 & Hnb3).
    destruct (ackPolling_returns N fuel s Hclock Hfuel) as (ready & s1 & k & Hpoll & HP).
    cbn [put_while].
    destruct (Z.gtb_spec remaining 0) as [_|]; [|lia].
    unfold bind at 1. rewrite Hpoll.
    destruct ready.
    + cbn [negb].
      set (nb := nbytesAt board address remaining) in *.
      assert (Hw8 : wrap8 nb = nb)
        by (apply wrap8_small; destruct (pageSize_cases board) as [E|E]; rewrite E in *; lia).
      rewrite Hw8.
      assert (Hnbuf : nb + 2 <= bufferSize board)
        by (destruct (bufferSize_cases board) as [[E1 E2]|[E1 E2]]; rewrite E1 in *; lia).
      assert (Hb1 : length (readBuffer (this s1)) = 64%nat)
        by (now rewrite (po_this _ _ _ _ _ _ HP)).
      assert (Hnb64 : (Z.to_nat nb <= 64)%nat)
        by (destruct (pageSize_cases board) as [E|E]; rewrite E in *; lia).
      unfold bind at 1. unfold getThis at 1.
      unfold bind at 1. rewrite readBytes_run by (simpl; lia).
      unfold bind at 1. unfold setThis at 1.
      rewrite take_0. cbn [app Nat.add].
      change (mkState _ _ _ _ _ _ _ _ _ _) with (putRead board ack s1 address remaining).
      assert (Hlen2 : length (readBuffer (this (putRead board ack s1 address remaining)))
                      = 64%nat).
      { unfold putRead. cbn [withBuffer this readBuffer]. fold nb.
        rewrite length_app, received_length, length_drop. lia. }
      assert (Hrange' : 0 <= wrap16 (address + nb) < 65536) by apply wrap16_range.
      assert (Hrem' : wrap16 (remaining - nb) = remaining - nb)
        by (apply wrap16_small; lia).
      unfold bind at 1. unfold compareBytes. rewrite Hw8.
      destruct (compareBytes_for_run (Z.to_nat nb)
                  (received ack s1 address (Z.to_nat nb)
                     ++ drop (Z.to_nat nb) (readBuffer (this s1))) 0 t ptr
                  (putRead board ack s1 address remaining))
        as (same & Hcmp & Hsame).
      { rewrite length_app, received_length, length_drop. lia. }
      { lia. }
      rewrite Hcmp.
      rewrite drop_0, take_app_length' in Hsame by (now rewrite received_length).
      fold (chunkAt t ptr nb) in Hsame.
      destruct same; cbn [eqb].
      * unfold bind at 1. unfold ret at 1.
        destruct (IH (wrap16 (address + nb)) (ptr + Z.to_nat nb)%nat
                    (wrap16 (remaining - nb)) (putRead board ack s1 address remaining))
          as (ps & evs & s' & Hrun & HR & Hlen); try (rewrite ?Hrem'; lia); auto.
        exists (true :: ps),
          (pollEvents ack (I2CAddress (this s)) (ended s) k
             ++ readEvents ack s1 address nb ++ evs), s'.
        split; [exact Hrun|]. split; [|exact Hlen].
        eapply PutSame; eauto. now apply Hsame.
      * unfold bind at 1. unfold bind at 1.
        rewrite writeBytes_run by lia.
        unfold bind at 1.
        destruct (ackPolling_returns N fuel
                    (afterWrite ack (putRead board ack s1 address remaining) address
                       (map wrap8 (chunkAt t ptr nb))) Hclock Hfuel)
          as (b4 & s4 & k4 & Hpoll4 & HP4).
        rewrite Hpoll4. unfold ret at 1.
        destruct (IH (wrap16 (address + nb)) (ptr + Z.to_nat nb)%nat
                    (wrap16 (remaining - nb)) s4)
          as (ps & evs & s' & Hrun & HR & Hlen); try (rewrite ?Hrem'; lia); auto.
        { now rewrite (po_this _ _ _ _ _ _ HP4). }
        exists (true :: b4 :: ps),
          (pollEvents ack (I2CAddress (this s)) (ended s) k
             ++ readEvents ack s1 address nb
             ++ writeEvent ack (putRead board ack s1 address remaining) address
                  (map wrap8 (chunkAt t ptr nb))
             :: pollEvents ack (I2CAddress (this s1)) (S (S (ended s1))) k4 ++ evs), s'.
        split; [exact Hrun|]. split; [|exact Hlen].
        eapply PutDiffer; eauto.
        intros Heq. apply Hsame in Heq. discriminate.
    + cbn [negb]. unfold ret.
      exists [false], (pollEvents ack (I2CAddress (this s)) (ended s) k), s1.
      split; [reflexivity|]. split.
      * eapply PutTimeout; eauto.
      * now rewrite (po_this _ _ _ _ _ _ HP).
Qed.

(** *** What a run of the loop adds to the journal and the poll record *)

Lemma PutRun_extends fuel t address ptr remaining s ps evs s' :
  PutRun board ack now fuel t address ptr remaining s ps evs s' ->
  polled s' = polled s ++ ps /\ journal s' = journal s ++ evs /\
  I2CAddress (this s') = I2CAddress (this s).
Proof.
  induction 1 as [address ptr remaining s Hr
                 |address ptr remaining s s1 k Hr Hpoll HP
                 |address ptr remaining s s1 k ps evs s' Hr Hpoll HP Hsame HR IH
                 |address ptr remaining s s1 k s4 b4 k4 ps evs s' Hr Hpoll HP Hdiff
                    Hpoll4 HP4 HR IH].
  - now rewrite !app_nil_r.
  - destruct HP. rewrite po_this0. auto.
  - destruct IH as (IH1 & IH2 & IH3). destruct HP.
    rewrite IH1, IH2, IH3.
    cbn [putRead withBuffer afterRead polled journal this I2CAddress].
    rewrite po_polled0, po_journal0, po_this0, <- !app_assoc. auto.
  - destruct IH as (IH1 & IH2 & IH3). destruct HP, HP4.
    rewrite IH1, IH2, IH3, po_polled1, po_journal1, po_this1.
    cbn [putRead withBuffer afterRead afterWrite polled journal this I2CAddress ended].
    rewrite po_polled0, po_journal0, po_this0, <- !app_assoc. cbn [app]. auto.
Qed.

Lemma PutRun_new fuel t address ptr remaining s ps evs s' :
  PutRun board ack now fuel t address ptr remaining s ps evs s' ->
  newPolls s s' = ps /\ newEvents s s' = evs.
Proof.
  intros HR. destruct (PutRun_extends _ _ _ _ _ _ _ _ _ HR) as (Hp & Hj & _).
  unfold newPolls, newEvents. rewrite Hp, Hj, !drop_app_length. auto.
Qed.

(** *** The write transmissions of [put] *)

Lemma filter_pollEvents a from k :
  List.filter isWrite (pollEvents ack a from k) = [].
Proof.
  unfold pollEvents. induction (seq 0 k) as [|i l IH]; [reflexivity|]. simpl. exact IH.
Qed.

Lemma schedule_step n address remaining :
  0 <= address < 65536 -> 0 < remaining ->
  schedule board (S n) address remaining =
  (address, nbytesAt board address remaining)
    :: schedule board n (wrap16 (address + nbytesAt board address remaining))
         (remaining - nbytesAt board address remaining).
Proof.
  intros Ha Hr. cbn [schedule].
  destruct (Z.ltb_spec 0 remaining); [|lia].
  now rewrite <- nbytesAt_min by assumption.
Qed.

Lemma chunkAt_length t ptr n :
  0 <= n -> (ptr + Z.to_nat n <= length t)%nat ->
  length (chunkAt t ptr n) = Z.to_nat n.
Proof.
  intros Hn Hb. unfold chunkAt. rewrite length_take, length_drop. lia.
Qed.

Lemma PutRun_writes fuel t address ptr remaining s ps evs s' :
  PutRun board ack now fuel t address ptr remaining s ps evs s' ->
  0 <= address < 65536 -> 0 <= remaining < 65536 ->
  (ptr + Z.to_nat remaining <= length t)%nat ->
  forall n, (Z.to_nat remaining <= n)%nat ->
  sublist (map writeSize (List.filter isWrite evs)) (schedule board n address remaining).
Proof.
  induction 1 as [address ptr remaining s Hr
                 |address ptr remaining s s1 k Hr Hpoll HP
                 |address ptr remaining s s1 k ps evs s' Hr Hpoll HP Hsame HR IH
                 |address ptr remaining s s1 k s4 b4 k4 ps evs s' Hr Hpoll HP Hdiff
                    Hpoll4 HP4 HR IH];
    intros Ha Hrem Hp n Hn.
  - apply sublist_nil_l.
  - rewrite filter_pollEvents. apply sublist_nil_l.
  - destruct (nbytesAt_bounds address remaining Ha Hr) as (Hnb1 & Hnb2 & Hnb3).
    destruct n as [|n]; [lia|].
    rewrite schedule_step by assumption.
    rewrite !List.filter_app, filter_pollEvents. cbn [app readEvents List.filter isWrite].
    apply sublist_cons.
    assert (Hw : wrap16 (remaining - nbytesAt board address remaining)
                 = remaining - nbytesAt board address remaining)
      by (apply wrap16_small; lia).
    rewrite <- Hw.
    apply IH; [apply wrap16_range | rewrite Hw; lia ..].
  - destruct (nbytesAt_bounds address remaining Ha Hr) as (Hnb1 & Hnb2 & Hnb3).
    destruct n as [|n]; [lia|].
    rewrite schedule_step by assumption.
    rewrite !List.filter_app, filter_pollEvents.
    cbn [app readEvents List.filter isWrite].
    assert (Hlen : length (map wrap8 (chunkAt t ptr (nbytesAt board address remaining)))
                   = Z.to_nat (nbytesAt board address remaining))
      by (rewrite length_map, chunkAt_length; lia).
    destruct (map wrap8 (chunkAt t ptr (nbytesAt board address remaining)))
      as [|d data] eqn:Ed; [simpl in Hlen; lia|].
    cbn [writeEvent isWrite]. rewrite List.filter_app, filter_pollEvents. cbn [app map].
    unfold writeSize at 1. cbn [txAddressOf payloadOf].
    unfold writeEvent. cbn [txAddressOf payloadOf].
    rewrite address_bytes by assumption. rewrite Hlen, Z2Nat.id by lia.
    apply sublist_skip.
    assert (Hw : wrap16 (remaining - nbytesAt board address remaining)
                 = remaining - nbytesAt board address remaining)
      by (apply wrap16_small; lia).
    rewrite <- Hw.
    apply IH; [apply wrap16_range | rewrite Hw; lia ..].
Qed.

Lemma same_page P c ch :
  0 < P -> 0 <= c -> 1 <= ch <= P - c mod P ->
  c / P = (c + ch - 1) / P.
Proof.
  intros HP Hc Hch.
  pose proof (Z.div_mod c P ltac:(lia)).
  pose proof (Z.mod_pos_bound c P ltac:(lia)).
  apply (Z.div_unique (c + ch - 1) P (c / P) (c mod P + ch - 1)); lia.
Qed.

Lemma schedule_fits n :
  forall address remaining,
    0 <= address < 65536 ->
    Forall (fun e : Z * Z =>
              1 <= snd e <= pageSize board - 2 /\
              fst e / pageSize board = (fst e + snd e - 1) / pageSize board)
      (schedule board n address remaining).
Proof.
  induction n as [|n IH]; intros address remaining Ha; [constructor|].
  destruct (Z_lt_le_dec 0 remaining) as [Hr|Hr].
  - rewrite schedule_step by assumption.
    destruct (nbytesAt_bounds address remaining Ha Hr) as (Hnb1 & Hnb2 & Hnb3).
    constructor.
    + cbn [fst snd]. split; [lia|].
      apply same_page; [destruct board; reflexivity | lia | lia].
    + apply IH, wrap16_range.
  - cbn [schedule]. destruct (Z.ltb_spec 0 remaining); [lia | constructor].
Qed.

Lemma sizeof_le t : 0 <= sizeof t < 65536 /\ (Z.to_nat (sizeof t) <= length t)%nat.
Proof.
  unfold sizeof. split; [apply wrap16_range|].
  unfold wrap16. pose proof (Z.mod_le (Z.of_nat (length t)) 65536 ltac:(lia) ltac:(lia)).
  lia.
Qed.

Lemma put_run N fuel address t s :
  clock_expires now N -> (N <= fuel)%nat -> (Z.to_nat (sizeof t) <= fuel)%nat ->
  0 <= address < 65536 -> length (readBuffer (this s)) = 64%nat ->
  exists ps evs s',
    put board ack now fuel address t s = Ok t s' /\
    PutRun board ack now fuel t address 0 (sizeof t) s ps evs s' /\
    length (readBuffer (this s')) = 64%nat.
Proof.
  intros Hclock Hfuel Hsize Ha Hbuf. unfold put.
  destruct (sizeof_le t) as [Hs Hl].
  apply (put_while_run N); auto.
Qed.

(** Whatever the clock does and whatever fuel is given: a run of the loop
    that ends is one of [PutRun] and returns the object, and a run that does
    not end has run out of fuel; no access goes out of bounds. *)
Lemma put_while_sound fuel t :
  forall n address ptr remaining s,
    0 <= address < 65536 -> 0 <= remaining < 65536 ->
    (ptr + Z.to_nat remaining <= length t)%nat ->
    length (readBuffer (this s)) = 64%nat ->
    match put_while board ack now fuel n address t ptr remaining s with
    | Ok r s' =>
        r = t /\ length (readBuffer (this s')) = 64%nat /\
        exists ps evs, PutRun board ack now fuel t address ptr remaining s ps evs s'
    | Bad e => e = OutOfFuel
    end.
Proof.
  assert (Hdone : forall n address ptr s,
             length (readBuffer (this s)) = 64%nat ->
             match put_while board ack now fuel n address t ptr 0 s with
             | Ok r s' =>
                 r = t /\ length (readBuffer (this s')) = 64%nat /\
                 exists ps evs, PutRun board ack now fuel t address ptr 0 s ps evs s'
             | Bad e => e = OutOfFuel
             end).
  { intros n address ptr s Hbuf.
    destruct n; cbn [put_while]; change (0 >? 0) with false; cbv iota; unfold ret;
      (split; [reflexivity|]; split; [assumption|]; exists [], []; constructor; lia). }
  induction n as [|n IH]; intros address ptr remaining s Ha Hr Hp Hbuf.
  - destruct (Z.eq_dec remaining 0) as [->|Hpos]; [now apply Hdone|].
    cbn [put_while]. destruct (Z.gtb_spec remaining 0); [|lia]. reflexivity.
  - destruct (Z.eq_dec remaining 0) as [->|Hpos]; [now apply Hdone|].
    assert (Hrem : 0 < remaining) by lia.
    destruct (nbytesAt_bounds address remaining Ha Hrem) as (Hnb1 & Hnb2 & Hnb3).
    cbn [put_while].
    destruct (Z.gtb_spec remaining 0) as [_|]; [|lia].
    unfold bind at 1.
    destruct (ackPolling board ack now fuel s) as [ready s1|e] eqn:Hpoll;
      [|now apply ackPolling_error in Hpoll].
    destruct (ackPolling_run _ _ _ _ Hpoll) as [k HP].
    destruct ready; cbn [negb].
    + set (nb := nbytesAt board address remaining) in *.
      assert (Hw8 : wrap8 nb = nb)
        by (apply wrap8_small; destruct (pageSize_cases board) as [E|E]; rewrite E in *; lia).
      rewrite Hw8.
      assert (Hnbuf : nb + 2 <= bufferSize board)
        by (destruct (bufferSize_cases board) as [[E1 E2]|[E1 E2]]; rewrite E1 in *; lia).
      assert (Hb1 : length (readBuffer (this s1)) = 64%nat)
        by (now rewrite (po_this _ _ _ _ _ _ HP)).
      assert (Hnb64 : (Z.to_nat nb <= 64)%nat)
        by (destruct (pageSize_cases board) as [E|E]; rewrite E in *; lia).
      unfold bind at 1. unfold getThis at 1.
      unfold bind at 1. rewrite readBytes_run by (simpl; lia).
      unfold bind at 1. unfold setThis at 1.
      rewrite take_0. cbn [app Nat.add].
      change (mkState _ _ _ _ _ _ _ _ _ _) with (putRead board ack s1 address remaining).
      assert (Hlen2 : length (readBuffer (this (putRead board ack s1 address remaining)))
                      = 64%nat).
      { unfold putRead. cbn [withBuffer this readBuffer]. fold nb.
        rewrite length_app, received_length, length_drop. lia. }
      assert (Hrange' : 0 <= wrap16 (address + nb) < 65536) by apply wrap16_range.
      assert (Hrem' : wrap16 (remaining - nb) = remaining - nb)
        by (apply wrap16_small; lia).
      unfold bind at 1. unfold compareBytes. rewrite Hw8.
      destruct (compareBytes_for_run (Z.to_nat nb)
                  (received ack s1 address (Z.to_nat nb)
                     ++ drop (Z.to_nat nb) (readBuffer (this s1))) 0 t ptr
                  (putRead board ack s1 address remaining))
        as (same & Hcmp & Hsame).
      { rewrite length_app, received_length, length_drop. lia. }
      { lia. }
      rewrite Hcmp.
      rewrite drop_0, take_app_length' in Hsame by (now rewrite received_length).
      fold (chunkAt t ptr nb) in Hsame.
      destruct same; cbn [eqb].
      * unfold bind at 1. unfold ret at 1.
        specialize (IH (wrap16 (address + nb)) (ptr + Z.to_nat nb)%nat
                      (wrap16 (remaining - nb)) (putRead board ack s1 address remaining)
                      Hrange' ltac:(rewrite Hrem'; lia) ltac:(rewrite Hrem'; lia) Hlen2).
        destruct (put_while _ _ _ _ _ _ _ _ _ _) as [r s'|e]; [|exact IH].
        destruct IH as (-> & Hlen & ps & evs & HR).
        split; [reflexivity|]. split; [exact Hlen|].
        eexists _, _. eapply PutSame; eauto. now apply Hsame.
      * unfold bind at 1. unfold bind at 1.
        rewrite writeBytes_run by lia.
        unfold bind at 1.
        destruct (ackPolling board ack now fuel
                    (afterWrite ack (putRead board ack s1 address remaining) address
                       (map wrap8 (chunkAt t ptr nb)))) as [b4 s4|e] eqn:Hpoll4;
          [|now apply ackPolling_error in Hpoll4].
        destruct (ackPolling_run _ _ _ _ Hpoll4) as [k4 HP4].
        unfold ret at 1.
        specialize (IH (wrap16 (address + nb)) (ptr + Z.to_nat nb)%nat
                      (wrap16 (remaining - nb)) s4
                      Hrange' ltac:(rewrite Hrem'; lia) ltac:(rewrite Hrem'; lia)).
        rewrite (po_this _ _ _ _ _ _ HP4) in IH. specialize (IH Hlen2).
        destruct (put_while _ _ _ _ _ _ _ _ _ _) as [r s'|e]; [|exact IH].
        destruct IH as (-> & Hlen & ps & evs & HR).
        split; [reflexivity|]. split; [exact Hlen|].
        eexists _, _. eapply PutDiffer; eauto.
        intros Heq. apply Hsame in Heq. discriminate.
    + unfold ret. split; [reflexivity|].
      split; [now rewrite (po_this _ _ _ _ _ _ HP)|].
      eexists _, _. eapply PutTimeout; eauto.
Qed.

Lemma put_sound fuel address t s :
  0 <= address < 65536 -> length (readBuffer (this s)) = 64%nat ->
  (forall e, put board ack now fuel address t s = Bad e -> e = OutOfFuel) /\
  (forall r s',
      put board ack now fuel address t s = Ok r s' ->
      r = t /\ length (readBuffer (this s')) = 64%nat /\
      exists ps evs, PutRun board ack now fuel t address 0 (sizeof t) s ps evs s').
Proof.
  intros Ha Hbuf. destruct (sizeof_le t) as [Hs Hl].
  pose proof (put_while_sound fuel t fuel address 0%nat (sizeof t) s Ha Hs
                ltac:(lia) Hbuf) as H.
  unfold put.
  destruct (put_while board ack now fuel fuel address t 0 (sizeof t) s) as [r s'|e].
  - split; [discriminate|]. intros r0 s0 E. inversion E; subst r0 s0. exact H.
  - split; [|discriminate]. intros e0 E. inversion E; subst e0. exact H.
Qed.

Lemma put_returns N fuel address t s :
  clock_expires now N -> (N <= fuel)%nat -> (Z.to_nat (sizeof t) <= fuel)%nat ->
  0 <= address < 65536 -> length (readBuffer (this s)) = 64%nat ->
  exists s', put board ack now fuel address t s = Ok t s'.
Proof.
  intros Hclock Hfuel Hsize Ha Hbuf.
  destruct (put_run N fuel address t s Hclock Hfuel Hsize Ha Hbuf)
    as (ps & evs & s' & Hput & _). eauto.
Qed.

(** C1: every write transmission [put] issues is one of the chunks
    [min(page_size - 2, bytes_to_page_boundary, remaining)] of the spec,
    in their order, with the address and the payload length of that chunk;
    so its payload has between 1 and [pageSize - 2] bytes and does not
    cross a page boundary.  This holds for every object, every 16-bit
    starting address and every run of [put] that returns; and [put] does
    return, with enough fuel, once the clock lets the polls end. *)
Theorem put_write_chunks fuel address t s :
  0 <= address < 65536 -> length (readBuffer (this s)) = 64%nat ->
  (forall r s',
      put board ack now fuel address t s = Ok r s' ->
      sublist (map writeSize (List.filter isWrite (newEvents s s')))
        (schedule board (Z.to_nat (sizeof t)) address (sizeof t)) /\
      Forall (fun e => isWrite e = true -> fitsPage board e) (newEvents s s')) /\
  (forall N,
      clock_expires now N -> (N <= fuel)%nat -> (Z.to_nat (sizeof t) <= fuel)%nat ->
      exists s', put board ack now fuel address t s = Ok t s').
Proof.
  intros Ha Hbuf. split.
  - intros r s' Hput.
    destruct (put_sound fuel address t s Ha Hbuf) as [_ Hok].
    destruct (Hok r s' Hput) as (_ & _ & ps & evs & HR).
    destruct (sizeof_le t) as [Hs Hl].
    destruct (PutRun_new _ _ _ _ _ _ _ _ _ HR) as [_ Hnew].
    assert (Hsub : sublist (map writeSize (List.filter isWrite evs))
                     (schedule board (Z.to_nat (sizeof t)) address (sizeof t))).
    { eapply PutRun_writes; eauto. }
    rewrite Hnew. split; [exact Hsub|].
    apply List.Forall_forall. intros e He Hw.
    assert (Hin : writeSize e ∈ schedule board (Z.to_nat (sizeof t)) address (sizeof t)).
    { apply (sublist_subseteq _ _ Hsub). apply list_elem_of_In.
      apply in_map. apply List.filter_In. auto. }
    pose proof (schedule_fits (Z.to_nat (sizeof t)) address (sizeof t) Ha) as Hfit.
    rewrite Forall_forall in Hfit. apply Hfit in Hin.
    exact Hin.
  - intros N Hclock Hfuel Hsize. eapply put_returns; eauto.
Qed.

(** *** The reads of [put] *)

Lemma pollEvents_Forall (P : Event -> Prop) a from k :
  (forall status, P (Tx a [0] status)) -> Forall P (pollEvents ack a from k).
Proof.
  intros HP. unfold pollEvents. apply List.Forall_forall. intros e He.
  apply in_map_iff in He. destruct He as (i & <- & _). apply HP.
Qed.

Lemma PutRun_requests fuel t address ptr remaining s ps evs s' :
  PutRun board ack now fuel t address ptr remaining s ps evs s' ->
  0 <= address < 65536 ->
  Forall (fun e => isRequest e = true -> 1 <= quantityOf e <= pageSize board - 2) evs.
Proof.
  induction 1 as [address ptr remaining s Hr
                 |address ptr remaining s s1 k Hr Hpoll HP
                 |address ptr remaining s s1 k ps evs s' Hr Hpoll HP Hsame HR IH
                 |address ptr remaining s s1 k s4 b4 k4 ps evs s' Hr Hpoll HP Hdiff
                    Hpoll4 HP4 HR IH];
    intros Ha.
  - constructor.
  - apply pollEvents_Forall. discriminate.
  - destruct (nbytesAt_bounds address remaining Ha Hr) as (Hnb1 & Hnb2 & Hnb3).
    apply Forall_app. split; [apply pollEvents_Forall; discriminate|].
    unfold readEvents. cbn [app].
    constructor; [discriminate|]. constructor; [intros _; exact Hnb1|].
    apply IH, wrap16_range.
  - destruct (nbytesAt_bounds address remaining Ha Hr) as (Hnb1 & Hnb2 & Hnb3).
    apply Forall_app. split; [apply pollEvents_Forall; discriminate|].
    unfold readEvents. cbn [app].
    constructor; [discriminate|]. constructor; [intros _; exact Hnb1|].
    constructor; [discriminate|].
    apply Forall_app. split; [apply pollEvents_Forall; discriminate|].
    apply IH, wrap16_range.
Qed.

(** C10: every read [put] issues into [readBuffer] asks for at most
    [pageSize - 2] bytes, 30 on AVR and 62 on ESP8266, which is less than the
    64 cells of the buffer.  No run of [put] ends with an access out of
    bounds, on either board: it returns, or it is still polling when the
    fuel is used up; and it returns, with enough fuel, once the clock lets
    the polls end. *)
Theorem put_reads_fit_readBuffer fuel address t s :
  0 <= address < 65536 -> length (readBuffer (this s)) = 64%nat ->
  pageSize board - 2 = match board with AVR => 30 | ESP8266 => 62 end /\
  (forall e, put board ack now fuel address t s = Bad e -> e = OutOfFuel) /\
  (forall r s',
      put board ack now fuel address t s = Ok r s' ->
      Forall (fun e => isRequest e = true ->
                       1 <= quantityOf e <= pageSize board - 2 /\
                       quantityOf e < Z.of_nat (length (readBuffer (this s))))
        (newEvents s s') /\
      length (readBuffer (this s')) = 64%nat) /\
  (forall N,
      clock_expires now N -> (N <= fuel)%nat -> (Z.to_nat (sizeof t) <= fuel)%nat ->
      exists s', put board ack now fuel address t s = Ok t s').
Proof.
  intros Ha Hbuf.
  destruct (put_sound fuel address t s Ha Hbuf) as [Hbad Hok].
  split; [destruct board; reflexivity|]. split; [exact Hbad|]. split.
  - intros r s' Hput.
    destruct (Hok r s' Hput) as (_ & Hlen & ps & evs & HR).
    destruct (PutRun_new _ _ _ _ _ _ _ _ _ HR) as [_ Hnew].
    rewrite Hnew. split; [|exact Hlen].
    eapply Forall_impl; [eapply PutRun_requests; eauto|].
    cbn beta. intros e He Hq. specialize (He Hq). rewrite Hbuf.
    destruct board; cbn [pageSize] in *; lia.
  - intros N Hclock Hfuel Hsize. eapply put_returns; eauto.
Qed.

(** *** What is stored *)

Lemma map_seq_from {A} n :
  forall (f : nat -> A) a, map f (seq a n) = map (fun i => f (a + i)%nat) (seq 0 n).
Proof.
  induction n as [|n IH]; intros f a; [reflexivity|].
  cbn [seq map]. rewrite Nat.add_0_r. f_equal.
  rewrite (IH f (S a)), (IH (fun i => f (a + i)%nat) 1%nat).
  apply map_ext. intros i. f_equal. lia.
Qed.

Lemma fetch_app c p n1 n2 :
  fetch c p (n1 + n2) = fetch c p n1 ++ fetch c (wrap16 (p + Z.of_nat n1)) n2.
Proof.
  unfold fetch. rewrite seq_app, map_app. f_equal.
  rewrite map_seq_from. apply map_ext. intros i. f_equal.
  unfold wrap16. rewrite Zplus_mod_idemp_l. f_equal. lia.
Qed.

Lemma storedAt_length c a n : length (storedAt c a n) = n.
Proof. unfold storedAt. now rewrite length_map, fetch_length. Qed.

Lemma storedAt_app c a n1 n2 :
  storedAt c a (n1 + n2)
  = storedAt c a n1 ++ storedAt c (wrap16 (a + Z.of_nat n1)) n2.
Proof. unfold storedAt. now rewrite fetch_app, map_app. Qed.

Lemma chunkAt_app t ptr n1 n2 :
  0 <= n1 -> 0 <= n2 ->
  chunkAt t ptr (n1 + n2) = chunkAt t ptr n1 ++ chunkAt t (ptr + Z.to_nat n1) n2.
Proof.
  intros H1 H2. unfold chunkAt.
  rewrite Z2Nat.inj_add by lia.
  rewrite <- take_take_drop, drop_drop. reflexivity.
Qed.

Lemma received_acked s address n :
  0 <= address < 65536 -> wrap8 (ack (ended s)) = 0 ->
  received ack s address n = storedAt (cells s) address n.
Proof.
  intros Ha Hs. unfold received, readPointer, storedAt.
  now rewrite Hs, address_bytes.
Qed.

Lemma stored_split c t address ptr remaining nb :
  1 <= nb <= remaining ->
  (ptr + Z.to_nat remaining <= length t)%nat ->
  storedAt c address (Z.to_nat remaining) = chunkAt t ptr remaining ->
  storedAt c address (Z.to_nat nb) = chunkAt t ptr nb /\
  storedAt c (wrap16 (address + nb)) (Z.to_nat (remaining - nb))
  = chunkAt t (ptr + Z.to_nat nb) (remaining - nb).
Proof.
  intros Hnb Hp Hst.
  replace remaining with (nb + (remaining - nb)) in Hst by lia.
  rewrite Z2Nat.inj_add, storedAt_app, chunkAt_app in Hst by lia.
  rewrite Z2Nat.id in Hst by lia.
  apply app_inj_1 in Hst; [exact Hst|].
  rewrite storedAt_length, chunkAt_length; lia.
Qed.

Lemma PutRun_unchanged fuel t address ptr remaining s ps evs s' :
  PutRun board ack now fuel t address ptr remaining s ps evs s' ->
  0 <= address < 65536 -> 0 <= remaining < 65536 ->
  (ptr + Z.to_nat remaining <= length t)%nat ->
  storedAt (cells s) address (Z.to_nat remaining) = chunkAt t ptr remaining ->
  Forall (fun e => refused e = false) evs ->
  List.filter isWrite evs = [] /\ cells s' = cells s.
Proof.
  induction 1 as [address ptr remaining s Hr
                 |address ptr remaining s s1 k Hr Hpoll HP
                 |address ptr remaining s s1 k ps evs s' Hr Hpoll HP Hsame HR IH
                 |address ptr remaining s s1 k s4 b4 k4 ps evs s' Hr Hpoll HP Hdiff
                    Hpoll4 HP4 HR IH];
    intros Ha Hrem Hp Hst Hok.
  - auto.
  - split; [apply filter_pollEvents | apply (po_cells _ _ _ _ _ _ HP)].
  - destruct (nbytesAt_bounds address remaining Ha Hr) as (Hnb1 & Hnb2 & Hnb3).
    set (nb := nbytesAt board address remaining) in *.
    assert (Hw : wrap16 (remaining - nb) = remaining - nb) by (apply wrap16_small; lia).
    apply Forall_app in Hok. destruct Hok as [_ Hok].
    apply Forall_app in Hok. destruct Hok as [_ Hok].
    destruct (stored_split _ _ _ _ _ nb (conj (proj1 Hnb1) Hnb2) Hp Hst) as [_ Hst2].
    destruct IH as [IH1 IH2]; auto.
    + apply wrap16_range.
    + rewrite Hw; lia.
    + rewrite Hw; lia.
    + rewrite Hw. cbn [putRead withBuffer afterRead cells].
      now rewrite (po_cells _ _ _ _ _ _ HP).
    + split.
      * rewrite !List.filter_app, filter_pollEvents, IH1. reflexivity.
      * rewrite IH2. cbn [putRead withBuffer afterRead cells].
        apply (po_cells _ _ _ _ _ _ HP).
  - exfalso. apply Hdiff.
    destruct (nbytesAt_bounds address remaining Ha Hr) as (Hnb1 & Hnb2 & Hnb3).
    set (nb := nbytesAt board address remaining) in *.
    apply Forall_app in Hok. destruct Hok as [_ Hok].
    unfold readEvents in Hok. cbn [app] in Hok.
    apply Forall_cons in Hok. destruct Hok as [Hset _].
    cbn [refused] in Hset. apply negb_false_iff, Z.eqb_eq in Hset.
    rewrite received_acked by assumption.
    rewrite (po_cells _ _ _ _ _ _ HP).
    now destruct (stored_split _ _ _ _ _ nb (conj (proj1 Hnb1) Hnb2) Hp Hst) as [Hst1 _].
Qed.

Lemma not_write_prefix (l1 l2 pre : list Event) e post :
  Forall (fun x => isWrite x = false) l1 ->
  l1 ++ l2 = pre ++ e :: post -> isWrite e = true ->
  exists pre2, pre = l1 ++ pre2 /\ l2 = pre2 ++ e :: post.
Proof.
  revert pre. induction l1 as [|x l1 IH]; intros pre Hl1 Heq He.
  - exists pre. auto.
  - apply Forall_cons in Hl1. destruct Hl1 as [Hx Hl1].
    destruct pre as [|y pre]; cbn [app] in Heq; inversion Heq; subst.
    + congruence.
    + destruct (IH pre Hl1 H1 He) as (pre2 & -> & ->). exists pre2. auto.
Qed.

(** A write transmission [e], with the events [pre] before it, comes right
    after the two events of a read at the same address of as many bytes as
    its payload has. *)
Lemma PutRun_guarded fuel t address ptr remaining s ps evs s' :
  PutRun board ack now fuel t address ptr remaining s ps evs s' ->
  0 <= address < 65536 -> 0 <= remaining < 65536 ->
  (ptr + Z.to_nat remaining <= length t)%nat ->
  forall pre e post,
    evs = pre ++ e :: post -> isWrite e = true ->
    exists pre' target hi lo data status status',
      e = Tx target (hi :: lo :: data) status /\
      pre = pre' ++ [Tx target [hi; lo] status'; Rx target (Z.of_nat (length data))].
Proof.
  induction 1 as [address ptr remaining s Hr
                 |address ptr remaining s s1 k Hr Hpoll HP
                 |address ptr remaining s s1 k ps evs s' Hr Hpoll HP Hsame HR IH
                 |address ptr remaining s s1 k s4 b4 k4 ps evs s' Hr Hpoll HP Hdiff
                    Hpoll4 HP4 HR IH];
    intros Ha Hrem Hp pre e post Heq He.
  - destruct pre; discriminate.
  - exfalso.
    assert (Hin : In e (pollEvents ack (I2CAddress (this s)) (ended s) k))
      by (rewrite Heq; apply in_elt).
    pose proof (pollEvents_Forall (fun x => isWrite x = false)
                  (I2CAddress (this s)) (ended s) k ltac:(reflexivity)) as HF.
    rewrite List.Forall_forall in HF. apply HF in Hin. congruence.
  - destruct (nbytesAt_bounds address remaining Ha Hr) as (Hnb1 & Hnb2 & Hnb3).
    set (nb := nbytesAt board address remaining) in *.
    assert (Hw : wrap16 (remaining - nb) = remaining - nb) by (apply wrap16_small; lia).
    rewrite app_assoc in Heq.
    apply not_write_prefix in Heq; [|
      apply Forall_app; split;
        [apply pollEvents_Forall; reflexivity
        |unfold readEvents; repeat constructor] | assumption].
    destruct Heq as (pre2 & -> & Heq).
    destruct (IH ltac:(apply wrap16_range) ltac:(rewrite Hw; lia) ltac:(rewrite Hw; lia)
                pre2 e post Heq He)
      as (pre' & target & hi & lo & data & st & st' & -> & ->).
    exists ((pollEvents ack (I2CAddress (this s)) (ended s) k
               ++ readEvents ack s1 address nb) ++ pre').
    exists target, hi, lo, data, st, st'. split; [reflexivity|].
    now rewrite <- !app_assoc.
  - destruct (nbytesAt_bounds address remaining Ha Hr) as (Hnb1 & Hnb2 & Hnb3).
    set (nb := nbytesAt board address remaining) in *.
    assert (Hw : wrap16 (remaining - nb) = remaining - nb) by (apply wrap16_small; lia).
    rewrite app_assoc in Heq.
    apply not_write_prefix in Heq; [|
      apply Forall_app; split;
        [apply pollEvents_Forall; reflexivity
        |unfold readEvents; repeat constructor] | assumption].
    destruct Heq as (pre2 & -> & Heq).
    destruct pre2 as [|w pre3]; cbn [app] in Heq; inversion Heq as [[Hw1 Hw2]].
    + exists (pollEvents ack (I2CAddress (this s)) (ended s) k).
      eexists _, _, _, _, _, _. split; [reflexivity|].
      rewrite app_nil_r. f_equal. unfold readEvents.
      cbn [putRead withBuffer afterRead this I2CAddress].
      rewrite length_map, chunkAt_length, Z2Nat.id by lia. reflexivity.
    + apply not_write_prefix in Hw2;
        [|apply pollEvents_Forall; reflexivity | assumption].
      destruct Hw2 as (pre4 & -> & Hw2).
      destruct (IH ltac:(apply wrap16_range) ltac:(rewrite Hw; lia) ltac:(rewrite Hw; lia)
                  pre4 e post Hw2 He)
        as (pre' & target & hi & lo & data & st & st' & -> & ->).
      eexists _, target, hi, lo, data, st, st'. split; [reflexivity|].
      rewrite !app_comm_cons, !app_assoc. reflexivity.
Qed.

(** *** Page writes *)

Lemma pageWrite_inside data :
  forall c a,
    0 <= a -> a mod devicePage + Z.of_nat (length data) <= devicePage ->
    forall x,
      fst (pageWrite c a data) x =
      if (a <=? x) && (x <? a + Z.of_nat (length data))
      then nth (Z.to_nat (x - a)) data 0 else c x.
Proof.
  unfold devicePage.
  induction data as [|d data IH]; intros c a Ha Hfit x.
  - cbn [pageWrite fst length].
    destruct (Z.leb_spec a x); destruct (Z.ltb_spec x (a + Z.of_nat 0));
      cbn [andb]; try reflexivity; lia.
  - cbn [pageWrite].
    pose proof (Z.mod_pos_bound a 64 ltac:(lia)).
    destruct data as [|d' data'].
    + cbn [pageWrite fst length].
      destruct (Z.eqb_spec x a) as [Hxa|Hne];
        destruct (Z.leb_spec a x); destruct (Z.ltb_spec x (a + Z.of_nat 1));
        cbn [andb]; try (subst x; rewrite Z.sub_diag); try reflexivity; lia.
    + assert (Hmod : (a + 1) mod 64 = a mod 64 + 1).
      { cbn [length] in Hfit.
        rewrite <- (Z.add_mod_idemp_l a 1 64) by lia.
        apply Z.mod_small. lia. }
      assert (Hnext : nextInPage a = a + 1).
      { unfold nextInPage, devicePage. rewrite Hmod.
        pose proof (Z.div_mod a 64 ltac:(lia)). lia. }
      rewrite Hnext.
      rewrite IH by (rewrite ?Hmod; cbn [length] in *; lia).
      remember (d' :: data') as rest eqn:Erest.
      cbn [length].
      destruct (Z.eqb_spec x a) as [Hxa|Hne];
        destruct (Z.leb_spec (a + 1) x);
        destruct (Z.ltb_spec x (a + 1 + Z.of_nat (length rest)));
        destruct (Z.leb_spec a x);
        destruct (Z.ltb_spec x (a + Z.of_nat (S (length rest))));
        cbn [andb]; try (subst x; rewrite Z.sub_diag); try reflexivity; try lia.
      replace (Z.to_nat (x - a)) with (S (Z.to_nat (x - (a + 1)))) by lia.
      reflexivity.
Qed.

Lemma chunk_in_device_page address nb :
  0 <= address ->
  nb <= pageSize board - address mod pageSize board ->
  address mod devicePage + nb <= devicePage.
Proof.
  intros Ha Hnb. unfold devicePage.
  destruct (pageSize_cases board) as [E|E]; rewrite E in Hnb; [|lia].
  change 64 with (32 * 2) at 1. rewrite Z.rem_mul_r by lia.
  pose proof (Z.mod_pos_bound (address / 32) 2 ltac:(lia)). lia.
Qed.

Lemma storedAt_lookup c a n i :
  (i < n)%nat -> storedAt c a n !! i = Some (wrap8 (c (wrap16 (a + Z.of_nat i)))).
Proof.
  intros Hi. unfold storedAt, fetch. rewrite map_map.
  change (map ?f ?l) with (f <$> l).
  rewrite list_lookup_fmap, lookup_seq_lt by assumption. reflexivity.
Qed.

Lemma storedAt_ext c1 c2 a n :
  (forall i, (i < n)%nat -> c1 (wrap16 (a + Z.of_nat i)) = c2 (wrap16 (a + Z.of_nat i))) ->
  storedAt c1 a n = storedAt c2 a n.
Proof.
  intros H. apply list_eq. intros i.
  destruct (Nat.lt_ge_cases i n) as [Hi|Hi].
  - rewrite !storedAt_lookup by assumption. now rewrite H.
  - rewrite !lookup_ge_None_2 by (rewrite storedAt_length; lia). reflexivity.
Qed.

Lemma bytes_wrap8 l : bytes l -> map wrap8 l = l.
Proof.
  induction 1 as [|v l Hv Hl IH]; [reflexivity|].
  cbn [map]. now rewrite IH, wrap8_small.
Qed.

Lemma bytes_chunkAt t ptr n : bytes t -> bytes (chunkAt t ptr n).
Proof. intros H. unfold chunkAt, bytes. now apply Forall_take, Forall_drop. Qed.

(** The cells after an acknowledged write of a chunk that stays in its
    page. *)
Lemma stored_after_write c address data :
  0 <= address -> address + Z.of_nat (length data) <= 65536 ->
  address mod devicePage + Z.of_nat (length data) <= devicePage ->
  bytes data ->
  storedAt (fst (pageWrite c address data)) address (length data) = data /\
  (forall x, ~ (address <= x < address + Z.of_nat (length data)) ->
             fst (pageWrite c address data) x = c x).
Proof.
  intros Ha Hend Hfit Hb. split.
  - apply list_eq. intros i.
    destruct (Nat.lt_ge_cases i (length data)) as [Hi|Hi].
    + rewrite storedAt_lookup by assumption.
      rewrite wrap16_small by lia.
      rewrite pageWrite_inside by assumption.
      destruct (Z.leb_spec address (address + Z.of_nat i)); [|lia].
      destruct (Z.ltb_spec (address + Z.of_nat i) (address + Z.of_nat (length data))); [|lia].
      cbn [andb].
      replace (Z.to_nat (address + Z.of_nat i - address)) with i by lia.
      destruct (lookup_lt_is_Some_2 data i Hi) as [v Hv].
      rewrite Hv. erewrite nth_lookup_Some by exact Hv.
      f_equal. apply wrap8_small.
      unfold bytes in Hb. rewrite Forall_forall in Hb. apply Hb.
      eapply list_elem_of_lookup_2; eauto.
    + rewrite !lookup_ge_None_2 by (rewrite ?storedAt_length; lia). reflexivity.
  - intros x Hx. rewrite pageWrite_inside by assumption.
    destruct (Z.leb_spec address x);
      destruct (Z.ltb_spec x (address + Z.of_nat (length data)));
      cbn [andb]; try reflexivity; lia.
Qed.

(** Joining what an iteration stored with what the rest of the run
    stored. *)
Lemma stored_join (c0 c' : Z -> Z) t address ptr remaining nb :
  0 <= address < 65536 -> address + remaining <= 65536 ->
  1 <= nb <= remaining ->
  (ptr + Z.to_nat remaining <= length t)%nat ->
  storedAt c0 address (Z.to_nat nb) = chunkAt t ptr nb ->
  storedAt c' (wrap16 (address + nb)) (Z.to_nat (remaining - nb))
    = chunkAt t (ptr + Z.to_nat nb) (remaining - nb) ->
  (forall x, ~ (wrap16 (address + nb) <= x < wrap16 (address + nb) + (remaining - nb)) ->
             c' x = c0 x) ->
  storedAt c' address (Z.to_nat remaining) = chunkAt t ptr remaining.
Proof.
  intros Ha Hend Hnb Hp H1 H2 Hframe.
  replace remaining with (nb + (remaining - nb)) at 1 2 by lia.
  rewrite Z2Nat.inj_add, storedAt_app, chunkAt_app by lia.
  rewrite Z2Nat.id by lia. rewrite H2. f_equal.
  rewrite <- H1. apply storedAt_ext. intros i Hi.
  apply Hframe. rewrite (wrap16_small (address + Z.of_nat i)) by lia.
  destruct (Z.eq_dec (remaining - nb) 0) as [E|E]; [lia|].
  rewrite wrap16_small by lia. lia.
Qed.

Lemma next_in_range address remaining nb :
  0 <= address < 65536 -> address + remaining <= 65536 -> 1 <= nb <= remaining ->
  wrap16 (address + nb) + wrap16 (remaining - nb) <= 65536 /\
  wrap16 (remaining - nb) = remaining - nb /\
  (forall x, ~ (address <= x < address + remaining) ->
             ~ (wrap16 (address + nb) <= x
                < wrap16 (address + nb) + (remaining - nb))).
Proof.
  intros Ha Hend Hnb.
  assert (Hw : wrap16 (remaining - nb) = remaining - nb) by (apply wrap16_small; lia).
  rewrite Hw. split; [|split; [reflexivity|]].
  - destruct (Z.eq_dec (address + nb) 65536) as [E|E].
    + rewrite E. change (wrap16 65536) with 0. lia.
    + rewrite wrap16_small by lia. lia.
  - intros x Hx.
    destruct (Z.eq_dec (address + nb) 65536) as [E|E].
    + rewrite E. change (wrap16 65536) with 0. lia.
    + rewrite wrap16_small by lia. lia.
Qed.

Lemma PutRun_stores fuel t address ptr remaining s ps evs s' :
  PutRun board ack now fuel t address ptr remaining s ps evs s' ->
  bytes t ->
  0 <= address < 65536 -> 0 <= remaining -> address + remaining <= 65536 ->
  (ptr + Z.to_nat remaining <= length t)%nat ->
  Forall (fun b => b = true) ps ->
  Forall (fun e => refused e = false) evs ->
  storedAt (cells s') address (Z.to_nat remaining) = chunkAt t ptr remaining /\
  (forall x, ~ (address <= x < address + remaining) -> cells s' x = cells s x).
Proof.
  intros HR Hb.
  induction HR as [address ptr remaining s Hr
                 |address ptr remaining s s1 k Hr Hpoll HP
                 |address ptr remaining s s1 k ps evs s' Hr Hpoll HP Hsame HR IH
                 |address ptr remaining s s1 k s4 b4 k4 ps evs s' Hr Hpoll HP Hdiff
                    Hpoll4 HP4 HR IH];
    intros Ha Hrem Hend Hp Hps Hok.
  - assert (remaining = 0) as -> by lia. split; [reflexivity | auto].
  - apply Forall_cons in Hps. destruct Hps as [Hf _]. discriminate.
  - destruct (nbytesAt_bounds address remaining Ha Hr) as (Hnb1 & Hnb2 & Hnb3).
    set (nb := nbytesAt board address remaining) in *.
    destruct (next_in_range address remaining nb Ha Hend (conj (proj1 Hnb1) Hnb2))
      as (Hend' & Hw & Hout).
    apply Forall_cons in Hps. destruct Hps as [_ Hps].
    apply Forall_app in Hok. destruct Hok as [_ Hok].
    apply Forall_app in Hok. destruct Hok as [Hrd Hok].
    unfold readEvents in Hrd. apply Forall_cons in Hrd. destruct Hrd as [Hset _].
    cbn [refused] in Hset. apply negb_false_iff, Z.eqb_eq in Hset.
    rewrite received_acked in Hsame by assumption.
    destruct IH as [IH1 IH2]; auto; try (rewrite ?Hw; lia).
    { apply wrap16_range. }
    rewrite Hw in IH1.
    cbn [putRead withBuffer afterRead cells] in IH2.
    rewrite (po_cells _ _ _ _ _ _ HP) in *.
    split.
    + apply (stored_join (cells s) (cells s') t address ptr remaining nb); auto;
        [lia|].
      intros x Hx. apply IH2. now rewrite Hw.
    + intros x Hx. apply IH2. rewrite Hw. now apply Hout.
  - destruct (nbytesAt_bounds address remaining Ha Hr) as (Hnb1 & Hnb2 & Hnb3).
    set (nb := nbytesAt board address remaining) in *.
    destruct (next_in_range address remaining nb Ha Hend (conj (proj1 Hnb1) Hnb2))
      as (Hend' & Hw & Hout).
    apply Forall_cons in Hps. destruct Hps as [_ Hps].
    apply Forall_cons in Hps. destruct Hps as [_ Hps].
    apply Forall_app in Hok. destruct Hok as [_ Hok].
    apply Forall_app in Hok. destruct Hok as [_ Hok].
    apply Forall_cons in Hok. destruct Hok as [Hwr Hok].
    apply Forall_app in Hok. destruct Hok as [_ Hok].
    assert (Hlen : length (chunkAt t ptr nb) = Z.to_nat nb) by (apply chunkAt_length; lia).
    rewrite (bytes_wrap8 (chunkAt t ptr nb)) in * by now apply bytes_chunkAt.
    assert (Hst : wrap8 (ack (ended (putRead board ack s1 address remaining))) = 0).
    { unfold writeEvent in Hwr. cbn [refused] in Hwr.
      destruct (chunkAt t ptr nb); [simpl in Hlen; lia|].
      now apply negb_false_iff, Z.eqb_eq in Hwr. }
    destruct IH as [IH1 IH2]; auto; try (rewrite ?Hw; lia).
    { apply wrap16_range. }
    rewrite Hw in IH1.
    rewrite (po_cells _ _ _ _ _ _ HP4) in IH2.
    unfold afterWrite in IH2. rewrite Hst in IH2.
    cbn [Z.eqb cells fst] in IH2.
    rewrite address_bytes in IH2 by assumption.
    cbn [putRead withBuffer afterRead cells] in IH2.
    rewrite (po_cells _ _ _ _ _ _ HP) in IH2.
    destruct (stored_after_write (cells s) address (chunkAt t ptr nb))
      as [Hw1 Hw2]; try (rewrite ?Hlen; lia).
    { rewrite Hlen, Z2Nat.id by lia. apply chunk_in_device_page; lia. }
    { now apply bytes_chunkAt. }
    rewrite Hlen in Hw1. rewrite Hlen, Z2Nat.id in Hw2 by lia.
    split.
    + apply (stored_join (fst (pageWrite (cells s) address (chunkAt t ptr nb)))
               (cells s') t address ptr remaining nb); auto; [lia|].
      intros x Hx. apply IH2. now rewrite Hw.
    + intros x Hx. rewrite IH2 by (rewrite Hw; now apply Hout).
      apply Hw2. lia.
Qed.

(** *** The loop of [get] *)

Lemma bufferSize_pos : 32 <= bufferSize board <= 128.
Proof. destruct board; cbn; lia. Qed.

Lemma chunks_left size i :
  i < size -> 0 <= size ->
  Z.to_nat ((size - i + bufferSize board - 1) / bufferSize board)
  = S (Z.to_nat ((size - (i + bufferSize board) + bufferSize board - 1) / bufferSize board)).
Proof.
  intros Hi Hs. pose proof bufferSize_pos as Hb.
  replace (size - i + bufferSize board - 1)
    with (size - (i + bufferSize board) + bufferSize board - 1 + 1 * bufferSize board) by lia.
  rewrite Z.div_add by lia.
  assert (0 <= (size - (i + bufferSize board) + bufferSize board - 1) / bufferSize board)
    by (apply Z.div_pos; lia).
  lia.
Qed.

Lemma chunks_none size i :
  size <= i -> i < size + bufferSize board ->
  Z.to_nat ((size - i + bufferSize board - 1) / bufferSize board) = 0%nat.
Proof.
  intros H1 H2. rewrite Z.div_small by lia. reflexivity.
Qed.

Lemma get_for_run address size a e0 :
  0 <= size <= 65536 - bufferSize board ->
  forall m n k t s,
    Z.of_nat k * bufferSize board < size + bufferSize board ->
    m = Z.to_nat ((size - Z.of_nat k * bufferSize board + bufferSize board - 1)
                  / bufferSize board) ->
    (m <= n)%nat ->
    length t = Z.to_nat size ->
    ended s = (e0 + k)%nat -> I2CAddress (this s) = a ->
    exists t' s',
      get_for board ack n address size (Z.of_nat k * bufferSize board) t
        (Z.to_nat (Z.min (Z.of_nat k * bufferSize board) size)) s = Ok t' s' /\
      length t' = length t /\ cells s' = cells s /\ polled s' = polled s /\
      this s' = this s /\
      journal s' = journal s
                   ++ flat_map (chunkEvents board ack a address size e0) (seq k m) /\
      ((forall j, (k <= j < k + m)%nat -> wrap8 (ack (e0 + j)%nat) = 0) ->
       t' = take (Z.to_nat (Z.min (Z.of_nat k * bufferSize board) size)) t
            ++ storedAt (cells s) (wrap16 (address + Z.of_nat k * bufferSize board))
                 (Z.to_nat (size - Z.of_nat k * bufferSize board))).
Proof.
  intros Hsize. pose proof bufferSize_pos as Hb.
  induction m as [|m IH]; intros n k t s Hk Hm Hn Hlen He Ha.
  - set (i := Z.of_nat k * bufferSize board) in *.
    assert (Hi : size <= i).
    { destruct (Z_lt_le_dec i size) as [Hlt|]; [|assumption].
      rewrite chunks_left in Hm by lia. discriminate. }
    exists t, s.
    assert (Hrun : get_for board ack n address size i t (Z.to_nat (Z.min i size)) s = Ok t s).
    { destruct n; cbn [get_for]; destruct (Z.ltb_spec i size); try lia; reflexivity. }
    split; [exact Hrun|]. repeat split; auto.
    + cbn [seq flat_map]. now rewrite app_nil_r.
    + intros _. rewrite Z.min_r by lia.
      replace (Z.to_nat (size - i)) with 0%nat by lia.
      cbn [storedAt fetch seq map]. rewrite app_nil_r, take_ge by lia. reflexivity.
  - set (i := Z.of_nat k * bufferSize board) in *.
    assert (Hi : i < size).
    { destruct (Z_lt_le_dec i size) as [|Hge]; [assumption|].
      rewrite chunks_none in Hm by lia. discriminate. }
    assert (Hi0 : 0 <= i) by (unfold i; lia).
    destruct n as [|n]; [lia|].
    cbn [get_for]. destruct (Z.ltb_spec i size); [|lia].
    set (block := if size - i <? bufferSize board then wrap8 (size - i)
                  else wrap8 (bufferSize board)).
    assert (Hblock : block = Z.min (bufferSize board) (size - i)).
    { unfold block. destruct (Z.ltb_spec (size - i) (bufferSize board));
        rewrite wrap8_small; lia. }
    rewrite Z.min_l by lia.
    unfold bind at 1.
    rewrite readBytes_run by lia.
    rewrite wrap16_small by lia.
    replace (i + bufferSize board) with (Z.of_nat (S k) * bufferSize board) by (unfold i; lia).
    replace (Z.to_nat i + Z.to_nat block)%nat
      with (Z.to_nat (Z.min (Z.of_nat (S k) * bufferSize board) size)) by (unfold i in *; lia).
    set (t1 := take (Z.to_nat i) t
               ++ received ack s (wrap16 (address + i)) (Z.to_nat block)
               ++ drop (Z.to_nat (Z.min (Z.of_nat (S k) * bufferSize board) size)) t).
    assert (Hlen1 : length t1 = length t).
    { unfold t1. rewrite !length_app, length_take, received_length, length_drop.
      unfold i in *. lia. }
    destruct (IH n (S k) t1 (afterRead ack s (wrap16 (address + i)) block))
      as (t' & s' & Hrun & Hl & Hc & Hp & Ht & Hj & Hdata).
    { unfold i in *. lia. }
    { rewrite chunks_left in Hm by lia.
      replace (Z.of_nat (S k) * bufferSize board) with (i + bufferSize board)
        by (unfold i; lia). lia. }
    { lia. }
    { lia. }
    { cbn [afterRead ended]. lia. }
    { cbn [afterRead this]. assumption. }
    exists t', s'. split; [exact Hrun|].
    cbn [afterRead cells polled this journal] in *.
    repeat split; try congruence.
    + rewrite Hj, <- app_assoc. f_equal. cbn [seq flat_map]. f_equal.
      unfold chunkEvents, readEvents, readChunk. cbn [fst snd app].
      fold i. rewrite He, Ha, Hblock. reflexivity.
    + intros Hack.
      rewrite Hdata by (intros j Hj'; apply Hack; lia).
      assert (Hrec : received ack s (wrap16 (address + i)) (Z.to_nat block)
                     = storedAt (cells s) (wrap16 (address + i)) (Z.to_nat block)).
      { apply received_acked; [apply wrap16_range|]. rewrite He. apply Hack. lia. }
      unfold t1. rewrite Hrec.
      rewrite app_assoc, take_app_length'
        by (rewrite length_app, length_take, storedAt_length; unfold i in *; lia).
      rewrite <- app_assoc. f_equal.
      replace (Z.to_nat (size - i))
        with (Z.to_nat block + Z.to_nat (size - Z.of_nat (S k) * bufferSize board))%nat
        by (unfold i in *; lia).
      rewrite storedAt_app. f_equal.
      destruct (Z.to_nat (size - Z.of_nat (S k) * bufferSize board)) eqn:En;
        [reflexivity|].
      f_equal. unfold wrap16. rewrite Zplus_mod_idemp_l. f_equal.
      unfold i in *. lia.
Qed.

Lemma sizeof_small t :
  Z.of_nat (length t) < 65536 -> sizeof t = Z.of_nat (length t).
Proof. intros H. unfold sizeof. apply wrap16_small. lia. Qed.

Lemma readCount_le size : 0 <= size -> (readCount board size <= Z.to_nat size)%nat.
Proof.
  intros Hs. unfold readCount. pose proof bufferSize_pos as Hb.
  apply Z2Nat.inj_le; [apply Z.div_pos; lia | lia |].
  destruct (Z.eq_dec size 0) as [->|Hne].
  - rewrite Z.div_small; lia.
  - apply Z.div_le_upper_bound; [lia|]. nia.
Qed.

(** What [get] does: one poll, and after a successful one the read
    transactions of the chunks in order. *)
Lemma get_run N fuel address t s :
  clock_expires now N -> (N <= fuel)%nat ->
  (readCount board (sizeof t) <= fuel)%nat ->
  Z.of_nat (length t) <= 65536 - bufferSize board ->
  exists ready s1 k r s',
    ackPolling board ack now fuel s = Ok ready s1 /\
    Polled ack now s s1 ready k /\
    get board ack now fuel address t s = Ok r s' /\
    polled s' = polled s ++ [ready] /\
    cells s' = cells s /\
    length r = length t /\
    (ready = false -> r = t /\ s' = s1) /\
    (ready = true ->
     journal s' = journal s1
                  ++ flat_map (chunkEvents board ack (I2CAddress (this s)) address
                                 (sizeof t) (ended s1))
                       (seq 0 (readCount board (sizeof t))) /\
     ((forall j, (j < readCount board (sizeof t))%nat ->
                 wrap8 (ack (ended s1 + j)%nat) = 0) ->
      r = storedAt (cells s) (wrap16 address) (length t))).
Proof.
  intros Hclock Hfuel Hcount Hsize. pose proof bufferSize_pos as Hb.
  destruct (ackPolling_returns N fuel s Hclock Hfuel) as (ready & s1 & k & Hpoll & HP).
  assert (Hsz : sizeof t = Z.of_nat (length t)) by (apply sizeof_small; lia).
  unfold get. unfold bind at 1. rewrite Hpoll.
  destruct ready.
  - destruct (get_for_run address (sizeof t) (I2CAddress (this s)) (ended s1)
                ltac:(lia) (readCount board (sizeof t)) fuel 0%nat t s1)
      as (r & s' & Hrun & Hl & Hc & Hp & Ht & Hj & Hdata).
    { cbn. lia. }
    { unfold readCount. f_equal. f_equal. cbn. lia. }
    { assumption. }
    { lia. }
    { lia. }
    { now rewrite (po_this _ _ _ _ _ _ HP). }
    cbn [Z.of_nat Z.mul] in Hrun, Hdata.
    rewrite Z.min_l in Hrun, Hdata by lia. cbn [Z.to_nat] in Hrun, Hdata.
    exists true, s1, k, r, s'.
    split; [reflexivity|]. split; [exact HP|]. split; [exact Hrun|].
    split; [now rewrite Hp, (po_polled _ _ _ _ _ _ HP)|].
    split; [now rewrite Hc, (po_cells _ _ _ _ _ _ HP)|].
    split; [exact Hl|]. split; [discriminate|].
    intros _. split; [exact Hj|].
    intros Hack. rewrite Hdata by (intros j Hj'; apply Hack; lia).
    rewrite take_0, Z.add_0_r, Z.sub_0_r, Hsz, Nat2Z.id, (po_cells _ _ _ _ _ _ HP).
    reflexivity.
  - exists false, s1, k, t, s1. unfold ret.
    split; [reflexivity|]. split; [exact HP|]. split; [reflexivity|].
    split; [apply (po_polled _ _ _ _ _ _ HP)|].
    split; [apply (po_cells _ _ _ _ _ _ HP)|].
    split; [reflexivity|]. split; [auto | discriminate].
Qed.

Lemma readChunk_cover address size k :
  0 <= size -> (k < readCount board size)%nat ->
  Z.of_nat k * bufferSize board < size /\
  1 <= snd (readChunk board address size k) <= bufferSize board /\
  ((S k < readCount board size)%nat ->
   snd (readChunk board address size k) = bufferSize board) /\
  (S k = readCount board size ->
   Z.of_nat k * bufferSize board + snd (readChunk board address size k) = size).
Proof.
  intros Hs Hk. pose proof bufferSize_pos as Hb. unfold readCount in *.
  cbn [readChunk snd].
  set (B := bufferSize board) in *.
  pose proof (Z.div_mod (size + B - 1) B ltac:(lia)) as Hdm.
  pose proof (Z.mod_pos_bound (size + B - 1) B ltac:(lia)) as Hmod.
  assert (0 <= (size + B - 1) / B) by (apply Z.div_pos; lia).
  assert (Hk' : Z.of_nat k < (size + B - 1) / B) by lia.
  assert (Hlt : Z.of_nat k * B < size) by nia.
  split; [exact Hlt|]. split; [lia|]. split.
  - intros HS. assert (Z.of_nat k + 1 < (size + B - 1) / B) by lia. nia.
  - intros HS. assert (Z.of_nat k + 1 = (size + B - 1) / B) by lia. nia.
Qed.

(** X26: for objects of at most [65536 - bufferSize] bytes [get] polls once;
    after a failed poll it does nothing more; after a successful one it
    issues [ceil(size / bufferSize)] read transactions and nothing else,
    transaction [k] at [address + k * bufferSize] for
    [min(bufferSize, size - k * bufferSize)] bytes, so that each starts
    where the one before it ended and the last ends at [address + size]. *)
Theorem get_reads_in_chunks N fuel address t s :
  clock_expires now N -> (N <= fuel)%nat ->
  (readCount board (sizeof t) <= fuel)%nat ->
  Z.of_nat (length t) <= 65536 - bufferSize board ->
  exists ready s1 k r s',
    ackPolling board ack now fuel s = Ok ready s1 /\
    journal s1 = journal s ++ pollEvents ack (I2CAddress (this s)) (ended s) k /\
    get board ack now fuel address t s = Ok r s' /\
    polled s' = polled s ++ [ready] /\
    (ready = false -> s' = s1) /\
    (ready = true ->
     journal s' = journal s1
                  ++ flat_map (chunkEvents board ack (I2CAddress (this s)) address
                                 (sizeof t) (ended s1))
                       (seq 0 (readCount board (sizeof t)))) /\
    (forall j, (j < readCount board (sizeof t))%nat ->
       Z.of_nat j * bufferSize board < sizeof t /\
       1 <= snd (readChunk board address (sizeof t) j) <= bufferSize board /\
       ((S j < readCount board (sizeof t))%nat ->
        snd (readChunk board address (sizeof t) j) = bufferSize board) /\
       (S j = readCount board (sizeof t) ->
        Z.of_nat j * bufferSize board + snd (readChunk board address (sizeof t) j)
        = sizeof t)).
Proof.
  intros Hclock Hfuel Hcount Hsize.
  destruct (get_run N fuel address t s Hclock Hfuel Hcount Hsize)
    as (ready & s1 & k & r & s' & Hpoll & HP & Hget & Hp & _ & _ & Hf & Ht).
  exists ready, s1, k, r, s'.
  split; [exact Hpoll|]. split; [apply (po_journal _ _ _ _ _ _ HP)|].
  split; [exact Hget|]. split; [exact Hp|].
  split; [intros E; now apply Hf|]. split; [intros E; now apply Ht|].
  intros j Hj. apply readChunk_cover; [|exact Hj].
  apply (proj1 (sizeof_le t)).
Qed.

Lemma chunkEvents_refused a address size e0 K :
  Forall (fun e => refused e = false)
    (flat_map (chunkEvents board ack a address size e0) (seq 0 K)) ->
  forall j, (j < K)%nat -> wrap8 (ack (e0 + j)%nat) = 0.
Proof.
  intros HF j Hj. rewrite List.Forall_forall in HF.
  specialize (HF (Tx a [hiByte (fst (readChunk board address size j));
                        loByte (fst (readChunk board address size j))]
                    (wrap8 (ack (e0 + j)%nat)))).
  cbn [refused] in HF. apply Z.eqb_eq, negb_false_iff. apply HF.
  apply in_flat_map. exists j. split; [apply in_seq; lia|].
  unfold chunkEvents. left. reflexivity.
Qed.

(** X25: for objects of at most [65536 - bufferSize] bytes that end within
    the 16-bit address space, [put] followed by [get] at the same address
    both return, and what [get] returns is the object that was put,
    provided every poll of the two calls succeeded and the part
    acknowledged every read set-up and every write. *)
Theorem put_get_round_trip N fuel address t x s :
  clock_expires now N -> (N <= fuel)%nat -> (length t <= fuel)%nat ->
  bytes t -> length x = length t ->
  Z.of_nat (length t) <= 65536 - bufferSize board ->
  0 <= address < 65536 -> address + Z.of_nat (length t) <= 65536 ->
  length (readBuffer (this s)) = 64%nat ->
  exists s1 r s2,
    put board ack now fuel address t s = Ok t s1 /\
    get board ack now fuel address x s1 = Ok r s2 /\
    (Forall (fun b => b = true) (newPolls s s2) ->
     Forall (fun e => refused e = false) (newEvents s s2) ->
     r = t).
Proof.
  intros Hclock Hfuel Hlenf Hb Hx Hsize Ha Hend Hbuf.
  pose proof bufferSize_pos as HB.
  assert (Hsz : sizeof t = Z.of_nat (length t)) by (apply sizeof_small; lia).
  assert (Hszx : sizeof x = Z.of_nat (length t))
    by (rewrite <- Hx; apply sizeof_small; lia).
  destruct (put_run N fuel address t s Hclock Hfuel ltac:(lia) Ha Hbuf)
    as (ps & evs & s1 & Hput & HR & _).
  destruct (PutRun_extends _ _ _ _ _ _ _ _ _ HR) as (Hp1 & Hj1 & Hi1).
  destruct (get_run N fuel address x s1 Hclock Hfuel)
    as (ready & s1' & k & r & s2 & Hpoll & HP & Hget & Hp2 & _ & _ & _ & Ht).
  { pose proof (readCount_le (sizeof x) ltac:(lia)). lia. }
  { lia. }
  exists s1, r, s2. split; [exact Hput|]. split; [exact Hget|].
  intros Hpolls Hevents.
  unfold newPolls in Hpolls. rewrite Hp2, Hp1, <- app_assoc, drop_app_length in Hpolls.
  apply Forall_app in Hpolls. destruct Hpolls as [Hps Hready].
  apply Forall_cons in Hready. destruct Hready as [-> _].
  destruct (Ht eq_refl) as [Hj2 Hdata].
  unfold newEvents in Hevents.
  rewrite Hj2, (po_journal _ _ _ _ _ _ HP), Hj1, <- !app_assoc, drop_app_length in Hevents.
  apply Forall_app in Hevents. destruct Hevents as [Hevs Hevents].
  apply Forall_app in Hevents. destruct Hevents as [_ Hreads].
  rewrite Hdata by (intros j Hj; eapply chunkEvents_refused; eauto).
  rewrite wrap16_small, Hx by lia.
  destruct (PutRun_stores _ _ _ _ _ _ _ _ _ HR Hb Ha) as [Hst _];
    try (rewrite ?Hsz; lia); auto.
  rewrite Hsz, Nat2Z.id in Hst. rewrite Hst.
  unfold chunkAt. rewrite drop_0, Nat2Z.id, take_ge by lia. reflexivity.
Qed.

(** *** A poll that fails *)

(** C5: when the poll at the start of an iteration of [put] fails, [put]
    returns at once with the object as it was given: the state it returns in
    is the state the poll left, in which the journal has gained the poll
    attempts only and the cells are what they were when the iteration began,
    the writes of earlier iterations included.  The result has the shape of
    a successful one. *)
Theorem put_aborts_on_timeout fuel n address t ptr remaining s s1 :
  0 < remaining ->
  ackPolling board ack now fuel s = Ok false s1 ->
  put_while board ack now fuel (S n) address t ptr remaining s = Ok t s1 /\
  cells s1 = cells s /\
  this s1 = this s /\
  exists k,
    journal s1 = journal s ++ pollEvents ack (I2CAddress (this s)) (ended s) k /\
    Forall (fun e => isPoll e = true)
      (pollEvents ack (I2CAddress (this s)) (ended s) k).
Proof.
  intros Hr Hpoll.
  destruct (ackPolling_run _ _ _ _ Hpoll) as [k HP].
  split.
  - cbn [put_while]. destruct (Z.gtb_spec remaining 0); [|lia].
    unfold bind at 1. rewrite Hpoll. reflexivity.
  - split; [apply (po_cells _ _ _ _ _ _ HP)|].
    split; [apply (po_this _ _ _ _ _ _ HP)|].
    exists k. split; [apply (po_journal _ _ _ _ _ _ HP) | apply pollEvents_isPoll].
Qed.

(** C7: if no transmission is ever acknowledged and one of the first [fuel]
    readings of the clock after the start is 6000 microseconds or more
    later, [ackPolling] returns [false]; it has made [k] attempts, not more
    than the readings before that one, each begun after a reading less than
    6000 microseconds from the start, and the reading after the last
    attempt was the first at 6000 or more. *)
Theorem ackPolling_times_out fuel s n :
  (forall i, wrap8 (ack (ended s + i)%nat) <> 0) ->
  (n < fuel)%nat ->
  6000 <= wrap32 (now (ticks s + S n)%nat - now (ticks s)) ->
  exists s' k,
    ackPolling board ack now fuel s = Ok false s' /\
    (k <= n)%nat /\
    journal s' = journal s ++ pollEvents ack (I2CAddress (this s)) (ended s) k /\
    (forall i, (i < k)%nat ->
               wrap32 (now (ticks s + S i)%nat - now (ticks s)) < 6000) /\
    6000 <= wrap32 (now (ticks s + S k)%nat - now (ticks s)) /\
    ticks s' = (ticks s + S (S k))%nat.
Proof.
  intros Hnack Hn Hlate.
  destruct (ackPolling_while_returns fuel (ticks s) 1
              (mkState (this s) (txAddress s) (txBuffer s) (rxBuffer s) (ended s)
                 (S (ticks s)) (cells s) (pointer s) (journal s) (polled s)))
    as (r & s1 & Hw).
  { exists (ticks s + S n)%nat. cbn [ticks]. split; [lia | assumption]. }
  assert (Hrun : ackPolling board ack now fuel s =
                 Ok (r =? 0) (mkState (this s1) (txAddress s1) (txBuffer s1) (rxBuffer s1)
                                (ended s1) (ticks s1) (cells s1) (pointer s1) (journal s1)
                                (polled s1 ++ [r =? 0]))).
  { unfold ackPolling. unfold bind at 1. unfold micros at 1.
    unfold bind at 1. rewrite Hw. reflexivity. }
  destruct (ackPolling_run _ _ _ _ Hrun) as [k HP].
  assert (Hb : (r =? 0) = false).
  { rewrite (po_result _ _ _ _ _ _ HP). destruct k; [reflexivity|].
    apply Z.eqb_neq, Hnack. }
  rewrite Hb in *.
  eexists _, k. split; [exact Hrun|].
  split.
  - destruct (Nat.le_gt_cases k n) as [|Hgt]; [assumption|].
    pose proof (po_within _ _ _ _ _ _ HP n Hgt). lia.
  - split; [apply (po_journal _ _ _ _ _ _ HP)|].
    split; [apply (po_within _ _ _ _ _ _ HP)|].
    split; [now apply (po_timeout _ _ _ _ _ _ HP)|].
    apply (po_ticks _ _ _ _ _ _ HP).
Qed.

(** C8, with the byte the attempts carry: [ackPolling] returns once the
    clock lets it; each attempt is a transmission to the device's bus
    address that carries the one byte 0, and none changes a cell; the result
    is [true] exactly when there was an attempt and the last one was
    acknowledged, and [false] only after a reading of the clock 6000
    microseconds or more from the start. *)
Theorem ackPolling_attempts N fuel s :
  clock_expires now N -> (N <= fuel)%nat ->
  exists b s' k,
    ackPolling board ack now fuel s = Ok b s' /\
    journal s' = journal s ++ pollEvents ack (I2CAddress (this s)) (ended s) k /\
    Forall (fun e => exists status, e = Tx (I2CAddress (this s)) [0] status)
      (pollEvents ack (I2CAddress (this s)) (ended s) k) /\
    cells s' = cells s /\
    (b = true <-> exists k', k = S k' /\ wrap8 (ack (ended s + k')%nat) = 0) /\
    (b = false -> 6000 <= wrap32 (now (ticks s + S k)%nat - now (ticks s))).
Proof.
  intros Hclock Hfuel.
  destruct (ackPolling_returns N fuel s Hclock Hfuel) as (b & s' & k & Hpoll & HP).
  exists b, s', k. split; [exact Hpoll|].
  split; [apply (po_journal _ _ _ _ _ _ HP)|].
  split; [apply pollEvents_Forall; eauto|].
  split; [apply (po_cells _ _ _ _ _ _ HP)|].
  split; [|apply (po_timeout _ _ _ _ _ _ HP)].
  rewrite (po_result _ _ _ _ _ _ HP). destruct k as [|k'].
  - split; [discriminate | intros (k' & E & _); discriminate].
  - rewrite Z.eqb_eq. split.
    + intros E. exists k'. auto.
    + intros (k'' & E & H). now inversion E; subst.
Qed.

(** *** The single-byte accessors *)

Lemma read_run fuel address s s1 :
  ackPolling board ack now fuel s = Ok true s1 ->
  read board ack now fuel address s
  = Ok (byteRead ack s1 address) (afterRead ack s1 address 1).
Proof.
  intros Hpoll. unfold read. unfold bind at 1. rewrite Hpoll.
  unfold bind at 1. unfold getThis at 1.
  unfold bind at 1. unfold Wire_beginTransmission at 1.
  unfold bind at 1. rewrite Wire_write_fits
    by (cbn [txBuffer length]; destruct board; cbn; lia).
  unfold bind at 1. rewrite Wire_write_fits
    by (cbn [txBuffer length app]; destruct board; cbn; lia).
  unfold bind at 1. unfold Wire_endTransmission at 1.
  cbn [txBuffer this txAddress rxBuffer ended ticks cells pointer journal polled app].
  unfold bind at 1. unfold Wire_requestFrom at 1.
  cbn [txBuffer this txAddress rxBuffer ended ticks cells pointer journal polled].
  change (wrap8 1) with 1.
  rewrite Z.min_l by (destruct board; cbn; lia).
  change (Z.to_nat 1) with 1%nat. cbn [fetch seq map].
  unfold bind at 1. unfold Wire_read at 1. cbn [rxBuffer].
  unfold ret, byteRead, afterRead, readPointer, readEvents, hiByte, loByte.
  rewrite <- app_assoc. cbn [app].
  cbn [this txAddress txBuffer ended ticks cells pointer journal polled].
  change (Z.of_nat 0) with 0. change (Z.of_nat (Z.to_nat 1)) with 1.
  change (Z.of_nat 1) with 1. rewrite !Z.add_0_r.
  destruct (wrap8 (ack (ended s1)) =? 0); reflexivity.
Qed.

Lemma write_run fuel address data s s1 :
  ackPolling board ack now fuel s = Ok true s1 ->
  write board ack now fuel address data s
  = Ok tt (afterWrite ack s1 address [wrap8 data]).
Proof.
  intros Hpoll. unfold write. unfold bind at 1. rewrite Hpoll.
  unfold bind at 1. unfold getThis at 1.
  unfold bind at 1. unfold Wire_beginTransmission at 1.
  unfold bind at 1. rewrite Wire_write_fits
    by (cbn [txBuffer length]; destruct board; cbn; lia).
  unfold bind at 1. rewrite Wire_write_fits
    by (cbn [txBuffer length app]; destruct board; cbn; lia).
  unfold bind at 1. rewrite Wire_write_fits
    by (cbn [txBuffer length app]; destruct board; cbn; lia).
  unfold bind at 1. unfold Wire_endTransmission at 1.
  cbn [txBuffer this txAddress rxBuffer ended ticks cells pointer journal polled app].
  unfold ret, afterWrite, writeEvent, hiByte, loByte.
  destruct (wrap8 (ack (ended s1)) =? 0); reflexivity.
Qed.

(** C9: [update] first reads; after a read whose poll succeeded it is done
    if the byte read equals [data], having issued no write transmission;
    otherwise it calls [write], which after a successful poll issues one
    write transmission, of [data] at [address].  The byte read is the cell
    at [address] when the part acknowledged the read set-up. *)
Theorem update_writes_iff_different fuel address data s s1 :
  0 <= address < 65536 -> 0 <= data < 256 ->
  ackPolling board ack now fuel s = Ok true s1 ->
  read board ack now fuel address s
  = Ok (byteRead ack s1 address) (afterRead ack s1 address 1) /\
  (wrap8 (ack (ended s1)) = 0 -> byteRead ack s1 address = wrap8 (cells s address)) /\
  List.filter isWrite (newEvents s (afterRead ack s1 address 1)) = [] /\
  (byteRead ack s1 address = data ->
   update board ack now fuel address data s = Ok tt (afterRead ack s1 address 1)) /\
  (byteRead ack s1 address <> data ->
   forall s3,
     ackPolling board ack now fuel (afterRead ack s1 address 1) = Ok true s3 ->
     update board ack now fuel address data s
     = Ok tt (afterWrite ack s3 address [data]) /\
     List.filter isWrite (newEvents s (afterWrite ack s3 address [data]))
     = [Tx (I2CAddress (this s)) [hiByte address; loByte address; data]
          (wrap8 (ack (ended s3)))]).
Proof.
  intros Ha Hd Hpoll.
  destruct (ackPolling_run _ _ _ _ Hpoll) as [k HP].
  pose proof (read_run fuel address s s1 Hpoll) as Hread.
  assert (Hnew : newEvents s (afterRead ack s1 address 1)
                 = pollEvents ack (I2CAddress (this s)) (ended s) k
                   ++ readEvents ack s1 address 1).
  { unfold newEvents. cbn [afterRead journal].
    now rewrite (po_journal _ _ _ _ _ _ HP), <- app_assoc, drop_app_length. }
  split; [exact Hread|]. split.
  { intros Hs. unfold byteRead, readPointer. rewrite Hs. cbn [Z.eqb].
    rewrite address_bytes, wrap16_small, (po_cells _ _ _ _ _ _ HP) by lia.
    reflexivity. }
  split.
  { rewrite Hnew, List.filter_app, filter_pollEvents. reflexivity. }
  split.
  - intros Heq. unfold update. unfold bind at 1. rewrite Hread.
    rewrite Heq, Z.eqb_refl. reflexivity.
  - intros Hne s3 Hpoll3.
    destruct (ackPolling_run _ _ _ _ Hpoll3) as [k3 HP3].
    split.
    + unfold update. unfold bind at 1. rewrite Hread.
      destruct (Z.eqb_spec (byteRead ack s1 address) data); [contradiction|].
      cbn [negb]. rewrite (write_run fuel address data _ s3 Hpoll3).
      now rewrite wrap8_small.
    + unfold newEvents. cbn [afterWrite journal].
      rewrite (po_journal _ _ _ _ _ _ HP3). cbn [afterRead journal this].
      rewrite (po_journal _ _ _ _ _ _ HP), <- !app_assoc, drop_app_length.
      rewrite !List.filter_app, !filter_pollEvents.
      unfold writeEvent. rewrite (po_this _ _ _ _ _ _ HP3).
      cbn [afterRead this]. rewrite (po_this _ _ _ _ _ _ HP). reflexivity.
Qed.

(** *** Objects [get] cannot read *)

(** With [size] above [65536 - bufferSize] the counter [i] of the loop of
    [get] wraps to 0 after the last chunk, and the loop goes on with [ptr] at
    the end of the object. *)
Lemma get_for_overrun address size :
  65536 - bufferSize board < size < 65536 ->
  forall m n k t s,
    Z.of_nat k * bufferSize board = 65536 - Z.of_nat (S m) * bufferSize board ->
    length t = Z.to_nat size ->
    exists e,
      get_for board ack n address size (Z.of_nat k * bufferSize board) t
        (Z.to_nat (Z.of_nat k * bufferSize board)) s = Bad e.
Proof.
  intros Hsize. pose proof bufferSize_pos as Hb.
  induction m as [|m IH]; intros n k t s Hk Hlen.
  - set (i := Z.of_nat k * bufferSize board) in *.
    assert (Hi : i = 65536 - bufferSize board) by lia.
    destruct n as [|n]; cbn [get_for]; (destruct (Z.ltb_spec i size); [|lia]).
    { unfold fail. eauto. }
    destruct (Z.ltb_spec (size - i) (bufferSize board)); [|lia].
    rewrite (wrap8_small (size - i)) by lia.
    unfold bind at 1. rewrite readBytes_run by lia.
    replace (i + bufferSize board) with 65536 by lia.
    change (wrap16 65536) with 0.
    set (t1 := take (Z.to_nat i) t ++ _ ++ _).
    assert (Hlen1 : length t1 = length t).
    { unfold t1. rewrite !length_app, length_take, received_length, length_drop. lia. }
    destruct n as [|n]; cbn [get_for]; (destruct (Z.ltb_spec 0 size); [|lia]).
    { unfold fail. eauto. }
    destruct (Z.ltb_spec (size - 0) (bufferSize board)); [lia|].
    rewrite (wrap8_small (bufferSize board)) by lia.
    unfold bind at 1. rewrite readBytes_overrun by lia. eauto.
  - set (i := Z.of_nat k * bufferSize board) in *.
    assert (Hi : 0 <= i) by (unfold i; lia).
    destruct n as [|n]; cbn [get_for]; (destruct (Z.ltb_spec i size); [|lia]).
    { unfold fail. eauto. }
    destruct (Z.ltb_spec (size - i) (bufferSize board)); [lia|].
    rewrite (wrap8_small (bufferSize board)) by lia.
    unfold bind at 1. rewrite readBytes_run by lia.
    rewrite wrap16_small by lia.
    replace (i + bufferSize board) with (Z.of_nat (S k) * bufferSize board)
      by (unfold i; lia).
    replace (Z.to_nat i + Z.to_nat (bufferSize board))%nat
      with (Z.to_nat (Z.of_nat (S k) * bufferSize board)) by (unfold i; lia).
    apply IH; [lia|].
    rewrite !length_app, length_take, received_length, length_drop. unfold i in *. lia.
Qed.

Lemma get_overrun fuel address t s s1 :
  65536 - bufferSize board < Z.of_nat (length t) < 65536 ->
  ackPolling board ack now fuel s = Ok true s1 ->
  exists e, get board ack now fuel address t s = Bad e.
Proof.
  intros Hsize Hpoll. pose proof bufferSize_pos as Hb.
  unfold get. unfold bind at 1. rewrite Hpoll.
  rewrite sizeof_small by lia.
  destruct (get_for_overrun address (Z.of_nat (length t)) Hsize
              (Z.to_nat (65536 / bufferSize board - 1)) fuel 0%nat t s1) as [e He].
  - destruct (bufferSize_cases board) as [[_ E]|[_ E]]; rewrite E;
      [change (65536 / 32) with 2048 | change (65536 / 128) with 512];
      rewrite Nat2Z.inj_succ, Z2Nat.id by lia; lia.
  - lia.
  - exists e. exact He.
Qed.

(** ** More about the driver *)

(** *** [ackPolling] *)

Lemma ackPolling_while_acked fuel startPolling :
  forall m s code,
    code <> 0 -> (m < fuel)%nat ->
    (forall i, (i < m)%nat -> wrap8 (ack (ended s + i)%nat) <> 0) ->
    wrap8 (ack (ended s + m)%nat) = 0 ->
    (forall i, (i <= m)%nat ->
               wrap32 (wrap32 (now (ticks s + i)%nat) - startPolling) < 6000) ->
    exists s', ackPolling_while board ack now fuel startPolling code s = Ok 0 s'.
Proof.
  induction fuel as [|fuel IH]; intros m s code Hc Hm Hearly Hack Hin; [lia|].
  cbn [ackPolling_while]. destruct (Z.eqb_spec code 0); [contradiction|].
  unfold bind at 1. unfold micros at 1.
  pose proof (Hin 0%nat ltac:(lia)) as H0. rewrite Nat.add_0_r in H0.
  destruct (Z.ltb_spec (wrap32 (wrap32 (now (ticks s)) - startPolling)) 6000); [|lia].
  rewrite poll_attempt. cbn [ended ticks]. rewrite wrap8_idem.
  destruct m as [|m].
  - rewrite Nat.add_0_r in Hack. rewrite Hack.
    destruct fuel; cbn [ackPolling_while Z.eqb]; unfold ret; eauto.
  - apply (IH m).
    + specialize (Hearly 0%nat ltac:(lia)). now rewrite Nat.add_0_r in Hearly.
    + lia.
    + cbn [ended]. intros i Hi.
      replace (S (ended s) + i)%nat with (ended s + S i)%nat by lia.
      apply Hearly. lia.
    + cbn [ended]. replace (S (ended s) + m)%nat with (ended s + S m)%nat by lia.
      exact Hack.
    + cbn [ticks]. intros i Hi.
      replace (S (ticks s) + i)%nat with (ticks s + S i)%nat by lia.
      apply Hin. lia.
Qed.

(** X1: a part that refuses [m] attempts and acknowledges the next one,
    all within 6000 microseconds of the start, makes [ackPolling] return
    [true] after exactly [m + 1] attempts: the loop stops at the first
    acknowledgement, it does not need the clock to run out. *)
Theorem ackPolling_succeeds fuel s m :
  (forall i, (i < m)%nat -> wrap8 (ack (ended s + i)%nat) <> 0) ->
  wrap8 (ack (ended s + m)%nat) = 0 ->
  (forall i, (i <= m)%nat ->
             wrap32 (now (ticks s + S i)%nat - now (ticks s)) < 6000) ->
  (m < fuel)%nat ->
  exists s',
    ackPolling board ack now fuel s = Ok true s' /\
    journal s' = journal s ++ pollEvents ack (I2CAddress (this s)) (ended s) (S m) /\
    ended s' = (ended s + S m)%nat /\
    ticks s' = (ticks s + S (S m))%nat /\
    polled s' = polled s ++ [true] /\
    cells s' = cells s.
Proof.
  intros Hearly Hack Hin Hm.
  destruct (ackPolling_while_acked fuel (wrap32 (now (ticks s))) m
              (mkState (this s) (txAddress s) (txBuffer s) (rxBuffer s) (ended s)
                 (S (ticks s)) (cells s) (pointer s) (journal s) (polled s)) 1)
    as [s1 Hw]; cbn [ended ticks]; auto; try lia.
  { intros i Hi. rewrite wrap32_sub.
    replace (S (ticks s) + i)%nat with (ticks s + S i)%nat by lia. now apply Hin. }
  assert (Hrun : ackPolling board ack now fuel s =
                 Ok true (mkState (this s1) (txAddress s1) (txBuffer s1) (rxBuffer s1)
                            (ended s1) (ticks s1) (cells s1) (pointer s1) (journal s1)
                            (polled s1 ++ [true]))).
  { unfold ackPolling. unfold bind at 1. unfold micros at 1.
    unfold bind at 1. rewrite Hw. reflexivity. }
  destruct (ackPolling_run _ _ _ _ Hrun) as [k HP].
  assert (Hk : k = S m).
  { pose proof (po_result _ _ _ _ _ _ HP) as Hres.
    destruct k as [|k']; [discriminate|].
    symmetry in Hres. apply Z.eqb_eq in Hres.
    destruct (Nat.lt_trichotomy k' m) as [Hlt|[->|Hgt]]; [|reflexivity|].
    - exfalso. now apply (Hearly k' Hlt).
    - exfalso. apply (po_early _ _ _ _ _ _ HP m); [lia | exact Hack]. }
  subst k. eexists. split; [exact Hrun|].
  split; [apply (po_journal _ _ _ _ _ _ HP)|].
  split; [apply (po_ended _ _ _ _ _ _ HP)|].
  split; [apply (po_ticks _ _ _ _ _ _ HP)|].
  split; [apply (po_polled _ _ _ _ _ _ HP)|].
  apply (po_cells _ _ _ _ _ _ HP).
Qed.

(** X2: with a clock that shows 6000 microseconds or more within [N]
    readings of any reading, a call of [ackPolling] that returns has made
    fewer than [N] attempts and read the clock at most [N + 1] times: the
    time it takes on the bus is bounded whatever the part answers. *)
Theorem ackPolling_attempts_bounded N fuel s b s' :
  clock_expires now N ->
  ackPolling board ack now fuel s = Ok b s' ->
  exists k,
    journal s' = journal s ++ pollEvents ack (I2CAddress (this s)) (ended s) k /\
    (k < N)%nat /\ ended s' = (ended s + k)%nat /\
    (ticks s' <= ticks s + N + 1)%nat.
Proof.
  intros Hclock Hpoll.
  destruct (ackPolling_run _ _ _ _ Hpoll) as [k HP]. exists k.
  destruct (Hclock (ticks s)) as (i & Hi & Hlate).
  assert (Hk : (k < N)%nat).
  { destruct (Nat.lt_ge_cases k N) as [|Hge]; [assumption|].
    pose proof (po_within _ _ _ _ _ _ HP (i - ticks s - 1)%nat ltac:(lia)) as Hw.
    replace (ticks s + S (i - ticks s - 1))%nat with i in Hw by lia. lia. }
  split; [apply (po_journal _ _ _ _ _ _ HP)|]. split; [exact Hk|].
  split; [apply (po_ended _ _ _ _ _ _ HP)|].
  rewrite (po_ticks _ _ _ _ _ _ HP). destruct b; lia.
Qed.

(** X3: when the second reading of the clock is already 6000 microseconds
    or more after the first, [ackPolling] returns [false] without a single
    attempt, also for a part that would have acknowledged. *)
Theorem ackPolling_no_attempt fuel s :
  6000 <= wrap32 (now (S (ticks s)) - now (ticks s)) ->
  (1 <= fuel)%nat ->
  ackPolling board ack now fuel s
  = Ok false (mkState (this s) (txAddress s) (txBuffer s) (rxBuffer s) (ended s)
                (S (S (ticks s))) (cells s) (pointer s) (journal s)
                (polled s ++ [false])).
Proof.
  intros Hlate Hfuel. destruct fuel as [|fuel]; [lia|].
  unfold ackPolling. unfold bind at 1. unfold micros at 1.
  unfold bind at 1. cbn [ackPolling_while]. change (1 =? 0) with false. cbv iota.
  unfold bind at 1. unfold micros at 1. cbn [ticks].
  rewrite wrap32_sub.
  destruct (Z.ltb_spec (wrap32 (now (S (ticks s)) - now (ticks s))) 6000); [lia|].
  reflexivity.
Qed.

Lemma ackPolling_while_step (clock : nat -> Z) fuel startPolling code s :
  code <> 0 ->
  ackPolling_while board ack clock (S fuel) startPolling code s
  = if wrap32 (wrap32 (clock (ticks s)) - startPolling) <? 6000 then
      ackPolling_while board ack clock fuel startPolling (wrap8 (ack (ended s)))
        (mkState (this s) (I2CAddress (this s)) [] (rxBuffer s) (S (ended s))
           (S (ticks s)) (cells s) (pointer s)
           (journal s ++ [Tx (I2CAddress (this s)) [0] (wrap8 (ack (ended s)))])
           (polled s))
    else
      Ok code (mkState (this s) (txAddress s) (txBuffer s) (rxBuffer s) (ended s)
                 (S (ticks s)) (cells s) (pointer s) (journal s) (polled s)).
Proof.
  intros Hc. cbn [ackPolling_while].
  destruct (Z.eqb_spec code 0); [contradiction|].
  unfold bind at 1. unfold micros at 1.
  destruct (_ <? 6000); [|reflexivity].
  rewrite poll_attempt. cbn [this ended ticks rxBuffer cells pointer journal polled].
  now rewrite wrap8_idem.
Qed.

Lemma ackPolling_while_offset c fuel :
  forall startPolling startPolling' code s,
    (forall x, wrap32 (wrap32 (x + c) - startPolling')
               = wrap32 (wrap32 x - startPolling)) ->
    ackPolling_while board ack (fun n => now n + c) fuel startPolling' code s
    = ackPolling_while board ack now fuel startPolling code s.
Proof.
  induction fuel as [|fuel IH]; intros st st' code s Hst; [reflexivity|].
  destruct (Z.eq_dec code 0) as [->|Hc]; [reflexivity|].
  rewrite !ackPolling_while_step by assumption.
  rewrite Hst.
  destruct (_ <? 6000); [|reflexivity].
  now apply IH.
Qed.

(** X4: [ackPolling] uses the clock through differences of readings modulo
    2^32 only: with every reading moved by the same amount, as when the
    counter of [micros()] is about to roll over, it does the same and
    returns the same. *)
Theorem ackPolling_clock_offset c fuel s :
  ackPolling board ack (fun n => now n + c) fuel s = ackPolling board ack now fuel s.
Proof.
  unfold ackPolling, bind, micros.
  rewrite (ackPolling_while_offset c fuel (wrap32 (now (ticks s)))).
  - reflexivity.
  - intros x. rewrite !wrap32_sub. f_equal. lia.
Qed.

(** *** [init] and [getStatus] *)

(** X5: [init] polls once and records the outcome: with a clock that lets
    the poll end it returns, and [getStatus] then gives [EEPROM_FOUND] if
    there was an attempt and the last one was acknowledged and
    [EEPROM_NOT_FOUND] otherwise, never [UNKNOWN]; the bus address, the
    buffer and the cells of the part are what they were. *)
Theorem init_sets_status N fuel s :
  clock_expires now N -> (N <= fuel)%nat ->
  exists st s' k,
    (init board ack now fuel ;; getStatus) s = Ok st s' /\
    journal s' = journal s ++ pollEvents ack (I2CAddress (this s)) (ended s) k /\
    st = EEPROMStatus (this s') /\
    st <> UNKNOWN /\
    (st = EEPROM_FOUND <-> exists k', k = S k' /\ wrap8 (ack (ended s + k')%nat) = 0) /\
    (st = EEPROM_NOT_FOUND ->
     6000 <= wrap32 (now (ticks s + S k)%nat - now (ticks s))) /\
    I2CAddress (this s') = I2CAddress (this s) /\
    readBuffer (this s') = readBuffer (this s) /\
    cells s' = cells s.
Proof.
  intros Hclock Hfuel.
  destruct (ackPolling_returns N fuel s Hclock Hfuel) as (b & s1 & k & Hpoll & HP).
  exists (if b then EEPROM_FOUND else EEPROM_NOT_FOUND).
  exists (mkState (mkE24LC256 (if b then EEPROM_FOUND else EEPROM_NOT_FOUND)
                     (I2CAddress (this s1)) (readBuffer (this s1)))
            (txAddress s1) (txBuffer s1) (rxBuffer s1) (ended s1) (ticks s1)
            (cells s1) (pointer s1) (journal s1) (polled s1)).
  exists k.
  split.
  { unfold bind at 1. unfold init. unfold bind at 1. rewrite Hpoll. reflexivity. }
  cbn [this journal cells EEPROMStatus I2CAddress readBuffer].
  rewrite (po_this _ _ _ _ _ _ HP).
  split; [apply (po_journal _ _ _ _ _ _ HP)|].
  split; [reflexivity|].
  split; [destruct b; discriminate|].
  split.
  { pose proof (po_result _ _ _ _ _ _ HP) as Hres. split.
    - intros Hst. destruct b; [|discriminate].
      destruct k as [|k']; [discriminate|].
      exists k'. split; [reflexivity|]. symmetry in Hres. now apply Z.eqb_eq in Hres.
    - intros (k' & -> & Hack). rewrite Hack in Hres. now subst b. }
  split.
  { intros Hst. apply (po_timeout _ _ _ _ _ _ HP). destruct b; [discriminate|reflexivity]. }
  split; [reflexivity|]. split; [reflexivity|].
  apply (po_cells _ _ _ _ _ _ HP).
Qed.

(** *** What a block read leaves alone *)

Lemma readBytes_for_frame n :
  forall buf ptr s r s',
    readBytes_for n buf ptr s = Ok r s' ->
    this s' = this s /\ cells s' = cells s /\ polled s' = polled s /\
    journal s' = journal s /\ ended s' = ended s /\ ticks s' = ticks s /\
    length r = length buf.
Proof.
  induction n as [|n IH]; intros buf ptr s r s' H.
  - cbn [readBytes_for] in H. unfold ret in H. inversion H; subst. auto 10.
  - cbn [readBytes_for] in H. unfold bind at 1 in H. unfold Wire_read at 1 in H.
    destruct (rxBuffer s) as [|v rx];
      unfold bind at 1 in H; unfold store at 1 in H;
      (destruct (decide (ptr < length buf)%nat); [|discriminate]);
      apply IH in H; cbn [this cells polled journal ended ticks] in H;
      rewrite length_insert in H; exact H.
Qed.

Lemma readBytes_frame address buf ptr nBytes s r s' :
  readBytes board ack address buf ptr nBytes s = Ok r s' ->
  this s' = this s /\ cells s' = cells s /\ polled s' = polled s /\
  journal s' = journal s ++ readEvents ack s address nBytes /\
  ended s' = S (ended s) /\ ticks s' = ticks s /\ length r = length buf.
Proof.
  unfold readBytes.
  unfold bind at 1. unfold getThis at 1.
  unfold bind at 1. unfold Wire_beginTransmission at 1.
  unfold bind at 1. rewrite Wire_write_fits
    by (cbn [txBuffer length]; destruct board; cbn; lia).
  unfold bind at 1. rewrite Wire_write_fits
    by (cbn [txBuffer length app]; destruct board; cbn; lia).
  unfold bind at 1. unfold Wire_endTransmission at 1.
  cbn [txBuffer this txAddress rxBuffer ended ticks cells pointer journal polled app].
  unfold bind at 1. unfold Wire_requestFrom at 1.
  cbn [txBuffer this txAddress rxBuffer ended ticks cells pointer journal polled].
  intros H. apply readBytes_for_frame in H.
  cbn [this cells polled journal ended ticks] in H.
  destruct H as (H1 & H2 & H3 & H4 & H5 & H6 & H7).
  repeat (split; [assumption|]).
  split.
  - rewrite H2. cbn [deliver pageWrite].
    destruct (wrap8 (ack (ended s)) =? 0); reflexivity.
  - split; [assumption|].
    split; [|auto].
    rewrite H4, <- app_assoc. reflexivity.
Qed.

Lemma filter_nothing {A} (f : A -> bool) (l : list A) :
  Forall (fun e => f e = false) l -> List.filter f l = [].
Proof.
  induction 1 as [|e l He _ IH]; [reflexivity|].
  cbn [List.filter]. now rewrite He.
Qed.

Lemma get_for_frame n :
  forall address size i t ptr s r s',
    get_for board ack n address size i t ptr s = Ok r s' ->
    this s' = this s /\ cells s' = cells s /\ polled s' = polled s /\
    length r = length t /\
    exists evs, journal s' = journal s ++ evs /\
                Forall (fun e => isWrite e = false /\
                                 targetOf e = I2CAddress (this s)) evs.
Proof.
  induction n as [|n IH]; intros address size i t ptr s r s' H.
  - cbn [get_for] in H. destruct (i <? size); [discriminate|].
    unfold ret in H. inversion H; subst.
    repeat (split; [reflexivity|]). exists []. now rewrite app_nil_r.
  - cbn [get_for] in H. destruct (i <? size).
    + cbv zeta in H. unfold bind at 1 in H.
      destruct (readBytes _ _ _ _ _ _ _) as [t1 s1|e] eqn:Hrd; [|discriminate].
      apply readBytes_frame in Hrd.
      destruct Hrd as (R1 & R2 & R3 & R4 & _ & _ & R7).
      apply IH in H. destruct H as (H1 & H2 & H3 & H4 & evs & H5 & H6).
      rewrite H1, H2, H3, H4, H5, R1, R2, R3, R4, R7.
      repeat (split; [reflexivity|]).
      eexists. split; [rewrite <- app_assoc; reflexivity|].
      apply Forall_app. split; [unfold readEvents; repeat constructor|].
      rewrite R1 in H6. exact H6.
    + unfold ret in H. inversion H; subst.
      repeat (split; [reflexivity|]). exists []. now rewrite app_nil_r.
Qed.

(** *** [get] *)

(** X6: [get] only reads.  Whatever the object, the address, the answers of
    the part and the clock, a call that returns has changed no cell of the
    part and nothing of the driver object, has issued no write
    transmission, has polled once, and gives back an object of the size it
    was given. *)
Theorem get_only_reads fuel address t s r s' :
  get board ack now fuel address t s = Ok r s' ->
  cells s' = cells s /\ this s' = this s /\ length r = length t /\
  List.filter isWrite (newEvents s s') = [] /\
  exists ready, newPolls s s' = [ready] /\ (ready = false -> r = t).
Proof.
  unfold get. cbv zeta. unfold bind at 1.
  destruct (ackPolling board ack now fuel s) as [ready s1|e] eqn:Hpoll; [|discriminate].
  destruct (ackPolling_run _ _ _ _ Hpoll) as [k HP].
  pose proof (po_journal _ _ _ _ _ _ HP) as Hj.
  pose proof (po_polled _ _ _ _ _ _ HP) as Hp.
  destruct ready.
  - intros H. apply get_for_frame in H.
    destruct H as (H1 & H2 & H3 & H4 & evs & H5 & H6).
    rewrite H2, H1, (po_cells _ _ _ _ _ _ HP), (po_this _ _ _ _ _ _ HP).
    split; [reflexivity|]. split; [reflexivity|]. split; [assumption|].
    split.
    + unfold newEvents. rewrite H5, Hj, <- app_assoc, drop_app_length.
      rewrite List.filter_app, filter_pollEvents. cbn [app].
      apply filter_nothing. eapply Forall_impl; [exact H6|]. now intros e [He _].
    + exists true. split; [|discriminate].
      unfold newPolls. rewrite H3, Hp, drop_app_length. reflexivity.
  - unfold ret. intros H. inversion H; subst r s'.
    rewrite (po_cells _ _ _ _ _ _ HP), (po_this _ _ _ _ _ _ HP).
    split; [reflexivity|]. split; [reflexivity|]. split; [reflexivity|].
    split.
    + unfold newEvents. rewrite Hj, drop_app_length. apply filter_pollEvents.
    + exists false. split; [|reflexivity].
      unfold newPolls. rewrite Hp, drop_app_length. reflexivity.
Qed.

(** X7: [get] returns what the part holds: for an object of at most
    [65536 - bufferSize] bytes it returns, and when its poll succeeded and
    every read set-up was acknowledged the result is the content of the
    [length t] cells from [address] on, whatever the object held before. *)
Theorem get_returns_stored N fuel address t s :
  clock_expires now N -> (N <= fuel)%nat ->
  (readCount board (sizeof t) <= fuel)%nat ->
  Z.of_nat (length t) <= 65536 - bufferSize board ->
  0 <= address < 65536 ->
  exists r s',
    get board ack now fuel address t s = Ok r s' /\
    (newPolls s s' = [true] ->
     Forall (fun e => refused e = false) (newEvents s s') ->
     r = storedAt (cells s) address (length t) /\
     forall i, (i < length t)%nat ->
               r !! i = Some (wrap8 (cells s (wrap16 (address + Z.of_nat i))))).
Proof.
  intros Hclock Hfuel Hcount Hsize Ha.
  destruct (get_run N fuel address t s Hclock Hfuel Hcount Hsize)
    as (ready & s1 & k & r & s' & Hpoll & HP & Hget & Hp & _ & _ & _ & Ht).
  exists r, s'. split; [exact Hget|].
  intros Hpolls Hevents.
  unfold newPolls in Hpolls. rewrite Hp, drop_app_length in Hpolls.
  inversion Hpolls; subst ready.
  destruct (Ht eq_refl) as [Hj Hdata].
  unfold newEvents in Hevents.
  rewrite Hj, (po_journal _ _ _ _ _ _ HP), <- !app_assoc, drop_app_length in Hevents.
  apply Forall_app in Hevents. destruct Hevents as [_ Hreads].
  rewrite Hdata by (intros j Hj'; eapply chunkEvents_refused; eauto).
  rewrite wrap16_small by lia.
  split; [reflexivity|].
  intros i Hi. now apply storedAt_lookup.
Qed.

(** X8: an object of more than [65536 - bufferSize] bytes cannot be read:
    after a successful poll no run of [get] returns, because the 16-bit
    counter of its loop wraps before it reaches the size and the reads go on
    beyond the end of the object. *)
Theorem get_too_large_never_returns fuel address t s s1 :
  65536 - bufferSize board < Z.of_nat (length t) < 65536 ->
  ackPolling board ack now fuel s = Ok true s1 ->
  forall r s', get board ack now fuel address t s <> Ok r s'.
Proof.
  intros Hlen Hpoll r s' Hget.
  destruct (get_overrun fuel address t s s1 Hlen Hpoll) as [e He].
  rewrite He in Hget. discriminate.
Qed.

(** *** [read], [write] and [update] *)

(** X10: when the poll fails [write] returns as after a success, with the
    byte dropped: no write transmission was issued and no cell changed. *)
Theorem write_not_ready fuel address data s s1 :
  ackPolling board ack now fuel s = Ok false s1 ->
  write board ack now fuel address data s = Ok tt s1 /\
  cells s1 = cells s /\
  List.filter isWrite (newEvents s s1) = [] /\
  Forall (fun e => isPoll e = true) (newEvents s s1).
Proof.
  intros Hpoll.
  destruct (ackPolling_run _ _ _ _ Hpoll) as [k HP].
  split; [unfold write; unfold bind at 1; rewrite Hpoll; reflexivity|].
  split; [apply (po_cells _ _ _ _ _ _ HP)|].
  unfold newEvents. rewrite (po_journal _ _ _ _ _ _ HP), drop_app_length.
  split; [apply filter_pollEvents | apply pollEvents_isPoll].
Qed.

(** X11: after a successful poll [write] issues one transmission, the two
    address bytes and the byte; if the part acknowledges it, the cell at
    [address] holds the byte and every other cell is what it was; if not,
    no cell changed.  [write] returns the same way in both cases. *)
Theorem write_stores_one_cell fuel address data s s1 :
  0 <= address < 65536 ->
  ackPolling board ack now fuel s = Ok true s1 ->
  exists s',
    write board ack now fuel address data s = Ok tt s' /\
    List.filter (fun e => negb (isPoll e)) (newEvents s s')
    = [Tx (I2CAddress (this s)) [hiByte address; loByte address; wrap8 data]
         (wrap8 (ack (ended s1)))] /\
    (wrap8 (ack (ended s1)) = 0 ->
     cells s' address = wrap8 data /\
     forall x, x <> address -> cells s' x = cells s x) /\
    (wrap8 (ack (ended s1)) <> 0 -> cells s' = cells s).
Proof.
  intros Ha Hpoll.
  destruct (ackPolling_run _ _ _ _ Hpoll) as [k HP].
  exists (afterWrite ack s1 address [wrap8 data]).
  split; [now apply write_run|].
  split.
  { unfold newEvents, afterWrite. cbn [journal].
    rewrite (po_journal _ _ _ _ _ _ HP), <- app_assoc, drop_app_length.
    rewrite List.filter_app.
    rewrite (filter_nothing (fun e => negb (isPoll e))).
    - unfold writeEvent. cbn [app List.filter isPoll negb].
      now rewrite (po_this _ _ _ _ _ _ HP).
    - eapply Forall_impl; [apply pollEvents_isPoll|].
      intros e He. cbv beta in He. now rewrite He. }
  unfold afterWrite. cbn [cells].
  split.
  - intros Hack. rewrite Hack. cbn [Z.eqb fst pageWrite].
    rewrite address_bytes by assumption.
    rewrite Z.eqb_refl. split; [reflexivity|].
    intros x Hx. apply Z.eqb_neq in Hx. rewrite Hx.
    now rewrite (po_cells _ _ _ _ _ _ HP).
  - intros Hack. apply Z.eqb_neq in Hack. rewrite Hack. cbn [fst].
    apply (po_cells _ _ _ _ _ _ HP).
Qed.

(** X12: a byte written is the byte read back: [write] followed by [read]
    of the same address returns the byte given to [write], cut to eight
    bits, when both polls succeed and the part acknowledges the write and
    the read set-up. *)
Theorem write_read_round_trip fuel address data s s1 s3 :
  0 <= address < 65536 ->
  ackPolling board ack now fuel s = Ok true s1 ->
  wrap8 (ack (ended s1)) = 0 ->
  ackPolling board ack now fuel (afterWrite ack s1 address [wrap8 data]) = Ok true s3 ->
  wrap8 (ack (ended s3)) = 0 ->
  (write board ack now fuel address data ;; read board ack now fuel address) s
  = Ok (wrap8 data) (afterRead ack s3 address 1).
Proof.
  intros Ha Hpoll1 Hack1 Hpoll3 Hack3.
  destruct (ackPolling_run _ _ _ _ Hpoll3) as [k HP].
  unfold bind at 1. rewrite (write_run _ _ _ _ _ Hpoll1).
  rewrite (read_run _ _ _ _ Hpoll3). f_equal.
  unfold byteRead, readPointer. rewrite Hack3. cbn [Z.eqb].
  rewrite address_bytes, wrap16_small by assumption.
  rewrite (po_cells _ _ _ _ _ _ HP).
  unfold afterWrite. cbn [cells]. rewrite Hack1. cbn [Z.eqb fst pageWrite].
  rewrite address_bytes by assumption.
  rewrite Z.eqb_refl. apply wrap8_idem.
Qed.

(** What the three byte accessors leave of the driver object, for any run
    that returns. *)
Lemma read_frame fuel address s v s' :
  read board ack now fuel address s = Ok v s' ->
  exists s1, ackPolling board ack now fuel s = Ok true s1 /\
             v = byteRead ack s1 address /\ s' = afterRead ack s1 address 1.
Proof.
  intros H.
  destruct (ackPolling board ack now fuel s) as [[|] s1|e] eqn:Hpoll.
  - rewrite (read_run _ _ _ _ Hpoll) in H. inversion H; subst. eauto.
  - unfold read in H. unfold bind at 1 in H. rewrite Hpoll in H. discriminate.
  - unfold read in H. unfold bind at 1 in H. rewrite Hpoll in H. discriminate.
Qed.

Lemma write_frame fuel address data s s' :
  write board ack now fuel address data s = Ok tt s' ->
  exists b s1, ackPolling board ack now fuel s = Ok b s1 /\
               s' = if b then afterWrite ack s1 address [wrap8 data] else s1.
Proof.
  intros H.
  destruct (ackPolling board ack now fuel s) as [[|] s1|e] eqn:Hpoll.
  - rewrite (write_run _ _ _ _ _ Hpoll) in H. inversion H; subst. eauto.
  - unfold write in H. unfold bind at 1 in H. rewrite Hpoll in H.
    unfold ret in H. inversion H; subst. eauto.
  - unfold write in H. unfold bind at 1 in H. rewrite Hpoll in H. discriminate.
Qed.

(** X13: what [update] leaves in the part: after a call that returned,
    with every poll successful and the read set-up and the write (if there
    was one) acknowledged, the cell at [address] holds [data] and every
    other cell is what it was. *)
Theorem update_leaves_data fuel address data s s' :
  0 <= address < 65536 -> 0 <= data < 256 ->
  update board ack now fuel address data s = Ok tt s' ->
  Forall (fun b => b = true) (newPolls s s') ->
  Forall (fun e => refused e = false) (newEvents s s') ->
  wrap8 (cells s' address) = data /\
  (forall x, x <> address -> cells s' x = cells s x) /\
  (length (List.filter isWrite (newEvents s s')) <= 1)%nat.
Proof.
  intros Ha Hd Hup Hpolls Hevents.
  unfold update in Hup. unfold bind at 1 in Hup.
  destruct (read board ack now fuel address s) as [v s2|e] eqn:Hread; [|discriminate].
  apply read_frame in Hread. destruct Hread as (s1 & Hpoll1 & -> & ->).
  destruct (ackPolling_run _ _ _ _ Hpoll1) as [k1 HP1].
  assert (Hj2 : journal (afterRead ack s1 address 1)
                = journal s ++ pollEvents ack (I2CAddress (this s)) (ended s) k1
                            ++ readEvents ack s1 address 1).
  { unfold afterRead. cbn [journal].
    now rewrite (po_journal _ _ _ _ _ _ HP1), <- app_assoc. }
  assert (Hp2 : polled (afterRead ack s1 address 1) = polled s ++ [true]).
  { unfold afterRead. cbn [polled]. apply (po_polled _ _ _ _ _ _ HP1). }
  assert (Hset : forall evs,
             Forall (fun e => refused e = false)
               (pollEvents ack (I2CAddress (this s)) (ended s) k1
                  ++ readEvents ack s1 address 1 ++ evs) ->
             wrap8 (ack (ended s1)) = 0).
  { intros evs HF. apply Forall_app in HF. destruct HF as [_ HF].
    apply Forall_app in HF. destruct HF as [HF _].
    unfold readEvents in HF. apply Forall_cons in HF. destruct HF as [HF _].
    cbn [refused] in HF. now apply negb_false_iff, Z.eqb_eq in HF. }
  assert (Hbyte : wrap8 (ack (ended s1)) = 0 ->
                  byteRead ack s1 address = wrap8 (cells s address)).
  { intros Hack. unfold byteRead, readPointer. rewrite Hack. cbn [Z.eqb].
    rewrite address_bytes, wrap16_small by assumption.
    now rewrite (po_cells _ _ _ _ _ _ HP1). }
  destruct (Z.eqb_spec (byteRead ack s1 address) data) as [Heq|Hne];
    cbn [negb] in Hup.
  - unfold ret in Hup. inversion Hup; subst s'.
    unfold newEvents in Hevents |- *.
    rewrite Hj2, drop_app_length in Hevents |- *.
    rewrite <- (app_nil_r (readEvents _ _ _ _)) in Hevents.
    apply Hset in Hevents.
    unfold afterRead. cbn [cells]. rewrite (po_cells _ _ _ _ _ _ HP1).
    split; [rewrite <- Hbyte by assumption; exact Heq|].
    split; [reflexivity|].
    rewrite List.filter_app, filter_pollEvents. cbn. lia.
  - apply write_frame in Hup. destruct Hup as (b3 & s3 & Hpoll3 & ->).
    destruct (ackPolling_run _ _ _ _ Hpoll3) as [k3 HP3].
    pose proof (po_polled _ _ _ _ _ _ HP3) as Hp3. rewrite Hp2 in Hp3.
    pose proof (po_journal _ _ _ _ _ _ HP3) as Hj3. rewrite Hj2 in Hj3.
    destruct b3.
    + unfold newEvents in Hevents |- *. unfold afterWrite in Hevents |- *.
      cbn [journal cells] in Hevents |- *.
      rewrite Hj3, <- !app_assoc, drop_app_length in Hevents |- *.
      pose proof (Hset _ Hevents) as Hack1.
      apply Forall_app in Hevents. destruct Hevents as [_ Hevents].
      apply Forall_app in Hevents. destruct Hevents as [_ Hevents].
      apply Forall_app in Hevents. destruct Hevents as [_ Hevents].
      apply Forall_cons in Hevents. destruct Hevents as [Hwr _].
      unfold writeEvent in Hwr. cbn [refused] in Hwr.
      apply negb_false_iff in Hwr. rewrite Hwr. cbn [fst pageWrite].
      rewrite address_bytes by assumption.
      split; [rewrite Z.eqb_refl, wrap8_idem; now apply wrap8_small|].
      split.
      * intros x Hx. apply Z.eqb_neq in Hx. rewrite Hx.
        rewrite (po_cells _ _ _ _ _ _ HP3). unfold afterRead. cbn [cells].
        apply (f_equal (fun c => c x) (po_cells _ _ _ _ _ _ HP1)).
      * rewrite !List.filter_app, !filter_pollEvents. cbn. lia.
    + exfalso. unfold newPolls in Hpolls.
      rewrite Hp3, <- app_assoc, drop_app_length in Hpolls.
      apply Forall_cons in Hpolls. destruct Hpolls as [_ Hpolls].
      apply Forall_cons in Hpolls. destruct Hpolls as [Hf _]. discriminate.
Qed.

(** X14: only [init] touches the status.  Calls of [read], [write] and
    [update] that return leave the whole driver object as it was; a call of
    [put] that returns leaves the status and the bus address as they were
    and [readBuffer] at its 64 cells, so that [getStatus] answers after it
    what it answered before. *)
Theorem status_changes_in_init_only fuel address data t s :
  (forall v s', read board ack now fuel address s = Ok v s' -> this s' = this s) /\
  (forall s', write board ack now fuel address data s = Ok tt s' -> this s' = this s) /\
  (forall s', update board ack now fuel address data s = Ok tt s' -> this s' = this s) /\
  (0 <= address < 65536 -> length (readBuffer (this s)) = 64%nat ->
   forall r s',
     put board ack now fuel address t s = Ok r s' ->
     I2CAddress (this s') = I2CAddress (this s) /\
     length (readBuffer (this s')) = 64%nat /\
     forall st s0, getStatus s = Ok st s0 -> getStatus s' = Ok st s').
Proof.
  assert (Hread : forall s0 v s', read board ack now fuel address s0 = Ok v s' ->
                                  this s' = this s0).
  { intros s0 v s' H. apply read_frame in H. destruct H as (s1 & Hpoll & _ & ->).
    destruct (ackPolling_run _ _ _ _ Hpoll) as [k HP].
    unfold afterRead. cbn [this]. apply (po_this _ _ _ _ _ _ HP). }
  assert (Hwrite : forall s0 s', write board ack now fuel address data s0 = Ok tt s' ->
                                 this s' = this s0).
  { intros s0 s' H. apply write_frame in H. destruct H as (b & s1 & Hpoll & ->).
    destruct (ackPolling_run _ _ _ _ Hpoll) as [k HP].
    destruct b; unfold afterWrite; cbn [this]; apply (po_this _ _ _ _ _ _ HP). }
  split; [apply Hread|]. split; [apply Hwrite|]. split.
  - intros s' H. unfold update in H. unfold bind at 1 in H.
    destruct (read board ack now fuel address s) as [v s2|e] eqn:Hr; [|discriminate].
    apply Hread in Hr.
    destruct (negb (v =? data)).
    + apply Hwrite in H. congruence.
    + unfold ret in H. inversion H; subst. exact Hr.
  - intros Ha Hbuf r s' Hput.
    destruct (put_sound fuel address t s Ha Hbuf) as [_ Hs].
    destruct (Hs r s' Hput) as (_ & Hlen & ps & evs & HR).
    destruct (PutRun_extends _ _ _ _ _ _ _ _ _ HR) as (_ & _ & Hi).
    split; [exact Hi|]. split; [exact Hlen|].
    intros st s0 Hst. unfold getStatus in *. inversion Hst; subst st s0.
    f_equal. clear - HR.
    induction HR as [address ptr remaining s Hr
                    |address ptr remaining s s1 k Hr Hpoll HP
                    |address ptr remaining s s1 k ps evs s' Hr Hpoll HP Hsame HR IH
                    |address ptr remaining s s1 k s4 b4 k4 ps evs s' Hr Hpoll HP Hdiff
                       Hpoll4 HP4 HR IH].
    + reflexivity.
    + now rewrite (po_this _ _ _ _ _ _ HP).
    + rewrite IH. cbn [putRead withBuffer afterRead this EEPROMStatus].
      now rewrite (po_this _ _ _ _ _ _ HP).
    + rewrite IH, (po_this _ _ _ _ _ _ HP4).
      cbn [putRead withBuffer afterRead afterWrite this EEPROMStatus].
      now rewrite (po_this _ _ _ _ _ _ HP).
Qed.

(** *** More about [put] *)

Lemma PutRun_frame fuel t address ptr remaining s ps evs s' :
  PutRun board ack now fuel t address ptr remaining s ps evs s' ->
  0 <= address < 65536 -> 0 <= remaining -> address + remaining <= 65536 ->
  (ptr + Z.to_nat remaining <= length t)%nat ->
  forall x, ~ (address <= x < address + remaining) -> cells s' x = cells s x.
Proof.
  intros HR.
  induction HR as [address ptr remaining s Hr
                 |address ptr remaining s s1 k Hr Hpoll HP
                 |address ptr remaining s s1 k ps evs s' Hr Hpoll HP Hsame HR IH
                 |address ptr remaining s s1 k s4 b4 k4 ps evs s' Hr Hpoll HP Hdiff
                    Hpoll4 HP4 HR IH];
    intros Ha Hrem Hend Hp x Hx.
  - reflexivity.
  - now rewrite (po_cells _ _ _ _ _ _ HP).
  - destruct (nbytesAt_bounds address remaining Ha Hr) as (Hnb1 & Hnb2 & Hnb3).
    set (nb := nbytesAt board address remaining) in *.
    destruct (next_in_range address remaining nb Ha Hend (conj (proj1 Hnb1) Hnb2))
      as (Hend' & Hw & Hout).
    rewrite IH; try (rewrite ?Hw; lia).
    + cbn [putRead withBuffer afterRead cells].
      now rewrite (po_cells _ _ _ _ _ _ HP).
    + apply wrap16_range.
    + rewrite Hw. now apply Hout.
  - destruct (nbytesAt_bounds address remaining Ha Hr) as (Hnb1 & Hnb2 & Hnb3).
    set (nb := nbytesAt board address remaining) in *.
    destruct (next_in_range address remaining nb Ha Hend (conj (proj1 Hnb1) Hnb2))
      as (Hend' & Hw & Hout).
    assert (Hlen : length (map wrap8 (chunkAt t ptr nb)) = Z.to_nat nb)
      by (rewrite length_map; apply chunkAt_length; lia).
    rewrite IH; try (rewrite ?Hw; lia).
    + rewrite (po_cells _ _ _ _ _ _ HP4).
      unfold afterWrite. cbn [cells].
      destruct (wrap8 (ack (ended (putRead board ack s1 address remaining))) =? 0);
        cbn [fst putRead withBuffer afterRead cells].
      * rewrite address_bytes by assumption.
        rewrite pageWrite_inside.
        -- rewrite Hlen, Z2Nat.id by lia.
           destruct (Z.leb_spec address x); destruct (Z.ltb_spec x (address + nb));
             cbn [andb]; try lia;
             now rewrite (po_cells _ _ _ _ _ _ HP).
        -- lia.
        -- rewrite Hlen, Z2Nat.id by lia. apply chunk_in_device_page; lia.
      * now rewrite (po_cells _ _ _ _ _ _ HP).
    + apply wrap16_range.
    + rewrite Hw. now apply Hout.
Qed.

(** X15: [put] changes cells of the object's range only: for an object
    that ends within the 16-bit address space, a call that returns, in
    whatever way (all chunks done or a poll failed on the way, writes
    acknowledged or not), leaves every cell outside
    [address, address + sizeof t) as it was. *)
Theorem put_touches_only_its_range fuel address t s r s' :
  0 <= address < 65536 -> address + Z.of_nat (length t) <= 65536 ->
  length (readBuffer (this s)) = 64%nat ->
  put board ack now fuel address t s = Ok r s' ->
  forall x, ~ (address <= x < address + Z.of_nat (length t)) -> cells s' x = cells s x.
Proof.
  intros Ha Hend Hbuf Hput x Hx.
  destruct (put_sound fuel address t s Ha Hbuf) as [_ Hs].
  destruct (Hs r s' Hput) as (_ & _ & ps & evs & HR).
  destruct (sizeof_le t) as [Hs1 Hs2].
  apply (PutRun_frame _ _ _ _ _ _ _ _ _ HR); try lia.
Qed.

(** X16: what [put] leaves in the part: for an object of bytes that ends
    within the address space, [put] returns, and when every poll succeeded
    and the part acknowledged every read set-up and every write, the cells
    from [address] on hold the object, byte for byte. *)
Theorem put_stores_object N fuel address t s :
  clock_expires now N -> (N <= fuel)%nat -> (length t <= fuel)%nat ->
  bytes t -> Z.of_nat (length t) < 65536 ->
  0 <= address < 65536 -> address + Z.of_nat (length t) <= 65536 ->
  length (readBuffer (this s)) = 64%nat ->
  exists s',
    put board ack now fuel address t s = Ok t s' /\
    (Forall (fun b => b = true) (newPolls s s') ->
     Forall (fun e => refused e = false) (newEvents s s') ->
     storedAt (cells s') address (length t) = t /\
     forall i v, t !! i = Some v -> wrap8 (cells s' (address + Z.of_nat i)) = v).
Proof.
  intros Hclock Hfuel Hlenf Hb Hsize Ha Hend Hbuf.
  assert (Hsz : sizeof t = Z.of_nat (length t)) by (apply sizeof_small; lia).
  destruct (put_run N fuel address t s Hclock Hfuel ltac:(lia) Ha Hbuf)
    as (ps & evs & s' & Hput & HR & _).
  exists s'. split; [exact Hput|].
  intros Hpolls Hevents.
  destruct (PutRun_new _ _ _ _ _ _ _ _ _ HR) as [Hnp Hne].
  rewrite Hnp in Hpolls. rewrite Hne in Hevents.
  destruct (PutRun_stores _ _ _ _ _ _ _ _ _ HR Hb Ha) as [Hst _];
    try (rewrite ?Hsz; lia); auto.
  rewrite Hsz, Nat2Z.id in Hst.
  unfold chunkAt in Hst. rewrite drop_0, Nat2Z.id, take_ge in Hst by lia.
  split; [exact Hst|].
  intros i v Hi.
  assert (Hlt : (i < length t)%nat) by (apply lookup_lt_is_Some; eauto).
  pose proof (storedAt_lookup (cells s') address (length t) i Hlt) as Hl.
  rewrite Hst, Hi in Hl.
  rewrite wrap16_small in Hl by lia. congruence.
Qed.

(** X17: [put] is idempotent on the part: a second [put] of the same object
    at the same address, after a first one whose polls all succeeded,
    issues no write transmission and changes no cell, provided the part
    refused no read set-up and no write of the two calls. *)
Theorem put_twice_writes_once N fuel address t s :
  clock_expires now N -> (N <= fuel)%nat -> (length t <= fuel)%nat ->
  bytes t -> Z.of_nat (length t) < 65536 ->
  0 <= address < 65536 -> address + Z.of_nat (length t) <= 65536 ->
  length (readBuffer (this s)) = 64%nat ->
  exists s1 s2,
    put board ack now fuel address t s = Ok t s1 /\
    put board ack now fuel address t s1 = Ok t s2 /\
    (Forall (fun b => b = true) (newPolls s s1) ->
     Forall (fun e => refused e = false) (newEvents s s2) ->
     List.filter isWrite (newEvents s1 s2) = [] /\ cells s2 = cells s1).
Proof.
  intros Hclock Hfuel Hlenf Hb Hsize Ha Hend Hbuf.
  assert (Hsz : sizeof t = Z.of_nat (length t)) by (apply sizeof_small; lia).
  destruct (put_run N fuel address t s Hclock Hfuel ltac:(lia) Ha Hbuf)
    as (ps1 & evs1 & s1 & Hput1 & HR1 & Hbuf1).
  destruct (put_run N fuel address t s1 Hclock Hfuel ltac:(lia) Ha Hbuf1)
    as (ps2 & evs2 & s2 & Hput2 & HR2 & _).
  exists s1, s2. split; [exact Hput1|]. split; [exact Hput2|].
  intros Hpolls Hevents.
  destruct (PutRun_new _ _ _ _ _ _ _ _ _ HR1) as [Hnp1 _].
  destruct (PutRun_new _ _ _ _ _ _ _ _ _ HR2) as [_ Hne2].
  destruct (PutRun_extends _ _ _ _ _ _ _ _ _ HR1) as (_ & Hj1 & _).
  destruct (PutRun_extends _ _ _ _ _ _ _ _ _ HR2) as (_ & Hj2 & _).
  rewrite Hnp1 in Hpolls.
  unfold newEvents in Hevents.
  rewrite Hj2, Hj1, <- app_assoc, drop_app_length in Hevents.
  apply Forall_app in Hevents. destruct Hevents as [Hev1 Hev2].
  destruct (PutRun_stores _ _ _ _ _ _ _ _ _ HR1 Hb Ha) as [Hst _];
    try (rewrite ?Hsz; lia); auto.
  rewrite Hne2.
  apply (PutRun_unchanged _ _ _ _ _ _ _ _ _ HR2); auto.
  - apply sizeof_le.
  - rewrite Hsz. lia.
Qed.

(** *** The private helpers *)

Lemma compareBytes_for_decides n :
  forall a pa b pb s,
    (pa + n <= length a)%nat -> (pb + n <= length b)%nat ->
    exists same,
      compareBytes_for n a pa b pb s = Ok same s /\
      (same = true <-> take n (drop pa a) = take n (drop pb b)).
Proof.
  induction n as [|n IH]; intros a pa b pb s Ha Hb.
  - exists true. simpl. unfold ret. split; [reflexivity|]. split; reflexivity.
  - cbn [compareBytes_for].
    destruct (lookup_lt_is_Some_2 a pa ltac:(lia)) as [x Hx].
    destruct (lookup_lt_is_Some_2 b pb ltac:(lia)) as [y Hy].
    unfold bind at 1. unfold load at 1. rewrite Hx.
    unfold bind at 1. unfold load at 1. rewrite Hy.
    rewrite (drop_S _ _ _ Hx), (drop_S _ _ _ Hy). cbn [take].
    destruct (Z.eqb_spec x y) as [->|Hne]; cbn [negb].
    + destruct (IH a (S pa) b (S pb) s ltac:(lia) ltac:(lia)) as (same & Hs & Hiff).
      exists same. split; [assumption|].
      rewrite Hiff. split; [congruence | now inversion 1].
    + exists false. unfold ret. split; [reflexivity|].
      split; [discriminate | inversion 1; contradiction].
Qed.

(** X18: [compareBytes] decides whether two runs of [n] bytes are equal:
    for a count below 256 and within the two objects it returns [true]
    exactly when the bytes agree position by position, it touches nothing,
    the order of its arguments does not matter, and for [n = 0] it is
    [true].  The count is a [uint8_t]: a count of [n + 256] is answered as
    [n] is, so that 256 compares nothing. *)
Theorem compareBytes_decides a pa b pb n s :
  0 <= n < 256 ->
  (pa + Z.to_nat n <= length a)%nat -> (pb + Z.to_nat n <= length b)%nat ->
  exists same,
    compareBytes a pa b pb n s = Ok same s /\
    compareBytes b pb a pa n s = Ok same s /\
    (same = true <-> chunkAt a pa n = chunkAt b pb n) /\
    (same = true <->
     forall i, (i < Z.to_nat n)%nat -> a !! (pa + i)%nat = b !! (pb + i)%nat) /\
    (n = 0 -> same = true) /\
    compareBytes a pa b pb (n + 256) s = Ok same s.
Proof.
  intros Hn Ha Hb. unfold compareBytes, chunkAt.
  assert (Hw : wrap8 (n + 256) = n)
    by (unfold wrap8; rewrite <- Z.add_mod_idemp_r, Z.mod_same, Z.add_0_r by lia;
        apply Z.mod_small; lia).
  rewrite Hw, (wrap8_small n) by lia.
  destruct (compareBytes_for_decides (Z.to_nat n) a pa b pb s Ha Hb) as (same & H1 & H2).
  destruct (compareBytes_for_decides (Z.to_nat n) b pb a pa s Hb Ha) as (same' & H1' & H2').
  assert (same' = same) as ->.
  { destruct same, same'; try reflexivity.
    - destruct H2 as [H2 _]. specialize (H2 eq_refl).
      destruct H2' as [_ H2']. apply H2'. now symmetry.
    - destruct H2' as [H2' _]. specialize (H2' eq_refl).
      destruct H2 as [_ H2]. symmetry. apply H2. now symmetry. }
  exists same. split; [exact H1|]. split; [exact H1'|]. split; [exact H2|].
  split.
  - rewrite H2. split.
    + intros Heq i Hi.
      apply (f_equal (fun l => l !! i)) in Heq.
      rewrite !lookup_take_lt, !lookup_drop in Heq by assumption. exact Heq.
    + intros Hall. apply list_eq. intros i.
      destruct (Nat.lt_ge_cases i (Z.to_nat n)) as [Hi|Hi].
      * rewrite !lookup_take_lt, !lookup_drop by assumption. now apply Hall.
      * rewrite !lookup_take_ge by assumption. reflexivity.
  - split; [|exact H1]. intros ->. apply H2. reflexivity.
Qed.

(** X19: [writeBytes] sends one transmission: the high address byte, the
    low address byte, then the [nBytes] bytes of the object from [ptr] on.
    For a chunk that fits the buffer and stays within a page of the part,
    the part holds these bytes from [address] on afterwards and every
    other cell is what it was, if it acknowledged; nothing has changed if
    it did not. *)
Theorem writeBytes_stores_chunk address obj ptr nBytes s :
  0 <= address < 65536 ->
  1 <= nBytes -> nBytes + 2 <= bufferSize board ->
  address mod devicePage + nBytes <= devicePage ->
  (ptr + Z.to_nat nBytes <= length obj)%nat ->
  exists s',
    writeBytes board ack address obj ptr nBytes s = Ok tt s' /\
    newEvents s s'
    = [Tx (I2CAddress (this s))
         (hiByte address :: loByte address :: map wrap8 (chunkAt obj ptr nBytes))
         (wrap8 (ack (ended s)))] /\
    this s' = this s /\
    (wrap8 (ack (ended s)) = 0 ->
     storedAt (cells s') address (Z.to_nat nBytes) = map wrap8 (chunkAt obj ptr nBytes) /\
     forall x, ~ (address <= x < address + nBytes) -> cells s' x = cells s x) /\
    (wrap8 (ack (ended s)) <> 0 -> cells s' = cells s).
Proof.
  intros Ha Hn Hfit Hpage Hp.
  exists (afterWrite ack s address (map wrap8 (chunkAt obj ptr nBytes))).
  split; [apply writeBytes_run; lia|].
  assert (Hlen : length (map wrap8 (chunkAt obj ptr nBytes)) = Z.to_nat nBytes)
    by (rewrite length_map; apply chunkAt_length; lia).
  unfold afterWrite, newEvents. cbn [journal this cells].
  rewrite drop_app_length.
  split; [reflexivity|]. split; [reflexivity|].
  split.
  - intros Hack. rewrite Hack. cbn [Z.eqb fst].
    rewrite address_bytes by assumption.
    assert (Hbytes : bytes (map wrap8 (chunkAt obj ptr nBytes))).
    { unfold bytes. apply List.Forall_forall. intros v Hv.
      apply in_map_iff in Hv. destruct Hv as (w & <- & _). apply wrap8_range. }
    assert (Hend : address + nBytes <= 65536).
    { unfold devicePage in Hpage.
      pose proof (Z.div_mod address 64 ltac:(lia)).
      assert (address / 64 < 1024) by (apply Z.div_lt_upper_bound; lia).
      lia. }
    destruct (stored_after_write (cells s) address (map wrap8 (chunkAt obj ptr nBytes))
                ltac:(lia) ltac:(rewrite Hlen; lia) ltac:(rewrite Hlen; lia) Hbytes)
      as [Hw1 Hw2].
    rewrite Hlen in Hw1. rewrite Hlen, Z2Nat.id in Hw2 by lia.
    split; [exact Hw1 | exact Hw2].
  - intros Hack. apply Z.eqb_neq in Hack. rewrite Hack. reflexivity.
Qed.

(** X20: [readBytes] sets the part's address counter with a two-byte
    transmission, asks for [nBytes] bytes and stores them from [ptr] on in
    the destination: the cells of the destination before [ptr] and from
    [ptr + nBytes] on keep their content, the cells in between hold the
    content of the part from [address] on when the set-up was acknowledged,
    and the part itself is unchanged. *)
Theorem readBytes_fills_destination address buf ptr nBytes s :
  0 <= address < 65536 ->
  0 <= nBytes <= bufferSize board ->
  (ptr + Z.to_nat nBytes <= length buf)%nat ->
  exists r s',
    readBytes board ack address buf ptr nBytes s = Ok r s' /\
    newEvents s s'
    = [Tx (I2CAddress (this s)) [hiByte address; loByte address] (wrap8 (ack (ended s)));
       Rx (I2CAddress (this s)) nBytes] /\
    cells s' = cells s /\ this s' = this s /\
    length r = length buf /\
    (forall i, (i < ptr)%nat \/ (ptr + Z.to_nat nBytes <= i)%nat -> r !! i = buf !! i) /\
    (wrap8 (ack (ended s)) = 0 ->
     forall i, (i < Z.to_nat nBytes)%nat ->
               r !! (ptr + i)%nat
               = Some (wrap8 (cells s (wrap16 (address + Z.of_nat i))))).
Proof.
  intros Ha Hn Hp.
  exists (take ptr buf ++ received ack s address (Z.to_nat nBytes)
            ++ drop (ptr + Z.to_nat nBytes) buf),
         (afterRead ack s address nBytes).
  split; [now apply readBytes_run|].
  assert (Hlt : length (take ptr buf) = ptr) by (rewrite length_take; lia).
  assert (Hlr : length (received ack s address (Z.to_nat nBytes)) = Z.to_nat nBytes)
    by apply received_length.
  unfold afterRead, newEvents. cbn [journal this cells].
  rewrite drop_app_length.
  split; [reflexivity|]. split; [reflexivity|]. split; [reflexivity|].
  split.
  { rewrite !length_app, Hlt, Hlr, length_drop. lia. }
  split.
  - intros i [Hi|Hi].
    + rewrite lookup_app_l by lia. now apply lookup_take_lt.
    + rewrite lookup_app_r by lia. rewrite lookup_app_r by lia.
      rewrite lookup_drop, Hlt, Hlr. f_equal. lia.
  - intros Hack i Hi.
    rewrite lookup_app_r by lia. rewrite lookup_app_l by lia.
    rewrite Hlt. replace (ptr + i - ptr)%nat with i by lia.
    rewrite received_acked by assumption.
    now apply storedAt_lookup.
Qed.

(** X21: the two address bytes the driver sends are the address: for a
    16-bit address the high byte is [address / 256], the low byte
    [address mod 256], both are bytes, and the part, which takes the first
    as the high half, sets its address counter to [address] without
    changing a cell. *)
Theorem address_bytes_make_address c p address :
  0 <= address < 65536 ->
  hiByte address = address / 256 /\ loByte address = address mod 256 /\
  0 <= hiByte address < 256 /\ 0 <= loByte address < 256 /\
  deliver c p [hiByte address; loByte address] = (c, address).
Proof.
  intros Ha.
  assert (Hhi : hiByte address = address / 256).
  { unfold hiByte. rewrite Z.shiftr_div_pow2 by lia. change (2 ^ 8) with 256.
    apply wrap8_small.
    split; [apply Z.div_pos; lia | apply Z.div_lt_upper_bound; lia]. }
  assert (Hlo : loByte address = address mod 256).
  { unfold loByte. change 255 with (Z.ones 8). rewrite Z.land_ones by lia.
    change (2 ^ 8) with 256. apply wrap8_small. apply Z.mod_pos_bound. lia. }
  split; [exact Hhi|]. split; [exact Hlo|].
  split; [unfold hiByte; apply wrap8_range|].
  split; [unfold loByte; apply wrap8_range|].
  cbn [deliver pageWrite]. now rewrite address_bytes.
Qed.

Lemma requested_app l1 l2 : requested (l1 ++ l2) = requested l1 + requested l2.
Proof.
  unfold requested. induction l1 as [|e l1 IH]; [reflexivity|].
  cbn [app map fold_right]. rewrite IH. lia.
Qed.

Lemma requested_pollEvents a from k : requested (pollEvents ack a from k) = 0.
Proof.
  unfold requested, pollEvents.
  induction (seq 0 k) as [|i l IH]; [reflexivity|].
  cbn [map fold_right quantityOf]. now rewrite IH.
Qed.

Lemma PutRun_progress fuel t address ptr remaining s ps evs s' :
  PutRun board ack now fuel t address ptr remaining s ps evs s' ->
  bytes t ->
  0 <= address < 65536 -> 0 <= remaining -> address + remaining <= 65536 ->
  (ptr + Z.to_nat remaining <= length t)%nat ->
  Forall (fun e => refused e = false) evs ->
  0 <= requested evs <= remaining /\
  storedAt (cells s') address (Z.to_nat (requested evs)) = chunkAt t ptr (requested evs) /\
  (forall x, ~ (address <= x < address + requested evs) -> cells s' x = cells s x) /\
  (Forall (fun b => b = true) ps -> requested evs = remaining).
Proof.
  intros HR Hb.
  induction HR as [address ptr remaining s Hr
                 |address ptr remaining s s1 k Hr Hpoll HP
                 |address ptr remaining s s1 k ps evs s' Hr Hpoll HP Hsame HR IH
                 |address ptr remaining s s1 k s4 b4 k4 ps evs s' Hr Hpoll HP Hdiff
                    Hpoll4 HP4 HR IH];
    intros Ha Hrem Hend Hp Hok.
  - change (requested []) with 0. split; [lia|]. split; [reflexivity|].
    split; [reflexivity | intros _; lia].
  - rewrite requested_pollEvents. split; [lia|]. split; [reflexivity|].
    split; [intros x _; now rewrite (po_cells _ _ _ _ _ _ HP)|].
    intros Hps. apply Forall_cons in Hps. destruct Hps as [Hf _]. discriminate.
  - destruct (nbytesAt_bounds address remaining Ha Hr) as (Hnb1 & Hnb2 & Hnb3).
    set (nb := nbytesAt board address remaining) in *.
    destruct (next_in_range address remaining nb Ha Hend (conj (proj1 Hnb1) Hnb2))
      as (Hend' & Hw & _).
    apply Forall_app in Hok. destruct Hok as [_ Hok].
    apply Forall_app in Hok. destruct Hok as [Hrd Hok].
    unfold readEvents in Hrd. apply Forall_cons in Hrd. destruct Hrd as [Hset _].
    cbn [refused] in Hset. apply negb_false_iff, Z.eqb_eq in Hset.
    rewrite received_acked in Hsame by assumption.
    destruct IH as (IH0 & IH1 & IH2 & IH3); auto; try (rewrite ?Hw; lia).
    { apply wrap16_range. }
    rewrite Hw in IH0, IH3.
    cbn [putRead withBuffer afterRead cells] in IH2.
    rewrite (po_cells _ _ _ _ _ _ HP) in *.
    set (d := requested evs) in *.
    match goal with |- context [requested ?l] =>
      assert (Hreq : requested l = nb + d)
        by (rewrite !requested_app, requested_pollEvents; subst d;
            unfold readEvents, requested; cbn [map fold_right quantityOf]; lia);
      rewrite Hreq; clear Hreq
    end.
    destruct (next_in_range address (nb + d) nb Ha ltac:(lia) ltac:(lia))
      as (_ & _ & Hout).
    replace (nb + d - nb) with d in Hout by lia.
    split; [lia|]. split; [|split].
    + apply (stored_join (cells s) (cells s') t address ptr (nb + d) nb); auto;
        try lia; replace (nb + d - nb) with d by lia; auto.
    + intros x Hx. apply IH2. now apply Hout.
    + intros Hps. apply Forall_cons in Hps. destruct Hps as [_ Hps].
      specialize (IH3 Hps). lia.
  - destruct (nbytesAt_bounds address remaining Ha Hr) as (Hnb1 & Hnb2 & Hnb3).
    set (nb := nbytesAt board address remaining) in *.
    destruct (next_in_range address remaining nb Ha Hend (conj (proj1 Hnb1) Hnb2))
      as (Hend' & Hw & _).
    apply Forall_app in Hok. destruct Hok as [_ Hok].
    apply Forall_app in Hok. destruct Hok as [_ Hok].
    apply Forall_cons in Hok. destruct Hok as [Hwr Hok].
    apply Forall_app in Hok. destruct Hok as [_ Hok].
    assert (Hlen : length (chunkAt t ptr nb) = Z.to_nat nb) by (apply chunkAt_length; lia).
    rewrite (bytes_wrap8 (chunkAt t ptr nb)) in * by now apply bytes_chunkAt.
    assert (Hst : wrap8 (ack (ended (putRead board ack s1 address remaining))) = 0).
    { unfold writeEvent in Hwr. cbn [refused] in Hwr.
      destruct (chunkAt t ptr nb); [simpl in Hlen; lia|].
      now apply negb_false_iff, Z.eqb_eq in Hwr. }
    destruct IH as (IH0 & IH1 & IH2 & IH3); auto; try (rewrite ?Hw; lia).
    { apply wrap16_range. }
    rewrite Hw in IH0, IH3.
    rewrite (po_cells _ _ _ _ _ _ HP4) in IH2.
    unfold afterWrite in IH2. rewrite Hst in IH2.
    cbn [Z.eqb cells fst] in IH2.
    rewrite address_bytes in IH2 by assumption.
    cbn [putRead withBuffer afterRead cells] in IH2.
    rewrite (po_cells _ _ _ _ _ _ HP) in IH2.
    destruct (stored_after_write (cells s) address (chunkAt t ptr nb))
      as [Hw1 Hw2]; try (rewrite ?Hlen; lia).
    { rewrite Hlen, Z2Nat.id by lia. apply chunk_in_device_page; lia. }
    { now apply bytes_chunkAt. }
    rewrite Hlen in Hw1. rewrite Hlen, Z2Nat.id in Hw2 by lia.
    set (d := requested evs) in *.
    match goal with |- context [requested ?l] =>
      assert (Hreq : requested l = nb + d)
        by (rewrite !requested_app, requested_pollEvents;
            change (requested (?e :: ?l')) with (quantityOf e + requested l');
            rewrite requested_app, requested_pollEvents; subst d;
            unfold readEvents, writeEvent, requested;
            cbn [map fold_right quantityOf]; lia);
      rewrite Hreq; clear Hreq
    end.
    destruct (next_in_range address (nb + d) nb Ha ltac:(lia) ltac:(lia))
      as (_ & _ & Hout).
    replace (nb + d - nb) with d in Hout by lia.
    split; [lia|]. split; [|split].
    + apply (stored_join (fst (pageWrite (cells s) address (chunkAt t ptr nb)))
               (cells s') t address ptr (nb + d) nb); auto;
        try lia; replace (nb + d - nb) with d by lia; auto.
    + intros x Hx. rewrite IH2 by now apply Hout.
      apply Hw2. lia.
    + intros Hps. apply Forall_cons in Hps. destruct Hps as [_ Hps].
      apply Forall_cons in Hps. destruct Hps as [_ Hps].
      specialize (IH3 Hps). lia.
Qed.

(** X22: [put] is not all or nothing, but what it leaves is a prefix.  For
    an object of bytes that ends within the address space and a part that
    refuses no read set-up and no write, a call that returns, a poll having
    failed on the way or not, has asked the part for [done] bytes in all,
    and the cells from [address] on hold the first [done] bytes of the
    object; the cells after them, and all others, are what they were.
    [done] is the size of the object when every poll succeeded. *)
Theorem put_leaves_a_prefix fuel address t s r s' :
  bytes t -> Z.of_nat (length t) < 65536 ->
  0 <= address < 65536 -> address + Z.of_nat (length t) <= 65536 ->
  length (readBuffer (this s)) = 64%nat ->
  put board ack now fuel address t s = Ok r s' ->
  Forall (fun e => refused e = false) (newEvents s s') ->
  let done := requested (newEvents s s') in
  0 <= done <= Z.of_nat (length t) /\
  storedAt (cells s') address (Z.to_nat done) = take (Z.to_nat done) t /\
  (forall x, ~ (address <= x < address + done) -> cells s' x = cells s x) /\
  (Forall (fun b => b = true) (newPolls s s') -> done = Z.of_nat (length t)).
Proof.
  intros Hb Hsize Ha Hend Hbuf Hput Hok.
  assert (Hsz : sizeof t = Z.of_nat (length t)) by (apply sizeof_small; lia).
  destruct (put_sound fuel address t s Ha Hbuf) as [_ Hs].
  destruct (Hs r s' Hput) as (_ & _ & ps & evs & HR).
  destruct (PutRun_new _ _ _ _ _ _ _ _ _ HR) as [Hnp Hne].
  rewrite Hne in *. rewrite Hnp. cbv zeta.
  destruct (PutRun_progress _ _ _ _ _ _ _ _ _ HR Hb Ha) as (H0 & H1 & H2 & H3);
    try (rewrite ?Hsz; lia); auto.
  rewrite Hsz in H0, H3.
  unfold chunkAt in H1. rewrite drop_0 in H1.
  auto.
Qed.

(** *** One bus address *)

Lemma directed_refl s : directed s s.
Proof. split; [reflexivity|]. exists []. now rewrite app_nil_r. Qed.

Lemma directed_trans s1 s2 s3 : directed s1 s2 -> directed s2 s3 -> directed s1 s3.
Proof.
  intros [Ha (e1 & Hj1 & Hf1)] [Hb (e2 & Hj2 & Hf2)]. split; [congruence|].
  exists (e1 ++ e2). split; [rewrite Hj2, Hj1, app_assoc; reflexivity|].
  apply Forall_app. split; [exact Hf1|]. now rewrite Ha in Hf2.
Qed.

Lemma directed_new s s' :
  directed s s' -> Forall (fun e => targetOf e = I2CAddress (this s)) (newEvents s s').
Proof.
  intros [_ (evs & Hj & Hf)]. unfold newEvents. now rewrite Hj, drop_app_length.
Qed.

Lemma directed_poll fuel s b s1 :
  ackPolling board ack now fuel s = Ok b s1 -> directed s s1.
Proof.
  intros Hpoll. destruct (ackPolling_run _ _ _ _ Hpoll) as [k HP].
  split; [now rewrite (po_this _ _ _ _ _ _ HP)|].
  eexists. split; [apply (po_journal _ _ _ _ _ _ HP)|].
  apply pollEvents_Forall. reflexivity.
Qed.

Lemma directed_afterRead s address n : directed s (afterRead ack s address n).
Proof.
  split; [reflexivity|]. eexists. split; [reflexivity|].
  unfold readEvents. repeat constructor.
Qed.

Lemma directed_afterWrite s address data : directed s (afterWrite ack s address data).
Proof.
  split; [reflexivity|]. eexists. split; [reflexivity|].
  unfold writeEvent. repeat constructor.
Qed.

Lemma directed_withBuffer buf s : directed s (withBuffer buf s).
Proof.
  split; [reflexivity|]. exists []. split; [|constructor].
  unfold withBuffer. cbn [journal]. now rewrite app_nil_r.
Qed.

Lemma directed_read fuel address s v s' :
  read board ack now fuel address s = Ok v s' -> directed s s'.
Proof.
  intros H. apply read_frame in H. destruct H as (s1 & Hpoll & _ & ->).
  eapply directed_trans; [eapply directed_poll; eauto | apply directed_afterRead].
Qed.

Lemma directed_write fuel address data s s' :
  write board ack now fuel address data s = Ok tt s' -> directed s s'.
Proof.
  intros H. apply write_frame in H. destruct H as (b & s1 & Hpoll & ->).
  eapply directed_trans; [eapply directed_poll; eauto|].
  destruct b; [apply directed_afterWrite | apply directed_refl].
Qed.

Lemma directed_PutRun fuel t address ptr remaining s ps evs s' :
  PutRun board ack now fuel t address ptr remaining s ps evs s' -> directed s s'.
Proof.
  induction 1 as [address ptr remaining s Hr
                 |address ptr remaining s s1 k Hr Hpoll HP
                 |address ptr remaining s s1 k ps evs s' Hr Hpoll HP Hsame HR IH
                 |address ptr remaining s s1 k s4 b4 k4 ps evs s' Hr Hpoll HP Hdiff
                    Hpoll4 HP4 HR IH].
  - apply directed_refl.
  - eapply directed_poll; eauto.
  - eapply directed_trans; [eapply directed_poll; eauto|].
    eapply directed_trans; [|exact IH].
    unfold putRead.
    eapply directed_trans; [apply directed_afterRead | apply directed_withBuffer].
  - eapply directed_trans; [eapply directed_poll; eauto|].
    eapply directed_trans; [|exact IH].
    eapply directed_trans; [|eapply directed_poll; eauto].
    eapply directed_trans; [|apply directed_afterWrite].
    unfold putRead.
    eapply directed_trans; [apply directed_afterRead | apply directed_withBuffer].
Qed.

(** X23: the driver talks to one device.  Every transmission and every
    request of a call of [read], [write], [update], [get] or [put] that
    returns is directed to the bus address the driver was constructed
    with. *)
Theorem one_bus_address fuel address data t s :
  (forall v s', read board ack now fuel address s = Ok v s' ->
     Forall (fun e => targetOf e = I2CAddress (this s)) (newEvents s s')) /\
  (forall s', write board ack now fuel address data s = Ok tt s' ->
     Forall (fun e => targetOf e = I2CAddress (this s)) (newEvents s s')) /\
  (forall s', update board ack now fuel address data s = Ok tt s' ->
     Forall (fun e => targetOf e = I2CAddress (this s)) (newEvents s s')) /\
  (forall r s', get board ack now fuel address t s = Ok r s' ->
     Forall (fun e => targetOf e = I2CAddress (this s)) (newEvents s s')) /\
  (0 <= address < 65536 -> length (readBuffer (this s)) = 64%nat ->
   forall r s', put board ack now fuel address t s = Ok r s' ->
     Forall (fun e => targetOf e = I2CAddress (this s)) (newEvents s s')).
Proof.
  split; [intros v s' H; eapply directed_new, directed_read; eauto|].
  split; [intros s' H; eapply directed_new, directed_write; eauto|].
  split; [|split].
  - intros s' H. apply directed_new.
    unfold update in H. unfold bind at 1 in H.
    destruct (read board ack now fuel address s) as [v s2|e] eqn:Hr; [|discriminate].
    apply directed_read in Hr.
    destruct (negb (v =? data)).
    + apply directed_write in H. eapply directed_trans; eauto.
    + unfold ret in H. inversion H; subst. exact Hr.
  - intros r s' H. apply directed_new.
    unfold get in H. cbv zeta in H. unfold bind at 1 in H.
    destruct (ackPolling board ack now fuel s) as [ready s1|e] eqn:Hpoll; [|discriminate].
    apply directed_poll in Hpoll.
    destruct ready.
    + apply get_for_frame in H. destruct H as (H1 & _ & _ & _ & evs & H5 & H6).
      eapply directed_trans; [exact Hpoll|].
      split; [now rewrite H1|]. exists evs. split; [exact H5|].
      eapply Forall_impl; [exact H6|]. now intros e [_ He].
    + unfold ret in H. inversion H; subst. exact Hpoll.
  - intros Ha Hbuf r s' Hput. apply directed_new.
    destruct (put_sound fuel address t s Ha Hbuf) as [_ Hs].
    destruct (Hs r s' Hput) as (_ & _ & ps & evs & HR).
    eapply directed_PutRun; eauto.
Qed.

(** *** The reads of [put] *)

Lemma readsOf_pollEvents a from k l :
  readsOf (pollEvents ack a from k ++ l) = readsOf l.
Proof.
  unfold pollEvents. induction (seq 0 k) as [|i l' IH]; [reflexivity|].
  cbn [map app readsOf]. exact IH.
Qed.

Lemma readsOf_readEvents s address n l :
  0 <= address < 65536 ->
  readsOf (readEvents ack s address n ++ l) = (address, n) :: readsOf l.
Proof.
  intros Ha. unfold readEvents. cbn [app readsOf]. now rewrite address_bytes.
Qed.

Lemma readsOf_writeEvent s address d data l :
  readsOf (writeEvent ack s address (d :: data) :: l) = readsOf l.
Proof. reflexivity. Qed.

Lemma PutRun_reads fuel t address ptr remaining s ps evs s' :
  PutRun board ack now fuel t address ptr remaining s ps evs s' ->
  0 <= address < 65536 -> 0 <= remaining < 65536 ->
  (ptr + Z.to_nat remaining <= length t)%nat ->
  forall n, (Z.to_nat remaining <= n)%nat ->
  readsOf evs `prefix_of` schedule board n address remaining /\
  (Forall (fun b => b = true) ps -> readsOf evs = schedule board n address remaining).
Proof.
  induction 1 as [address ptr remaining s Hr
                 |address ptr remaining s s1 k Hr Hpoll HP
                 |address ptr remaining s s1 k ps evs s' Hr Hpoll HP Hsame HR IH
                 |address ptr remaining s s1 k s4 b4 k4 ps evs s' Hr Hpoll HP Hdiff
                    Hpoll4 HP4 HR IH];
    intros Ha Hrem Hp n Hn.
  - split; [apply prefix_nil|]. intros _.
    destruct n as [|n]; [reflexivity|]. cbn [schedule readsOf].
    destruct (Z.ltb_spec 0 remaining); [lia | reflexivity].
  - rewrite <- (app_nil_r (pollEvents _ _ _ _)), readsOf_pollEvents.
    split; [apply prefix_nil|].
    intros Hps. apply Forall_cons in Hps. destruct Hps as [Hf _]. discriminate.
  - destruct (nbytesAt_bounds address remaining Ha Hr) as (Hnb1 & Hnb2 & Hnb3).
    destruct n as [|n]; [lia|].
    rewrite schedule_step by assumption.
    rewrite readsOf_pollEvents, readsOf_readEvents by assumption.
    assert (Hw : wrap16 (remaining - nbytesAt board address remaining)
                 = remaining - nbytesAt board address remaining)
      by (apply wrap16_small; lia).
    rewrite <- Hw.
    destruct (IH ltac:(apply wrap16_range) ltac:(rewrite Hw; lia) ltac:(rewrite Hw; lia)
                n ltac:(rewrite Hw; lia)) as [IH1 IH2].
    split; [now apply prefix_cons|].
    intros Hps. apply Forall_cons in Hps. destruct Hps as [_ Hps].
    now rewrite IH2.
  - destruct (nbytesAt_bounds address remaining Ha Hr) as (Hnb1 & Hnb2 & Hnb3).
    destruct n as [|n]; [lia|].
    rewrite schedule_step by assumption.
    rewrite readsOf_pollEvents, readsOf_readEvents by assumption.
    assert (Hlen : length (map wrap8 (chunkAt t ptr (nbytesAt board address remaining)))
                   = Z.to_nat (nbytesAt board address remaining))
      by (rewrite length_map, chunkAt_length; lia).
    destruct (map wrap8 (chunkAt t ptr (nbytesAt board address remaining)))
      as [|d data] eqn:Ed; [simpl in Hlen; lia|].
    rewrite readsOf_writeEvent, readsOf_pollEvents.
    assert (Hw : wrap16 (remaining - nbytesAt board address remaining)
                 = remaining - nbytesAt board address remaining)
      by (apply wrap16_small; lia).
    rewrite <- Hw.
    destruct (IH ltac:(apply wrap16_range) ltac:(rewrite Hw; lia) ltac:(rewrite Hw; lia)
                n ltac:(rewrite Hw; lia)) as [IH1 IH2].
    split; [now apply prefix_cons|].
    intros Hps. apply Forall_cons in Hps. destruct Hps as [_ Hps].
    apply Forall_cons in Hps. destruct Hps as [_ Hps].
    now rewrite IH2.
Qed.

Lemma PutRun_requested fuel t address ptr remaining s ps evs s' :
  PutRun board ack now fuel t address ptr remaining s ps evs s' ->
  0 <= address < 65536 -> 0 <= remaining < 65536 ->
  (ptr + Z.to_nat remaining <= length t)%nat ->
  Forall (fun b => b = true) ps ->
  requested evs = remaining.
Proof.
  intros HR.
  induction HR as [address ptr remaining s Hr
                 |address ptr remaining s s1 k Hr Hpoll HP
                 |address ptr remaining s s1 k ps evs s' Hr Hpoll HP Hsame HR IH
                 |address ptr remaining s s1 k s4 b4 k4 ps evs s' Hr Hpoll HP Hdiff
                    Hpoll4 HP4 HR IH];
    intros Ha Hrem Hp Hps.
  - change (requested []) with 0. lia.
  - apply Forall_cons in Hps. destruct Hps as [Hf _]. discriminate.
  - destruct (nbytesAt_bounds address remaining Ha Hr) as (Hnb1 & Hnb2 & Hnb3).
    assert (Hw : wrap16 (remaining - nbytesAt board address remaining)
                 = remaining - nbytesAt board address remaining)
      by (apply wrap16_small; lia).
    apply Forall_cons in Hps. destruct Hps as [_ Hps].
    specialize (IH ltac:(apply wrap16_range) ltac:(rewrite Hw; lia)
                  ltac:(rewrite Hw; lia) Hps).
    rewrite !requested_app, requested_pollEvents, IH, Hw.
    unfold readEvents, requested. cbn [map fold_right quantityOf]. lia.
  - destruct (nbytesAt_bounds address remaining Ha Hr) as (Hnb1 & Hnb2 & Hnb3).
    assert (Hw : wrap16 (remaining - nbytesAt board address remaining)
                 = remaining - nbytesAt board address remaining)
      by (apply wrap16_small; lia).
    apply Forall_cons in Hps. destruct Hps as [_ Hps].
    apply Forall_cons in Hps. destruct Hps as [_ Hps].
    specialize (IH ltac:(apply wrap16_range) ltac:(rewrite Hw; lia)
                  ltac:(rewrite Hw; lia) Hps).
    rewrite !requested_app, requested_pollEvents.
    change (requested (?e :: ?l')) with (quantityOf e + requested l').
    rewrite requested_app, requested_pollEvents, IH, Hw.
    unfold readEvents, writeEvent, requested. cbn [map fold_right quantityOf]. lia.
Qed.

(** X24: [put] reads before it decides.  The read transactions of a call
    that returns are the chunks of the object in their order, each at the
    address of its chunk and for as many bytes as the chunk has, up to the
    chunk at which a poll failed; when every poll succeeded they are all
    the chunks, so that the part is asked for every byte of the object's
    range exactly once, whether a chunk is then written or not. *)
Theorem put_reads_every_chunk fuel address t s r s' :
  0 <= address < 65536 -> length (readBuffer (this s)) = 64%nat ->
  put board ack now fuel address t s = Ok r s' ->
  readsOf (newEvents s s')
    `prefix_of` schedule board (Z.to_nat (sizeof t)) address (sizeof t) /\
  (Forall (fun b => b = true) (newPolls s s') ->
   readsOf (newEvents s s') = schedule board (Z.to_nat (sizeof t)) address (sizeof t) /\
   requested (newEvents s s') = sizeof t).
Proof.
  intros Ha Hbuf Hput.
  destruct (put_sound fuel address t s Ha Hbuf) as [_ Hs].
  destruct (Hs r s' Hput) as (_ & _ & ps & evs & HR).
  destruct (PutRun_new _ _ _ _ _ _ _ _ _ HR) as [Hnp Hne].
  rewrite Hne, Hnp.
  destruct (sizeof_le t) as [Hs1 Hs2].
  destruct (PutRun_reads _ _ _ _ _ _ _ _ _ HR Ha Hs1 ltac:(lia)
              (Z.to_nat (sizeof t)) ltac:(lia)) as [H1 H2].
  split; [exact H1|].
  intros Hps. split; [now apply H2|].
  apply (PutRun_requested _ _ _ _ _ _ _ _ _ HR Ha Hs1 ltac:(lia) Hps).
Qed.
(** *** Writes follow the comparison *)

Lemma PutRun_nothing fuel t address ptr remaining s ps evs s' :
  PutRun board ack now fuel t address ptr remaining s ps evs s' ->
  remaining <= 0 -> ps = [] /\ evs = [] /\ s' = s.
Proof. destruct 1; intros; try lia; auto. Qed.

Lemma readsOf_polls a from k : readsOf (pollEvents ack a from k) = [].
Proof. rewrite <- (app_nil_r (pollEvents _ _ _ _)). apply readsOf_pollEvents. Qed.

Lemma differs_ext c1 c2 t base a n :
  (forall i, (i < Z.to_nat n)%nat ->
             c1 (wrap16 (a + Z.of_nat i)) = c2 (wrap16 (a + Z.of_nat i))) ->
  differs c1 t base (a, n) = differs c2 t base (a, n).
Proof.
  intros H. unfold differs. cbn [fst snd]. now rewrite (storedAt_ext c1 c2 a _ H).
Qed.

Lemma afterWrite_outside s address data x :
  0 <= address < 65536 ->
  address mod devicePage + Z.of_nat (length data) <= devicePage ->
  ~ (address <= x < address + Z.of_nat (length data)) ->
  cells (afterWrite ack s address data) x = cells s x.
Proof.
  intros Ha Hpage Hx. unfold afterWrite. cbn [cells].
  destruct (wrap8 (ack (ended s)) =? 0); cbn [fst]; [|reflexivity].
  rewrite address_bytes by assumption.
  rewrite pageWrite_inside by (assumption || lia).
  destruct (Z.leb_spec address x);
    destruct (Z.ltb_spec x (address + Z.of_nat (length data)));
    cbn [andb]; try reflexivity; lia.
Qed.

(** The write of an iteration, seen as an event. *)
Lemma writeEvent_chunk t ptr s address nb :
  0 <= address < 65536 -> 1 <= nb -> (ptr + Z.to_nat nb <= length t)%nat ->
  let e := writeEvent ack s address (map wrap8 (chunkAt t ptr nb)) in
  isWrite e = true /\ writeSize e = (address, nb) /\
  payloadOf e = map wrap8 (chunkAt t ptr nb) /\
  forall l, readsOf (e :: l) = readsOf l.
Proof.
  intros Ha Hnb Hp. cbv zeta.
  assert (Hlen : length (map wrap8 (chunkAt t ptr nb)) = Z.to_nat nb)
    by (rewrite length_map, chunkAt_length; lia).
  unfold writeSize, writeEvent. cbn [txAddressOf payloadOf].
  rewrite address_bytes, Hlen, Z2Nat.id by lia.
  destruct (map wrap8 (chunkAt t ptr nb)) as [|d data]; [simpl in Hlen; lia|].
  repeat split; reflexivity.
Qed.

Lemma PutRun_compares fuel t address ptr remaining s ps evs s' :
  PutRun board ack now fuel t address ptr remaining s ps evs s' ->
  0 <= address < 65536 -> 0 <= remaining -> address + remaining <= 65536 ->
  (ptr + Z.to_nat remaining <= length t)%nat ->
  Forall (fun e => refused e = false) evs ->
  Forall (fun ch => address <= fst ch /\ 0 <= snd ch /\
                    fst ch + snd ch <= address + remaining) (readsOf evs) /\
  map writeSize (List.filter isWrite evs)
  = List.filter (differs (cells s) t (address - Z.of_nat ptr)) (readsOf evs) /\
  Forall (fun e => isWrite e = true ->
            payloadOf e
            = map wrap8 (chunkAt t (Z.to_nat (txAddressOf e - (address - Z.of_nat ptr)))
                           (Z.of_nat (length (payloadOf e))))) evs.
Proof.
  intros HR.
  induction HR as [address ptr remaining s Hr
                 |address ptr remaining s s1 k Hr Hpoll HP
                 |address ptr remaining s s1 k ps evs s' Hr Hpoll HP Hsame HR IH
                 |address ptr remaining s s1 k s4 b4 k4 ps evs s' Hr Hpoll HP Hdiff
                    Hpoll4 HP4 HR IH];
    intros Ha Hrem Hend Hp Hok.
  - cbn [readsOf List.filter map]. repeat split; constructor.
  - rewrite readsOf_polls, filter_pollEvents. cbn [List.filter map].
    split; [constructor|]. split; [reflexivity|].
    apply pollEvents_Forall. intros status. discriminate.
  - destruct (nbytesAt_bounds address remaining Ha Hr) as (Hnb1 & Hnb2 & Hnb3).
    set (nb := nbytesAt board address remaining) in *.
    assert (Hw : wrap16 (remaining - nb) = remaining - nb) by (apply wrap16_small; lia).
    apply Forall_app in Hok. destruct Hok as [_ Hok].
    apply Forall_app in Hok. destruct Hok as [Hrd Hok].
    unfold readEvents in Hrd. apply Forall_cons in Hrd. destruct Hrd as [Hset _].
    cbn [refused] in Hset. apply negb_false_iff, Z.eqb_eq in Hset.
    rewrite received_acked in Hsame by assumption.
    rewrite (po_cells _ _ _ _ _ _ HP) in Hsame.
    assert (Htail :
      Forall (fun ch => address + nb <= fst ch /\ 0 <= snd ch /\
                        fst ch + snd ch <= address + remaining) (readsOf evs) /\
      map writeSize (List.filter isWrite evs)
      = List.filter (differs (cells (putRead board ack s1 address remaining)) t
                       (address - Z.of_nat ptr)) (readsOf evs) /\
      Forall (fun e => isWrite e = true ->
                payloadOf e
                = map wrap8 (chunkAt t (Z.to_nat (txAddressOf e - (address - Z.of_nat ptr)))
                               (Z.of_nat (length (payloadOf e))))) evs).
    { destruct (Z.eq_dec remaining nb) as [Heq|Hneq].
      - apply PutRun_nothing in HR; [|rewrite Hw; lia].
        destruct HR as (_ & -> & _). cbn [readsOf List.filter map].
        repeat split; constructor.
      - assert (Hwa : wrap16 (address + nb) = address + nb) by (apply wrap16_small; lia).
        rewrite Hwa, Hw in IH.
        destruct IH as (I1 & I2 & I3); auto; try lia.
        replace (address + nb - Z.of_nat (ptr + Z.to_nat nb))
          with (address - Z.of_nat ptr) in I2, I3 by lia.
        split; [|split; assumption].
        eapply Forall_impl; [exact I1|]. cbv beta. intros ch H. lia. }
    destruct Htail as (T1 & T2 & T3).
    rewrite readsOf_pollEvents, readsOf_readEvents by assumption.
    rewrite !List.filter_app, filter_pollEvents.
    cbn [app readEvents List.filter isWrite].
    split; [|split].
    + constructor; [cbn [fst snd]; lia|].
      eapply Forall_impl; [exact T1|]. cbv beta. intros ch H. lia.
    + unfold differs at 1. cbn [fst snd].
      replace (address - (address - Z.of_nat ptr)) with (Z.of_nat ptr) by lia.
      rewrite Nat2Z.id, Hsame, bool_decide_eq_true_2 by reflexivity.
      cbn [negb]. rewrite T2.
      cbn [putRead withBuffer afterRead cells].
      now rewrite (po_cells _ _ _ _ _ _ HP).
    + apply Forall_app. split; [apply pollEvents_Forall; intros status; discriminate|].
      apply Forall_cons. split; [discriminate|].
      apply Forall_cons. split; [discriminate | exact T3].
  - destruct (nbytesAt_bounds address remaining Ha Hr) as (Hnb1 & Hnb2 & Hnb3).
    set (nb := nbytesAt board address remaining) in *.
    assert (Hw : wrap16 (remaining - nb) = remaining - nb) by (apply wrap16_small; lia).
    apply Forall_app in Hok. destruct Hok as [_ Hok].
    apply Forall_app in Hok. destruct Hok as [Hrd Hok].
    apply Forall_cons in Hok. destruct Hok as [_ Hok].
    apply Forall_app in Hok. destruct Hok as [_ Hok].
    unfold readEvents in Hrd. apply Forall_cons in Hrd. destruct Hrd as [Hset _].
    cbn [refused] in Hset. apply negb_false_iff, Z.eqb_eq in Hset.
    rewrite received_acked in Hdiff by assumption.
    rewrite (po_cells _ _ _ _ _ _ HP) in Hdiff.
    destruct (writeEvent_chunk t ptr (putRead board ack s1 address remaining) address nb
                Ha ltac:(lia) ltac:(lia)) as (We1 & We2 & We3 & We4).
    assert (Hlen : length (map wrap8 (chunkAt t ptr nb)) = Z.to_nat nb)
      by (rewrite length_map, chunkAt_length; lia).
    assert (Hc4 : forall x, ~ (address <= x < address + nb) -> cells s4 x = cells s x).
    { intros x Hx. rewrite (po_cells _ _ _ _ _ _ HP4).
      rewrite afterWrite_outside.
      - cbn [putRead withBuffer afterRead cells].
        now rewrite (po_cells _ _ _ _ _ _ HP).
      - assumption.
      - rewrite Hlen, Z2Nat.id by lia. apply chunk_in_device_page; lia.
      - rewrite Hlen, Z2Nat.id by lia. exact Hx. }
    assert (Htail :
      Forall (fun ch => address + nb <= fst ch /\ 0 <= snd ch /\
                        fst ch + snd ch <= address + remaining) (readsOf evs) /\
      map writeSize (List.filter isWrite evs)
      = List.filter (differs (cells s4) t (address - Z.of_nat ptr)) (readsOf evs) /\
      Forall (fun e => isWrite e = true ->
                payloadOf e
                = map wrap8 (chunkAt t (Z.to_nat (txAddressOf e - (address - Z.of_nat ptr)))
                               (Z.of_nat (length (payloadOf e))))) evs).
    { destruct (Z.eq_dec remaining nb) as [Heq|Hneq].
      - apply PutRun_nothing in HR; [|rewrite Hw; lia].
        destruct HR as (_ & -> & _). cbn [readsOf List.filter map].
        repeat split; constructor.
      - assert (Hwa : wrap16 (address + nb) = address + nb) by (apply wrap16_small; lia).
        rewrite Hwa, Hw in IH.
        destruct IH as (I1 & I2 & I3); auto; try lia.
        replace (address + nb - Z.of_nat (ptr + Z.to_nat nb))
          with (address - Z.of_nat ptr) in I2, I3 by lia.
        split; [|split; assumption].
        eapply Forall_impl; [exact I1|]. cbv beta. intros ch H. lia. }
    destruct Htail as (T1 & T2 & T3).
    rewrite readsOf_pollEvents, readsOf_readEvents, We4, readsOf_pollEvents by assumption.
    rewrite !List.filter_app, filter_pollEvents.
    cbn [app readEvents List.filter isWrite].
    rewrite We1, List.filter_app, filter_pollEvents. cbn [app map].
    rewrite We2.
    split; [|split].
    + constructor; [cbn [fst snd]; lia|].
      eapply Forall_impl; [exact T1|]. cbv beta. intros ch H. lia.
    + unfold differs at 1. cbn [fst snd].
      replace (address - (address - Z.of_nat ptr)) with (Z.of_nat ptr) by lia.
      rewrite Nat2Z.id, bool_decide_eq_false_2 by exact Hdiff.
      cbn [negb]. f_equal. rewrite T2.
      apply List.filter_ext_in. intros [a n] Hin.
      rewrite List.Forall_forall in T1. specialize (T1 _ Hin). cbn [fst snd] in T1.
      apply differs_ext. intros i Hi.
      rewrite wrap16_small by lia. apply Hc4. lia.
    + apply Forall_app. split; [apply pollEvents_Forall; intros status; discriminate|].
      apply Forall_cons. split; [discriminate|].
      apply Forall_cons. split; [discriminate|].
      apply Forall_cons. split.
      * intros _. rewrite We3, Hlen, Z2Nat.id by lia.
        unfold writeEvent. cbn [txAddressOf].
        rewrite address_bytes by assumption.
        replace (address - (address - Z.of_nat ptr)) with (Z.of_nat ptr) by lia.
        now rewrite Nat2Z.id.
      * apply Forall_app. split; [apply pollEvents_Forall; intros status; discriminate|].
        exact T3.
Qed.

(** C3: [put] writes a chunk exactly when the bytes it has just read for
    that chunk differ from the bytes of the object.  In a run that returns,
    for an object that ends within the address space and with the read
    set-ups and writes acknowledged, the write transmissions are, in order,
    those of the chunks read whose cells differed from the object's bytes
    before the call, each carrying the object's bytes of its chunk; a chunk
    whose cells agreed is not written.  So when the whole range held the
    object no write transmission was issued and every cell is as it was.
    In any run a write transmission comes right after a read of the same
    address and of as many bytes as its payload, the read the chunk was
    compared with.  [put] does return, with enough fuel, once the clock lets
    the polls end. *)
Theorem put_suppresses_writes fuel address t s :
  0 <= address < 65536 -> length (readBuffer (this s)) = 64%nat ->
  (forall r s',
      put board ack now fuel address t s = Ok r s' ->
      (storedAt (cells s) address (Z.to_nat (sizeof t)) = chunkAt t 0 (sizeof t) ->
       Forall (fun e => refused e = false) (newEvents s s') ->
       List.filter isWrite (newEvents s s') = [] /\ cells s' = cells s) /\
      (forall pre e post,
          newEvents s s' = pre ++ e :: post -> isWrite e = true ->
          exists pre' target hi lo data status status',
            e = Tx target (hi :: lo :: data) status /\
            pre = pre' ++ [Tx target [hi; lo] status';
                           Rx target (Z.of_nat (length data))]) /\
      (address + sizeof t <= 65536 ->
       Forall (fun e => refused e = false) (newEvents s s') ->
       map writeSize (List.filter isWrite (newEvents s s'))
       = List.filter (differs (cells s) t address) (readsOf (newEvents s s')) /\
       Forall (fun e => isWrite e = true ->
                 payloadOf e
                 = map wrap8 (chunkAt t (Z.to_nat (txAddressOf e - address))
                                (Z.of_nat (length (payloadOf e)))))
         (newEvents s s'))) /\
  (forall N,
      clock_expires now N -> (N <= fuel)%nat -> (Z.to_nat (sizeof t) <= fuel)%nat ->
      exists s', put board ack now fuel address t s = Ok t s').
Proof.
  intros Ha Hbuf. split.
  - intros r s' Hput.
    destruct (put_sound fuel address t s Ha Hbuf) as [_ Hok].
    destruct (Hok r s' Hput) as (_ & _ & ps & evs & HR).
    destruct (sizeof_le t) as [Hs Hl].
    destruct (PutRun_new _ _ _ _ _ _ _ _ _ HR) as [_ Hnew].
    rewrite Hnew. split; [|split].
    + intros Hst Hok'. eapply PutRun_unchanged; eauto.
    + eapply PutRun_guarded; eauto.
    + intros Hend Hok'.
      destruct (PutRun_compares _ _ _ _ _ _ _ _ _ HR Ha ltac:(lia) Hend ltac:(lia) Hok')
        as (_ & H2 & H3).
      change (Z.of_nat 0) with 0 in H2, H3. rewrite Z.sub_0_r in H2, H3.
      split; assumption.
  - intros N Hclock Hfuel Hsize. eapply put_returns; eauto.
Qed.


End Facts.

(** ** Concrete runs *)

Lemma ticking_expires : clock_expires ticking 6.
Proof.
  intros j. exists (j + 6)%nat. split; [lia|].
  unfold ticking.
  replace (1000 * Z.of_nat (j + 6) - 1000 * Z.of_nat j) with 6000 by lia.
  vm_compute. discriminate.
Qed.

Lemma acking_polls board fuel s :
  (exists s', ackPolling board acking ticking fuel s = Ok true s') \/
  (exists e, ackPolling board acking ticking fuel s = Bad e).
Proof.
  destruct fuel as [|fuel].
  - right. exists OutOfFuel. reflexivity.
  - left. unfold ackPolling. unfold bind at 1. unfold micros at 1.
    unfold bind at 1. cbn [ackPolling_while]. change (1 =? 0) with false. cbv iota.
    unfold bind at 1. unfold micros at 1. cbn [ticks].
    rewrite wrap32_sub. unfold ticking at 1 2.
    replace (1000 * Z.of_nat (S (ticks s)) - 1000 * Z.of_nat (ticks s)) with 1000 by lia.
    change (wrap32 1000 <? 6000) with true. cbv iota.
    rewrite poll_attempt.
    destruct fuel; cbn [ackPolling_while];
      change (wrap8 (wrap8 (acking _))) with 0; cbn [Z.eqb];
      unfold ret, bind, note; eauto.
Qed.

Lemma large_length : Z.of_nat (length large) = 65535.
Proof. unfold large. rewrite repeat_length. apply Z2Nat.id. lia. Qed.

(** C4: the distance to the next page boundary as [put] computes it, every
    operation reduced modulo 2^16, is [pageSize - address mod pageSize] for
    every 16-bit address and on either board; it is between 1 and
    [pageSize].  In the last page [pageSize * (address / pageSize + 1)] is
    2^16 and wraps to 0, and the subtraction wraps back to
    [65536 - address]. *)
Theorem page_boundary_distance b address :
  0 <= address < 65536 ->
  remainingPageSizeAt b address = pageSize b - address mod pageSize b /\
  1 <= remainingPageSizeAt b address <= pageSize b /\
  (65536 - pageSize b <= address ->
   wrap16 (pageSize b * wrap16 (address / pageSize b + 1)) = 0 /\
   remainingPageSizeAt b address = 65536 - address).
Proof.
  intros Ha.
  assert (HP : 0 < pageSize b) by (destruct b; reflexivity).
  pose proof (Z.mod_pos_bound address (pageSize b) HP) as Hmod.
  pose proof (Z.div_mod address (pageSize b) ltac:(lia)) as Hdm.
  rewrite remainingPageSizeAt_eq by assumption.
  split; [reflexivity|]. split; [lia|].
  intros Hlast. destruct b; cbn [pageSize] in *.
  - assert (Hq : address / 32 = 2047)
      by (symmetry; apply (Z.div_unique address 32 2047 (address - 65504)); lia).
    rewrite Hq in *. split; [reflexivity | lia].
  - assert (Hq : address / 64 = 1023)
      by (symmetry; apply (Z.div_unique address 64 1023 (address - 65472)); lia).
    rewrite Hq in *. split; [reflexivity | lia].
Qed.

Lemma page_boundary_distance_witness :
  0 <= 65535 < 65536 /\
  remainingPageSizeAt AVR 65535 = pageSize AVR - 65535 mod pageSize AVR /\
  1 <= remainingPageSizeAt AVR 65535 <= pageSize AVR /\
  (65536 - pageSize AVR <= 65535 ->
   wrap16 (pageSize AVR * wrap16 (65535 / pageSize AVR + 1)) = 0 /\
   remainingPageSizeAt AVR 65535 = 65536 - 65535).
Proof.
  split; [lia|].
  apply (page_boundary_distance AVR 65535). lia.
Defined.

Lemma put_write_chunks_witness :
  (forall r s',
      put AVR busy ticking 10 30 [1; 2; 3; 4; 5; 6; 7; 8] bench = Ok r s' ->
      sublist (map writeSize (List.filter isWrite (newEvents bench s')))
        (schedule AVR (Z.to_nat (sizeof [1; 2; 3; 4; 5; 6; 7; 8])) 30
           (sizeof [1; 2; 3; 4; 5; 6; 7; 8])) /\
      Forall (fun e => isWrite e = true -> fitsPage AVR e) (newEvents bench s')) /\
  (forall N,
      clock_expires ticking N -> (N <= 10)%nat ->
      (Z.to_nat (sizeof [1; 2; 3; 4; 5; 6; 7; 8]%Z) <= 10)%nat ->
      exists s',
        put AVR busy ticking 10 30 [1; 2; 3; 4; 5; 6; 7; 8] bench
        = Ok [1; 2; 3; 4; 5; 6; 7; 8] s').
Proof.
  apply (put_write_chunks AVR busy ticking 10 30 [1; 2; 3; 4; 5; 6; 7; 8] bench).
  - lia.
  - reflexivity.
Defined.

Lemma put_get_round_trip_witness :
  exists s1 r s2,
    put AVR busy ticking 10 30 [1; 2; 3; 4; 5; 6; 7; 8] bench
    = Ok [1; 2; 3; 4; 5; 6; 7; 8] s1 /\
    get AVR busy ticking 10 30 [0; 0; 0; 0; 0; 0; 0; 0] s1 = Ok r s2 /\
    (Forall (fun b => b = true) (newPolls bench s2) ->
     Forall (fun e => refused e = false) (newEvents bench s2) ->
     r = [1; 2; 3; 4; 5; 6; 7; 8]).
Proof.
  apply (put_get_round_trip AVR busy ticking 6 10 30
           [1; 2; 3; 4; 5; 6; 7; 8] [0; 0; 0; 0; 0; 0; 0; 0] bench).
  - exact ticking_expires.
  - lia.
  - simpl. lia.
  - repeat constructor; lia.
  - reflexivity.
  - vm_compute. discriminate.
  - lia.
  - vm_compute. discriminate.
  - reflexivity.
Defined.

Lemma put_suppresses_writes_witness :
  (exists r s',
      put AVR acking ticking 10 30 [1; 2; 3; 4; 5; 6; 7; 8] benchHalf = Ok r s' /\
      30 + sizeof [1; 2; 3; 4; 5; 6; 7; 8] <= 65536 /\
      Forall (fun e => refused e = false) (newEvents benchHalf s') /\
      readsOf (newEvents benchHalf s') = [(30, 2); (32, 6)] /\
      List.filter (differs (cells benchHalf) [1; 2; 3; 4; 5; 6; 7; 8] 30)
        (readsOf (newEvents benchHalf s')) = [(30, 2)] /\
      map writeSize (List.filter isWrite (newEvents benchHalf s'))
      = List.filter (differs (cells benchHalf) [1; 2; 3; 4; 5; 6; 7; 8] 30)
          (readsOf (newEvents benchHalf s')) /\
      Forall (fun e => isWrite e = true ->
                payloadOf e
                = map wrap8 (chunkAt [1; 2; 3; 4; 5; 6; 7; 8]
                               (Z.to_nat (txAddressOf e - 30))
                               (Z.of_nat (length (payloadOf e)))))
        (newEvents benchHalf s')) /\
  (exists r s',
      put AVR acking ticking 10 30 [1; 2; 3; 4; 5; 6; 7; 8] benchStored = Ok r s' /\
      storedAt (cells benchStored) 30 (Z.to_nat (sizeof [1; 2; 3; 4; 5; 6; 7; 8]))
      = chunkAt [1; 2; 3; 4; 5; 6; 7; 8] 0 (sizeof [1; 2; 3; 4; 5; 6; 7; 8]) /\
      List.filter isWrite (newEvents benchStored s') = [] /\
      cells s' = cells benchStored) /\
  exists s',
    put AVR acking ticking 10 30 [1; 2; 3; 4; 5; 6; 7; 8] benchHalf
    = Ok [1; 2; 3; 4; 5; 6; 7; 8] s'.
Proof.
  split; [|split].
  - destruct (put_suppresses_writes AVR acking ticking 10 30
                [1; 2; 3; 4; 5; 6; 7; 8] benchHalf ltac:(lia) eq_refl) as [H _].
    eexists. eexists. split; [vm_compute; reflexivity|].
    split; [vm_compute; discriminate|].
    split; [vm_compute; repeat constructor|].
    split; [vm_compute; reflexivity|].
    split; [vm_compute; reflexivity|].
    eapply H.
    + vm_compute. reflexivity.
    + vm_compute. discriminate.
    + vm_compute. repeat constructor.
  - destruct (put_suppresses_writes AVR acking ticking 10 30
                [1; 2; 3; 4; 5; 6; 7; 8] benchStored ltac:(lia) eq_refl) as [H _].
    eexists. eexists. split; [vm_compute; reflexivity|].
    split; [vm_compute; reflexivity|].
    eapply H.
    + vm_compute. reflexivity.
    + vm_compute. reflexivity.
    + vm_compute. repeat constructor.
  - destruct (put_suppresses_writes AVR acking ticking 10 30
                [1; 2; 3; 4; 5; 6; 7; 8] benchHalf ltac:(lia) eq_refl) as [_ H].
    apply (H 6%nat).
    + exact ticking_expires.
    + lia.
    + vm_compute. lia.
Defined.

Lemma put_aborts_on_timeout_witness :
  exists s1,
    ackPolling AVR refusing ticking 10 bench = Ok false s1 /\
    put_while AVR refusing ticking 10 10 30 [1; 2; 3; 4; 5; 6; 7; 8] 0 8 bench
    = Ok [1; 2; 3; 4; 5; 6; 7; 8] s1 /\
    cells s1 = cells bench /\
    this s1 = this bench /\
    exists k,
      journal s1
      = journal bench ++ pollEvents refusing (I2CAddress (this bench)) (ended bench) k /\
      Forall (fun e => isPoll e = true)
        (pollEvents refusing (I2CAddress (this bench)) (ended bench) k).
Proof.
  eexists. split; [vm_compute; reflexivity|].
  apply (put_aborts_on_timeout AVR refusing ticking 10 9 30
           [1; 2; 3; 4; 5; 6; 7; 8] 0 8 bench).
  - lia.
  - vm_compute. reflexivity.
Defined.

Lemma get_reads_in_chunks_witness :
  exists ready s1 k r s',
    ackPolling AVR acking ticking 10 bench = Ok ready s1 /\
    journal s1 = journal bench
                 ++ pollEvents acking (I2CAddress (this bench)) (ended bench) k /\
    get AVR acking ticking 10 30 (repeat 0%Z 70) bench = Ok r s' /\
    polled s' = polled bench ++ [ready] /\
    (ready = false -> s' = s1) /\
    (ready = true ->
     journal s' = journal s1
                  ++ flat_map (chunkEvents AVR acking (I2CAddress (this bench)) 30
                                 (sizeof (repeat 0%Z 70)) (ended s1))
                       (seq 0 (readCount AVR (sizeof (repeat 0%Z 70))))) /\
    (forall j, (j < readCount AVR (sizeof (repeat 0%Z 70)))%nat ->
       Z.of_nat j * bufferSize AVR < sizeof (repeat 0%Z 70) /\
       1 <= snd (readChunk AVR 30 (sizeof (repeat 0%Z 70)) j) <= bufferSize AVR /\
       ((S j < readCount AVR (sizeof (repeat 0%Z 70)))%nat ->
        snd (readChunk AVR 30 (sizeof (repeat 0%Z 70)) j) = bufferSize AVR) /\
       (S j = readCount AVR (sizeof (repeat 0%Z 70)) ->
        Z.of_nat j * bufferSize AVR + snd (readChunk AVR 30 (sizeof (repeat 0%Z 70)) j)
        = sizeof (repeat 0%Z 70))).
Proof.
  apply (get_reads_in_chunks AVR acking ticking 6 10 30 (repeat 0%Z 70) bench).
  - exact ticking_expires.
  - lia.
  - vm_compute. lia.
  - vm_compute. discriminate.
Defined.

Lemma ackPolling_times_out_witness :
  exists s' k,
    ackPolling AVR refusing ticking 10 bench = Ok false s' /\
    (k <= 5)%nat /\
    journal s' = journal bench
                 ++ pollEvents refusing (I2CAddress (this bench)) (ended bench) k /\
    (forall i, (i < k)%nat ->
               wrap32 (ticking (ticks bench + S i)%nat - ticking (ticks bench)) < 6000) /\
    6000 <= wrap32 (ticking (ticks bench + S k)%nat - ticking (ticks bench)) /\
    ticks s' = (ticks bench + S (S k))%nat.
Proof.
  apply (ackPolling_times_out AVR refusing ticking 10 bench 5).
  - intros i. vm_compute. discriminate.
  - lia.
  - vm_compute. discriminate.
Defined.

Lemma ackPolling_attempts_witness :
  exists b s' k,
    ackPolling AVR busy ticking 10 bench = Ok b s' /\
    journal s' = journal bench
                 ++ pollEvents busy (I2CAddress (this bench)) (ended bench) k /\
    Forall (fun e => exists status, e = Tx (I2CAddress (this bench)) [0] status)
      (pollEvents busy (I2CAddress (this bench)) (ended bench) k) /\
    cells s' = cells bench /\
    (b = true <-> exists k', k = S k' /\ wrap8 (busy (ended bench + k')%nat) = 0) /\
    (b = false ->
     6000 <= wrap32 (ticking (ticks bench + S k)%nat - ticking (ticks bench))).
Proof.
  apply (ackPolling_attempts AVR busy ticking 6 10 bench).
  - exact ticking_expires.
  - lia.
Defined.

Lemma update_writes_iff_different_witness :
  exists s1,
    ackPolling AVR acking ticking 10 bench = Ok true s1 /\
    read AVR acking ticking 10 30 bench
    = Ok (byteRead acking s1 30) (afterRead acking s1 30 1) /\
    (wrap8 (acking (ended s1)) = 0 -> byteRead acking s1 30 = wrap8 (cells bench 30)) /\
    List.filter isWrite (newEvents bench (afterRead acking s1 30 1)) = [] /\
    (byteRead acking s1 30 = 7 ->
     update AVR acking ticking 10 30 7 bench = Ok tt (afterRead acking s1 30 1)) /\
    (byteRead acking s1 30 <> 7 ->
     forall s3,
       ackPolling AVR acking ticking 10 (afterRead acking s1 30 1) = Ok true s3 ->
       update AVR acking ticking 10 30 7 bench = Ok tt (afterWrite acking s3 30 [7]) /\
       List.filter isWrite (newEvents bench (afterWrite acking s3 30 [7]))
       = [Tx (I2CAddress (this bench)) [hiByte 30; loByte 30; 7]
            (wrap8 (acking (ended s3)))]).
Proof.
  eexists. split; [vm_compute; reflexivity|].
  apply (update_writes_iff_different AVR acking ticking 10 30 7 bench).
  - lia.
  - lia.
  - vm_compute. reflexivity.
Defined.

Lemma put_reads_fit_readBuffer_witness :
  pageSize ESP8266 - 2 = 62 /\
  (forall e,
      put ESP8266 acking ticking 200 60 (repeat 7 150) bench = Bad e -> e = OutOfFuel) /\
  (forall r s',
      put ESP8266 acking ticking 200 60 (repeat 7 150) bench = Ok r s' ->
      Forall (fun e => isRequest e = true ->
                       1 <= quantityOf e <= pageSize ESP8266 - 2 /\
                       quantityOf e < Z.of_nat (length (readBuffer (this bench))))
        (newEvents bench s') /\
      length (readBuffer (this s')) = 64%nat) /\
  (forall N,
      clock_expires ticking N -> (N <= 200)%nat ->
      (Z.to_nat (sizeof (repeat 7%Z 150)) <= 200)%nat ->
      exists s',
        put ESP8266 acking ticking 200 60 (repeat 7 150) bench
        = Ok (repeat 7 150) s').
Proof.
  apply (put_reads_fit_readBuffer ESP8266 acking ticking 200 60 (repeat 7 150) bench).
  - lia.
  - reflexivity.
Defined.

(** The attempt of a poll carries a byte: the claim that it is a
    transmission without bytes fails on the bench. *)
Lemma poll_attempt_carries_a_byte :
  exists s',
    ackPolling AVR acking ticking 10 bench = Ok true s' /\
    journal s' = [Tx 80 [0] 0] /\
    ~ Forall (fun e => txBytesOf e = []) (journal s').
Proof.
  eexists. split; [vm_compute; reflexivity|].
  split; [reflexivity|].
  intros H. inversion H as [|e l He Hl]. discriminate He.
Qed.

Lemma large_bytes : bytes large.
Proof.
  unfold bytes, large. apply List.Forall_forall. intros v Hv.
  apply repeat_spec in Hv. subst v. lia.
Qed.

Lemma get_large_fails fuel s :
  ~ exists r s', get AVR acking ticking fuel 0 large s = Ok r s'.
Proof.
  intros (r & s' & Hget).
  destruct (acking_polls AVR fuel s) as [[s1 Hpoll]|[e Hpoll]].
  - destruct (get_overrun AVR acking ticking fuel 0 large s s1) as [e He].
    + rewrite large_length. cbn. lia.
    + exact Hpoll.
    + congruence.
  - unfold get in Hget. unfold bind at 1 in Hget. rewrite Hpoll in Hget. discriminate.
Qed.

(** C6: for an object of 65535 bytes [get] does not issue the
    [ceil(size / bufferSize)] read transactions and return.  The poll
    succeeds on the bench, the 16-bit counter of the loop wraps to 0 after
    the last chunk instead of reaching the size, the loop goes on reading
    beyond the end of the object, and no run of [get] returns, whatever fuel
    it is given. *)
Lemma get_never_returns_for_65535_bytes :
  Z.of_nat (length large) = 65535 /\
  (exists s1, ackPolling AVR acking ticking 1 bench = Ok true s1) /\
  ~ exists fuel r s', get AVR acking ticking fuel 0 large bench = Ok r s'.
Proof.
  split; [exact large_length|]. split.
  - eexists. vm_compute. reflexivity.
  - intros (fuel & H). exact (get_large_fails fuel bench H).
Qed.

Lemma acking_PutRun board fuel t address ptr remaining s ps evs s' :
  PutRun board acking ticking fuel t address ptr remaining s ps evs s' ->
  Forall (fun b => b = true) ps.
Proof.
  assert (Hp : forall s0 b s1, ackPolling board acking ticking fuel s0 = Ok b s1 ->
                               b = true).
  { intros s0 b s1 H. destruct (acking_polls board fuel s0) as [[s2 H2]|[e H2]];
      congruence. }
  induction 1 as [address ptr remaining s Hr
                 |address ptr remaining s s1 k Hr Hpoll HP
                 |address ptr remaining s s1 k ps evs s' Hr Hpoll HP Hsame HR IH
                 |address ptr remaining s s1 k s4 b4 k4 ps evs s' Hr Hpoll HP Hdiff
                    Hpoll4 HP4 HR IH].
  - constructor.
  - apply Hp in Hpoll. discriminate.
  - constructor; [reflexivity | exact IH].
  - constructor; [reflexivity|]. constructor; [now apply Hp in Hpoll4 | exact IH].
Qed.

(** C2: the round trip fails for an object of 65535 bytes put at address 0,
    where it ends within the address space: [put] returns with every poll
    successful, and [get] after it returns no object at all, because the
    16-bit counter of its loop wraps before it reaches the size. *)
Lemma round_trip_fails_for_65535_bytes :
  bytes large /\ 0 + Z.of_nat (length large) <= 65536 /\
  exists s1,
    put AVR acking ticking (Z.to_nat 65535) 0 large bench = Ok large s1 /\
    Forall (fun b => b = true) (newPolls bench s1) /\
    ~ exists fuel r s2, get AVR acking ticking fuel 0 large s1 = Ok r s2.
Proof.
  split; [exact large_bytes|]. split; [rewrite large_length; lia|].
  destruct (put_run AVR acking ticking 6 (Z.to_nat 65535) 0 large bench)
    as (ps & evs & s1 & Hput & HR & _).
  - exact ticking_expires.
  - lia.
  - rewrite sizeof_small, large_length by (rewrite large_length; lia). lia.
  - lia.
  - reflexivity.
  - exists s1. split; [exact Hput|]. split.
    + destruct (PutRun_new _ _ _ _ _ _ _ _ _ _ _ _ HR) as [-> _].
      eapply acking_PutRun; eauto.
    + intros (fuel & H). exact (get_large_fails fuel s1 H).
Qed.

(** The scenario of the spec: with pages of 32 bytes, eight bytes put at
    address 30 make two write transmissions, two bytes at 30 and six at
    32. *)
Example put_across_a_page_boundary :
  match put AVR acking ticking 10 30 [1; 2; 3; 4; 5; 6; 7; 8] bench with
  | Ok _ s' =>
      List.filter isWrite (journal s')
      = [Tx 80 [0; 30; 1; 2] 0; Tx 80 [0; 32; 3; 4; 5; 6; 7; 8] 0]
  | Bad _ => False
  end.
Proof. vm_compute. reflexivity. Qed.

(** A round trip with a part that is busy at first and after the first
    write: the polls retry and succeed, and [get] returns what was put. *)
Example round_trip_with_retries :
  match put AVR busy ticking 10 30 [1; 2; 3; 4; 5; 6; 7; 8] bench with
  | Ok _ s1 =>
      match get AVR busy ticking 10 30 [0; 0; 0; 0; 0; 0; 0; 0] s1 with
      | Ok r s2 =>
          r = [1; 2; 3; 4; 5; 6; 7; 8] /\
          newPolls bench s2 = [true; true; true; true; true] /\
          forallb (fun e => negb (refused e)) (newEvents bench s2) = true /\
          List.filter isPoll (newEvents bench s2)
          = [Tx 80 [0] 2; Tx 80 [0] 0; Tx 80 [0] 2; Tx 80 [0] 0; Tx 80 [0] 0;
             Tx 80 [0] 0; Tx 80 [0] 0]
      | Bad _ => False
      end
  | Bad _ => False
  end.
Proof. vm_compute. auto. Qed.

(** Putting what is stored already: reads only. *)
Example put_of_stored_object :
  match put AVR acking ticking 10 30 [1; 2; 3; 4; 5; 6; 7; 8] benchStored with
  | Ok _ s' =>
      storedAt (cells benchStored) 30 8 = [1; 2; 3; 4; 5; 6; 7; 8] /\
      journal s' = [Tx 80 [0] 0; Tx 80 [0; 30] 0; Rx 80 2;
                    Tx 80 [0] 0; Tx 80 [0; 32] 0; Rx 80 6]
  | Bad _ => False
  end.
Proof. vm_compute. auto. Qed.

(** ** Concrete runs of the further statements *)

Lemma ackPolling_succeeds_witness :
  wrap8 (busy (ended bench + 1)%nat) = 0 /\
  exists s',
    ackPolling AVR busy ticking 10 bench = Ok true s' /\
    journal s' = journal bench
                 ++ pollEvents busy (I2CAddress (this bench)) (ended bench) 2 /\
    ended s' = (ended bench + 2)%nat /\
    ticks s' = (ticks bench + 3)%nat /\
    polled s' = polled bench ++ [true] /\
    cells s' = cells bench.
Proof.
  split; [reflexivity|].
  eapply (ackPolling_succeeds AVR busy ticking 10 bench 1).
  - intros i Hi. assert (i = 0%nat) as -> by lia. vm_compute. discriminate.
  - reflexivity.
  - intros i Hi. destruct i as [|[|i]]; [vm_compute; reflexivity.. | lia].
  - lia.
Defined.

Lemma ackPolling_attempts_bounded_witness :
  exists b s',
    ackPolling AVR refusing ticking 10 bench = Ok b s' /\
    exists k,
      journal s' = journal bench
                   ++ pollEvents refusing (I2CAddress (this bench)) (ended bench) k /\
      (k < 6)%nat /\ ended s' = (ended bench + k)%nat /\
      (ticks s' <= ticks bench + 6 + 1)%nat.
Proof.
  eexists. eexists. split; [vm_compute; reflexivity|].
  eapply (ackPolling_attempts_bounded AVR refusing ticking 6 10 bench).
  - exact ticking_expires.
  - vm_compute. reflexivity.
Defined.

Lemma ackPolling_no_attempt_witness :
  6000 <= wrap32 (slow (S (ticks bench)) - slow (ticks bench)) /\
  exists s',
    ackPolling AVR acking slow 10 bench = Ok false s' /\
    journal s' = [] /\ polled s' = [false].
Proof.
  split; [vm_compute; discriminate|].
  eexists. split.
  - apply (ackPolling_no_attempt AVR acking slow 10 bench).
    + vm_compute. discriminate.
    + lia.
  - split; reflexivity.
Defined.

Lemma init_sets_status_witness :
  exists st s' k,
    (init AVR acking ticking 10 ;; getStatus) bench = Ok st s' /\
    journal s' = journal bench
                 ++ pollEvents acking (I2CAddress (this bench)) (ended bench) k /\
    st = EEPROMStatus (this s') /\
    st <> UNKNOWN /\
    (st = EEPROM_FOUND <->
     exists k', k = S k' /\ wrap8 (acking (ended bench + k')%nat) = 0) /\
    (st = EEPROM_NOT_FOUND ->
     6000 <= wrap32 (ticking (ticks bench + S k)%nat - ticking (ticks bench))) /\
    I2CAddress (this s') = I2CAddress (this bench) /\
    readBuffer (this s') = readBuffer (this bench) /\
    cells s' = cells bench.
Proof.
  eapply (init_sets_status AVR acking ticking 6 10 bench).
  - exact ticking_expires.
  - lia.
Defined.

Lemma get_only_reads_witness :
  exists r s',
    get AVR acking ticking 10 30 [0; 0; 0; 0; 0; 0; 0; 0] benchStored = Ok r s' /\
    cells s' = cells benchStored /\ this s' = this benchStored /\
    length r = length [0; 0; 0; 0; 0; 0; 0; 0] /\
    List.filter isWrite (newEvents benchStored s') = [] /\
    exists ready,
      newPolls benchStored s' = [ready] /\
      (ready = false -> r = [0; 0; 0; 0; 0; 0; 0; 0]).
Proof.
  eexists. eexists. split; [vm_compute; reflexivity|].
  eapply (get_only_reads AVR acking ticking 10 30 [0; 0; 0; 0; 0; 0; 0; 0] benchStored).
  vm_compute. reflexivity.
Defined.

Lemma get_returns_stored_witness :
  exists r s',
    get AVR acking ticking 10 30 [0; 0; 0; 0; 0; 0; 0; 0] benchStored = Ok r s' /\
    (newPolls benchStored s' = [true] ->
     Forall (fun e => refused e = false) (newEvents benchStored s') ->
     r = storedAt (cells benchStored) 30 (length [0; 0; 0; 0; 0; 0; 0; 0]) /\
     forall i, (i < length [0; 0; 0; 0; 0; 0; 0; 0])%nat ->
               r !! i = Some (wrap8 (cells benchStored (wrap16 (30 + Z.of_nat i))))).
Proof.
  eapply (get_returns_stored AVR acking ticking 6 10 30
           [0; 0; 0; 0; 0; 0; 0; 0] benchStored).
  - exact ticking_expires.
  - lia.
  - vm_compute. lia.
  - vm_compute. discriminate.
  - lia.
Defined.

Lemma get_too_large_never_returns_witness :
  exists s1,
    ackPolling AVR acking ticking 10 bench = Ok true s1 /\
    forall r s', get AVR acking ticking 10 0 large bench <> Ok r s'.
Proof.
  eexists. split; [vm_compute; reflexivity|].
  eapply (get_too_large_never_returns AVR acking ticking 10 0 large bench).
  - rewrite large_length. vm_compute. split; reflexivity.
  - vm_compute. reflexivity.
Defined.

Lemma write_not_ready_witness :
  exists s1,
    ackPolling AVR refusing ticking 10 bench = Ok false s1 /\
    write AVR refusing ticking 10 30 7 bench = Ok tt s1 /\
    cells s1 = cells bench /\
    List.filter isWrite (newEvents bench s1) = [] /\
    Forall (fun e => isPoll e = true) (newEvents bench s1).
Proof.
  eexists. split; [vm_compute; reflexivity|].
  eapply (write_not_ready AVR refusing ticking 10 30 7 bench).
  vm_compute. reflexivity.
Defined.

Lemma write_stores_one_cell_witness :
  exists s1,
    ackPolling AVR acking ticking 10 bench = Ok true s1 /\
    exists s',
      write AVR acking ticking 10 30 7 bench = Ok tt s' /\
      List.filter (fun e => negb (isPoll e)) (newEvents bench s')
      = [Tx (I2CAddress (this bench)) [hiByte 30; loByte 30; wrap8 7]
           (wrap8 (acking (ended s1)))] /\
      (wrap8 (acking (ended s1)) = 0 ->
       cells s' 30 = wrap8 7 /\
       forall x, x <> 30 -> cells s' x = cells bench x) /\
      (wrap8 (acking (ended s1)) <> 0 -> cells s' = cells bench).
Proof.
  eexists. split; [vm_compute; reflexivity|].
  eapply (write_stores_one_cell AVR acking ticking 10 30 7 bench).
  - lia.
  - vm_compute. reflexivity.
Defined.

Lemma write_read_round_trip_witness :
  exists s1 s3,
    ackPolling AVR acking ticking 10 bench = Ok true s1 /\
    ackPolling AVR acking ticking 10 (afterWrite acking s1 30 [wrap8 7]) = Ok true s3 /\
    (write AVR acking ticking 10 30 7 ;; read AVR acking ticking 10 30) bench
    = Ok (wrap8 7) (afterRead acking s3 30 1).
Proof.
  eexists. eexists. split; [vm_compute; reflexivity|].
  split; [vm_compute; reflexivity|].
  eapply (write_read_round_trip AVR acking ticking 10 30 7 bench).
  - lia.
  - vm_compute. reflexivity.
  - reflexivity.
  - vm_compute. reflexivity.
  - reflexivity.
Defined.

Lemma update_leaves_data_witness :
  exists s',
    update AVR acking ticking 10 30 7 bench = Ok tt s' /\
    wrap8 (cells s' 30) = 7 /\
    (forall x, x <> 30 -> cells s' x = cells bench x) /\
    (length (List.filter isWrite (newEvents bench s')) <= 1)%nat.
Proof.
  eexists. split; [vm_compute; reflexivity|].
  eapply (update_leaves_data AVR acking ticking 10 30 7 bench).
  - lia.
  - lia.
  - vm_compute. reflexivity.
  - vm_compute. repeat constructor.
  - vm_compute. repeat constructor.
Defined.

Lemma status_changes_in_init_only_witness :
  exists r s',
    put AVR busy ticking 10 30 [1; 2; 3; 4; 5; 6; 7; 8] bench = Ok r s' /\
    I2CAddress (this s') = I2CAddress (this bench) /\
    length (readBuffer (this s')) = 64%nat /\
    getStatus s' = Ok UNKNOWN s'.
Proof.
  eexists. eexists. split; [vm_compute; reflexivity|].
  destruct (status_changes_in_init_only AVR busy ticking 10 30 0
              [1; 2; 3; 4; 5; 6; 7; 8] bench) as (_ & _ & _ & H).
  destruct (H ltac:(lia) eq_refl _ _ ltac:(vm_compute; reflexivity)) as (H1 & H2 & H3).
  split; [exact H1|]. split; [exact H2|].
  eapply (H3 UNKNOWN bench). reflexivity.
Defined.

Lemma put_touches_only_its_range_witness :
  exists r s',
    put AVR busy ticking 10 30 [1; 2; 3; 4; 5; 6; 7; 8] bench = Ok r s' /\
    forall x, ~ (30 <= x < 30 + Z.of_nat (length [1; 2; 3; 4; 5; 6; 7; 8])) ->
              cells s' x = cells bench x.
Proof.
  eexists. eexists. split; [vm_compute; reflexivity|].
  eapply (put_touches_only_its_range AVR busy ticking 10 30
           [1; 2; 3; 4; 5; 6; 7; 8] bench [1; 2; 3; 4; 5; 6; 7; 8]).
  - lia.
  - vm_compute. discriminate.
  - reflexivity.
  - vm_compute. reflexivity.
Defined.

Lemma put_stores_object_witness :
  exists s',
    put AVR busy ticking 10 30 [1; 2; 3; 4; 5; 6; 7; 8] bench
    = Ok [1; 2; 3; 4; 5; 6; 7; 8] s' /\
    (Forall (fun b => b = true) (newPolls bench s') ->
     Forall (fun e => refused e = false) (newEvents bench s') ->
     storedAt (cells s') 30 (length [1; 2; 3; 4; 5; 6; 7; 8])
     = [1; 2; 3; 4; 5; 6; 7; 8] /\
     forall i v, [1; 2; 3; 4; 5; 6; 7; 8] !! i = Some v ->
                 wrap8 (cells s' (30 + Z.of_nat i)) = v).
Proof.
  eapply (put_stores_object AVR busy ticking 6 10 30 [1; 2; 3; 4; 5; 6; 7; 8] bench).
  - exact ticking_expires.
  - lia.
  - simpl. lia.
  - repeat constructor; lia.
  - vm_compute. reflexivity.
  - lia.
  - vm_compute. discriminate.
  - reflexivity.
Defined.

Lemma put_twice_writes_once_witness :
  exists s1 s2,
    put AVR acking ticking 10 30 [1; 2; 3; 4; 5; 6; 7; 8] bench
    = Ok [1; 2; 3; 4; 5; 6; 7; 8] s1 /\
    put AVR acking ticking 10 30 [1; 2; 3; 4; 5; 6; 7; 8] s1
    = Ok [1; 2; 3; 4; 5; 6; 7; 8] s2 /\
    (Forall (fun b => b = true) (newPolls bench s1) ->
     Forall (fun e => refused e = false) (newEvents bench s2) ->
     List.filter isWrite (newEvents s1 s2) = [] /\ cells s2 = cells s1).
Proof.
  eapply (put_twice_writes_once AVR acking ticking 6 10 30
           [1; 2; 3; 4; 5; 6; 7; 8] bench).
  - exact ticking_expires.
  - lia.
  - simpl. lia.
  - repeat constructor; lia.
  - vm_compute. reflexivity.
  - lia.
  - vm_compute. discriminate.
  - reflexivity.
Defined.

Lemma compareBytes_decides_witness :
  exists same,
    compareBytes [1; 2; 3; 4] 1 [9; 2; 3] 1 2 bench = Ok same bench /\
    compareBytes [9; 2; 3] 1 [1; 2; 3; 4] 1 2 bench = Ok same bench /\
    (same = true <-> chunkAt [1; 2; 3; 4] 1 2 = chunkAt [9; 2; 3] 1 2) /\
    (same = true <->
     forall i, (i < Z.to_nat 2)%nat ->
               [1; 2; 3; 4] !! (1 + i)%nat = [9; 2; 3] !! (1 + i)%nat) /\
    (2 = 0 -> same = true) /\
    compareBytes [1; 2; 3; 4] 1 [9; 2; 3] 1 (2 + 256) bench = Ok same bench.
Proof.
  eapply (compareBytes_decides [1; 2; 3; 4] 1 [9; 2; 3] 1 2 bench).
  - lia.
  - simpl. lia.
  - simpl. lia.
Defined.

Lemma writeBytes_stores_chunk_witness :
  exists s',
    writeBytes AVR acking 30 [1; 2; 3; 4; 5; 6; 7; 8] 0 8 bench = Ok tt s' /\
    newEvents bench s'
    = [Tx (I2CAddress (this bench))
         (hiByte 30 :: loByte 30 :: map wrap8 (chunkAt [1; 2; 3; 4; 5; 6; 7; 8] 0 8))
         (wrap8 (acking (ended bench)))] /\
    this s' = this bench /\
    (wrap8 (acking (ended bench)) = 0 ->
     storedAt (cells s') 30 (Z.to_nat 8)
     = map wrap8 (chunkAt [1; 2; 3; 4; 5; 6; 7; 8] 0 8) /\
     forall x, ~ (30 <= x < 30 + 8) -> cells s' x = cells bench x) /\
    (wrap8 (acking (ended bench)) <> 0 -> cells s' = cells bench).
Proof.
  eapply (writeBytes_stores_chunk AVR acking 30 [1; 2; 3; 4; 5; 6; 7; 8] 0 8 bench).
  - lia.
  - lia.
  - vm_compute. discriminate.
  - vm_compute. discriminate.
  - simpl. lia.
Defined.

Lemma readBytes_fills_destination_witness :
  exists r s',
    readBytes AVR acking 30 [0; 0; 0; 0; 0; 0] 1 4 benchStored = Ok r s' /\
    newEvents benchStored s'
    = [Tx (I2CAddress (this benchStored)) [hiByte 30; loByte 30]
         (wrap8 (acking (ended benchStored)));
       Rx (I2CAddress (this benchStored)) 4] /\
    cells s' = cells benchStored /\ this s' = this benchStored /\
    length r = length [0; 0; 0; 0; 0; 0] /\
    (forall i, (i < 1)%nat \/ (1 + Z.to_nat 4 <= i)%nat ->
               r !! i = [0; 0; 0; 0; 0; 0] !! i) /\
    (wrap8 (acking (ended benchStored)) = 0 ->
     forall i, (i < Z.to_nat 4)%nat ->
               r !! (1 + i)%nat
               = Some (wrap8 (cells benchStored (wrap16 (30 + Z.of_nat i))))).
Proof.
  eapply (readBytes_fills_destination AVR acking 30 [0; 0; 0; 0; 0; 0] 1 4 benchStored).
  - lia.
  - vm_compute. split; discriminate.
  - simpl. lia.
Defined.

Lemma address_bytes_make_address_witness :
  hiByte 4660 = 4660 / 256 /\ loByte 4660 = 4660 mod 256 /\
  0 <= hiByte 4660 < 256 /\ 0 <= loByte 4660 < 256 /\
  deliver (cells bench) 0 [hiByte 4660; loByte 4660] = (cells bench, 4660).
Proof.
  eapply (address_bytes_make_address (cells bench) 0 4660). lia.
Defined.

Lemma put_leaves_a_prefix_witness :
  exists r s',
    put AVR fading ticking 10 30 [1; 2; 3; 4; 5; 6; 7; 8] bench = Ok r s' /\
    requested (newEvents bench s') = 2 /\
    newPolls bench s' = [true; true; false] /\
    let done := requested (newEvents bench s') in
    0 <= done <= Z.of_nat (length [1; 2; 3; 4; 5; 6; 7; 8]) /\
    storedAt (cells s') 30 (Z.to_nat done)
    = take (Z.to_nat done) [1; 2; 3; 4; 5; 6; 7; 8] /\
    (forall x, ~ (30 <= x < 30 + done) -> cells s' x = cells bench x) /\
    (Forall (fun b => b = true) (newPolls bench s') ->
     done = Z.of_nat (length [1; 2; 3; 4; 5; 6; 7; 8])).
Proof.
  eexists. eexists. split; [vm_compute; reflexivity|].
  split; [vm_compute; reflexivity|].
  split; [vm_compute; reflexivity|].
  eapply (put_leaves_a_prefix AVR fading ticking 10 30 [1; 2; 3; 4; 5; 6; 7; 8] bench).
  - repeat constructor; lia.
  - vm_compute. reflexivity.
  - lia.
  - vm_compute. discriminate.
  - reflexivity.
  - vm_compute. reflexivity.
  - vm_compute. repeat constructor.
Defined.

Lemma one_bus_address_witness :
  exists r s',
    put AVR busy ticking 10 30 [1; 2; 3; 4; 5; 6; 7; 8] bench = Ok r s' /\
    Forall (fun e => targetOf e = I2CAddress (this bench)) (newEvents bench s').
Proof.
  eexists. eexists. split; [vm_compute; reflexivity|].
  destruct (one_bus_address AVR busy ticking 10 30 0
              [1; 2; 3; 4; 5; 6; 7; 8] bench) as (_ & _ & _ & _ & H).
  eapply (H ltac:(lia) eq_refl [1; 2; 3; 4; 5; 6; 7; 8]).
  vm_compute. reflexivity.
Defined.

Lemma put_reads_every_chunk_witness :
  exists r s',
    put AVR busy ticking 10 30 [1; 2; 3; 4; 5; 6; 7; 8] bench = Ok r s' /\
    readsOf (newEvents bench s')
      `prefix_of` schedule AVR (Z.to_nat (sizeof [1; 2; 3; 4; 5; 6; 7; 8])) 30
                    (sizeof [1; 2; 3; 4; 5; 6; 7; 8]) /\
    (Forall (fun b => b = true) (newPolls bench s') ->
     readsOf (newEvents bench s')
     = schedule AVR (Z.to_nat (sizeof [1; 2; 3; 4; 5; 6; 7; 8])) 30
         (sizeof [1; 2; 3; 4; 5; 6; 7; 8]) /\
     requested (newEvents bench s') = sizeof [1; 2; 3; 4; 5; 6; 7; 8]).
Proof.
  eexists. eexists. split; [vm_compute; reflexivity|].
  eapply (put_reads_every_chunk AVR busy ticking 10 30 [1; 2; 3; 4; 5; 6; 7; 8] bench
           [1; 2; 3; 4; 5; 6; 7; 8]).
  - lia.
  - reflexivity.
  - vm_compute. reflexivity.
Defined.
